(** * The analytics tracker's event queue and delivery pipeline

    A shallow embedding of the tracker ([AnalyticsTracker] and [Transport],
    one TypeScript file) as state-passing functions over an explicit world:
    the tracker object, the host page it reads from, the session store, the
    flushes that are suspended at an [await], and the trace of what crossed
    the transport boundary. The collection endpoint's [handler], [throttle]
    and the two listeners that keep state of their own are embedded beside
    it.

    JavaScript numbers that the pipeline compares and doubles ([batchSize],
    [retryMaxAttempts], [retryBackoffBaseMs], the retry counter and delay) are
    integers here; a [Math.random()] draw is a fraction [num/den] in [0,1). *)

From Stdlib Require Import ZArith List String Ascii Bool Lia Sorted.
From Stdlib Require Import DecimalString Permutation.
Import ListNotations.

Local Open Scope Z_scope.
Local Open Scope list_scope.
#[local] Set Warnings "-register-all".

(** ** Data model *)

(** Values an event payload may carry ([AnyObject]). *)
Inductive Json :=
| JUndefined
| JNull
| JBool (b : bool)
| JNum (n : Z)
| JStr (s : string)
| JArr (items : list Json)
| JObj (fields : list (string * Json)).

(** [enum EventType]: string-valued members; [ev.type] is [EventType | string]. *)
Module EventType.
Definition PAGE_VIEW : string := "page_view".
Definition CUSTOM : string := "event".
Definition GOAL : string := "goal".
Definition ECOMMERCE : string := "ecommerce".
Definition VISIBILITY : string := "visibility".
Definition FOCUS : string := "focus".
Definition BLUR : string := "blur".
Definition ENGAGEMENT : string := "engagement".
Definition PERFORMANCE : string := "performance".
Definition HEATMAP : string := "heatmap".
Definition RESOURCE_ERROR : string := "resource_error".
Definition JS_ERROR : string := "js_error".
End EventType.

(** A custom dimension value: [string | number | boolean]. *)
Inductive DimValue :=
| DimStr (s : string)
| DimNum (n : Z)
| DimBool (b : bool).

(** [interface BaseEvent]; an optional field is an [option] ([None] is
    [undefined], and for [referrer] also [null]). *)
Record TrackerEvent := mkEvent {
  ev_type : string;
  ev_ts : Z;
  ev_url : string;
  ev_title : option string;
  ev_device : option string;
  ev_referrer : option string;
  ev_siteId : option string;
  ev_sessionId : option string;
  ev_utm : option (list (string * string));
  ev_customDims : option (list (string * DimValue));
  ev_payload : option Json;
  ev_userAgent : option string
}.

(** [Partial<BaseEvent>] as the callers of [buildEvent] use it. *)
Record Overrides := mkOverrides {
  ov_url : option string;
  ov_title : option string;
  ov_referrer : option string;
  ov_payload : option Json
}.

Definition noOverrides : Overrides := mkOverrides None None None None.

(** [interface TrackerConfig]: every field optional. *)
Record TrackerConfig := mkTrackerConfig {
  tc_siteId : option string;
  tc_collectionEndpoint : option string;
  tc_batchSize : option Z;
  tc_flushInterval : option Z;
  tc_debug : option bool;
  tc_trackOutlinks : option bool;
  tc_trackDownloads : option bool;
  tc_scrollDepthPercentages : option (list Z);
  tc_maxHeatmapPoints : option Z;
  tc_retryBackoffBaseMs : option Z;
  tc_retryMaxAttempts : option Z
}.

(** [Required<TrackerConfig>]. *)
Record Config := mkConfig {
  siteId : string;
  collectionEndpoint : string;
  batchSize : Z;
  flushInterval : Z;
  debug : bool;
  trackOutlinks : bool;
  trackDownloads : bool;
  scrollDepthPercentages : list Z;
  maxHeatmapPoints : Z;
  retryBackoffBaseMs : Z;
  retryMaxAttempts : Z
}.

(** [DEFAULTS]; the endpoint default comes from the build
    ([process.env.COLLECTION_ENDPOINT || ""]). *)
Definition DEFAULTS (envEndpoint : string) : Config := {|
  siteId := "";
  collectionEndpoint := envEndpoint;
  batchSize := 15;
  flushInterval := 5000;
  debug := false;
  trackOutlinks := true;
  trackDownloads := true;
  scrollDepthPercentages := [25; 50; 75; 100];
  maxHeatmapPoints := 500;
  retryBackoffBaseMs := 500;
  retryMaxAttempts := 4
|}.

Definition orDefault {A} (o : option A) (d : A) : A :=
  match o with Some a => a | None => d end.

(** [{ ...DEFAULTS, ...config }]. *)
Definition mergeConfig (d : Config) (c : TrackerConfig) : Config := {|
  siteId := orDefault (tc_siteId c) (siteId d);
  collectionEndpoint := orDefault (tc_collectionEndpoint c) (collectionEndpoint d);
  batchSize := orDefault (tc_batchSize c) (batchSize d);
  flushInterval := orDefault (tc_flushInterval c) (flushInterval d);
  debug := orDefault (tc_debug c) (debug d);
  trackOutlinks := orDefault (tc_trackOutlinks c) (trackOutlinks d);
  trackDownloads := orDefault (tc_trackDownloads c) (trackDownloads d);
  scrollDepthPercentages :=
    orDefault (tc_scrollDepthPercentages c) (scrollDepthPercentages d);
  maxHeatmapPoints := orDefault (tc_maxHeatmapPoints c) (maxHeatmapPoints d);
  retryBackoffBaseMs := orDefault (tc_retryBackoffBaseMs c) (retryBackoffBaseMs d);
  retryMaxAttempts := orDefault (tc_retryMaxAttempts c) (retryMaxAttempts d)
|}.

(** The object [flush] serialises with [JSON.stringify]: the request body. *)
Record Payload := mkPayload {
  p_siteId : string;
  p_ts : Z;
  p_events : list TrackerEvent
}.

(** ** The host page *)

(** One [Math.random()] draw: the fraction [rnd_num / rnd_den]. *)
Record Unit01 := mkUnit01 { rnd_num : Z; rnd_den : Z }.

Definition unit01_ok (r : Unit01) : Prop := 0 <= rnd_num r < rnd_den r.

(** What [navigator.sendBeacon] does when [send] reaches for it. *)
Inductive Beacon :=
| BeaconMissing
| BeaconReturns (ok : bool)
| BeaconThrows.

(** [sessionStorage]: unreachable (every access throws), or a store whose
    [setItem] may throw. *)
Inductive SessionStorage :=
| StorageDenied
| StorageItems (items : list (string * string)) (writable : bool).

Record Host := mkHost {
  h_href : string;
  h_query : list (string * string);
  h_title : string;
  h_referrer : string;
  h_userAgent : string;
  h_clock : Z;
  h_beacon : Beacon;
  h_random : nat -> Unit01
}.

(** ** Utilities *)

(** JavaScript truthiness of a string. *)
Definition truthy (s : string) : bool :=
  match s with EmptyString => false | String _ _ => true end.

(** [a || b] where [a] is an optional string and [b] a string. *)
Definition orElse (a : option string) (b : string) : string :=
  match a with
  | Some s => if truthy s then s else b
  | None => b
  end.

Fixpoint assocGet {V} (k : string) (l : list (string * V)) : option V :=
  match l with
  | [] => None
  | (k', v) :: rest => if String.eqb k k' then Some v else assocGet k rest
  end.

(** [obj[k] = v] on an object used as a map: an existing key keeps its place. *)
Fixpoint assocSet {V} (k : string) (v : V) (l : list (string * V)) : list (string * V) :=
  match l with
  | [] => [(k, v)]
  | (k', v') :: rest =>
      if String.eqb k k' then (k, v) :: rest else (k', v') :: assocSet k v rest
  end.

Definition utmKeys : list string :=
  ["utm_source"; "utm_medium"; "utm_campaign"; "utm_term"; "utm_content"]%string.

(** [parseUTM]: [h_query] is [new URLSearchParams(location.search)]. *)
Definition parseUTM (h : Host) : list (string * string) :=
  fold_left
    (fun out k =>
       match assocGet k (h_query h) with
       | Some v => if truthy v then assocSet k v out else out
       | None => out
       end)
    utmKeys [].

Definition hexDigits : list ascii :=
  ["0"; "1"; "2"; "3"; "4"; "5"; "6"; "7"; "8"; "9"; "a"; "b"; "c"; "d"; "e"; "f"]%char.

(** [v.toString(16)] for [0 <= v < 16]. *)
Definition hexDigit (v : Z) : ascii := nth (Z.to_nat v) hexDigits "0"%char.

(** [(Math.random() * 16) | 0]. *)
Definition random16 (r : Unit01) : Z := (16 * rnd_num r) / rnd_den r.

Fixpoint uuidFill (template : string) (rnd : nat -> Unit01) (pos : nat) : string * nat :=
  match template with
  | EmptyString => (EmptyString, pos)
  | String c rest =>
      if Ascii.eqb c "x" then
        let r := random16 (rnd pos) in
        let '(s, p) := uuidFill rest rnd (S pos) in
        (String (hexDigit r) s, p)
      else if Ascii.eqb c "y" then
        let r := random16 (rnd pos) in
        let '(s, p) := uuidFill rest rnd (S pos) in
        (String (hexDigit (Z.lor (Z.land r 3) 8)) s, p)
      else
        let '(s, p) := uuidFill rest rnd pos in
        (String c s, p)
  end.

(** [uuidv4]: the result and the position of the next unused draw. *)
Definition uuidv4 (rnd : nat -> Unit01) (pos : nat) : string * nat :=
  uuidFill "xxxxxxxx-xxxx-4xxx-yxxx-xxxxxxxxxxxx" rnd pos.

Arguments uuidv4 : simpl never.

Definition lowerAscii (c : ascii) : ascii :=
  let n := nat_of_ascii c in
  if (Nat.leb 65 n && Nat.leb n 90)%bool then ascii_of_nat (n + 32) else c.

Fixpoint lowerString (s : string) : string :=
  match s with
  | EmptyString => EmptyString
  | String c rest => String (lowerAscii c) (lowerString rest)
  end.

Fixpoint contains (needle hay : string) : bool :=
  (String.prefix needle hay
   || match hay with
      | EmptyString => false
      | String _ rest => contains needle rest
      end)%bool.

(** [/Mobi|Android/i.test(ua)]. *)
Definition isMobile (ua : string) : bool :=
  (contains "mobi" (lowerString ua) || contains "android" (lowerString ua))%bool.

(** ** Transport *)

(** [class Transport]: the constructor's four private fields. *)
Record Transport := mkTransport {
  endpoint : string;
  t_debug : bool;
  backoffBaseMs : Z;
  maxAttempts : Z
}.

(** How an awaited [fetch] settles: a response with its status, or a rejection. *)
Inductive FetchResult :=
| Response (status : Z)
| NetworkFailure (reason : string).

(** [res.ok]. *)
Definition resOk (res : FetchResult) : bool :=
  match res with
  | Response status => (200 <=? status) && (status <=? 299)
  | NetworkFailure _ => false
  end.

(** The value [catch (err)] binds in the retry loop. *)
Inductive Error :=
| HttpError (status : Z)
| FetchRejected (reason : string).

Definition errorOf (res : FetchResult) : Error :=
  match res with
  | Response status => HttpError status
  | NetworkFailure reason => FetchRejected reason
  end.

(** What the pipeline does to the outside, in program order. *)
Inductive Effect :=
| ESend (p : Payload) (sync : bool)
| EBeacon (p : Payload) (outcome : option bool)
| EFetch (p : Payload) (keepalive : bool)
| EFetchSettled (p : Payload) (res : FetchResult)
| ETimeout (ms : Z)
| EStorageSet (key value : string)
| EConsentListeners.

(** Where a call of [send] is suspended: at [await fetch(...)] of attempt
    [attempt], or at the backoff [await new Promise(setTimeout)] after it. *)
Inductive SendState :=
| AwaitingFetch (attempt delay : Z)
| AwaitingTimer (attempt delay : Z).

Inductive SendStatus :=
| Resolved
| Rejected (err : Error)
| Suspended (st : SendState).

(** [Math.round(Math.random() * delay)]. *)
Definition jitter (r : Unit01) (delay : Z) : Z :=
  (2 * rnd_num r * delay + rnd_den r) / (2 * rnd_den r).

(** The head of [while (attempt < this.maxAttempts)] down to [await fetch]. *)
Definition sendLoop (t : Transport) (p : Payload) (sync : bool) (attempt delay : Z)
  : list Effect * SendStatus :=
  if attempt <? maxAttempts t then
    let attempt := attempt + 1 in
    ([EFetch p sync], Suspended (AwaitingFetch attempt delay))
  else ([], Resolved).

(** The [sendBeacon] branch of [send]: what it did and whether the host
    took the payload. *)
Definition tryBeacon (h : Host) (p : Payload) (sync : bool) : list Effect * bool :=
  if sync then
    match h_beacon h with
    | BeaconMissing => ([], false)
    | BeaconReturns ok => ([EBeacon p (Some ok)], ok)
    | BeaconThrows => ([EBeacon p None], false)
    end
  else ([], false).

(** [send] from its entry to its first suspension (or to its return). *)
Definition send (t : Transport) (h : Host) (p : Payload) (sync : bool)
  : list Effect * SendStatus :=
  let '(tried, ok) := tryBeacon h p sync in
  if ok then (ESend p sync :: tried, Resolved)
  else
    let '(effs, status) := sendLoop t p sync 0 (backoffBaseMs t) in
    (ESend p sync :: tried ++ effs, status).

(** [send] resumed when the awaited [fetch] settles; [pos] is the next
    unused [Math.random()] draw. *)
Definition sendFetchSettled (t : Transport) (h : Host) (pos : nat) (p : Payload)
    (attempt delay : Z) (res : FetchResult) : list Effect * SendStatus * nat :=
  if resOk res then ([EFetchSettled p res], Resolved, pos)
  else
    let err := errorOf res in
    if attempt >=? maxAttempts t then ([EFetchSettled p res], Rejected err, pos)
    else
      let j := jitter (h_random h pos) delay in
      ([EFetchSettled p res; ETimeout (delay + j)],
       Suspended (AwaitingTimer attempt delay), S pos).

(** [send] resumed when the backoff timer fires: [delay *= 2], next iteration. *)
Definition sendTimerFired (t : Transport) (p : Payload) (sync : bool)
    (attempt delay : Z) : list Effect * SendStatus :=
  sendLoop t p sync attempt (delay * 2).

(** One call of [send] driven to the end of the given fetch outcomes, every
    backoff timer firing in turn. *)
Fixpoint drive (t : Transport) (h : Host) (pos : nat) (p : Payload) (sync : bool)
    (replies : list FetchResult) (status : SendStatus) {struct replies}
  : list Effect * SendStatus :=
  match status with
  | Suspended (AwaitingFetch attempt delay) =>
      match replies with
      | [] => ([], status)
      | res :: rest =>
          let '(e1, s1, pos1) := sendFetchSettled t h pos p attempt delay res in
          match s1 with
          | Suspended (AwaitingTimer attempt1 delay1) =>
              let '(e2, s2) := sendTimerFired t p sync attempt1 delay1 in
              let '(e3, s3) := drive t h pos1 p sync rest s2 in
              (e1 ++ e2 ++ e3, s3)
          | _ => (e1, s1)
          end
      end
  | _ => ([], status)
  end.

Definition runSend (t : Transport) (h : Host) (pos : nat) (p : Payload) (sync : bool)
    (replies : list FetchResult) : list Effect * SendStatus :=
  let '(e0, s0) := send t h p sync in
  let '(e1, s1) := drive t h pos p sync replies s0 in
  (e0 ++ e1, s1).

(** Projections of a trace. *)
Definition fetchesOf (tr : list Effect) : list (Payload * bool) :=
  flat_map (fun e => match e with EFetch p k => [(p, k)] | _ => [] end) tr.

Definition waitsOf (tr : list Effect) : list Z :=
  flat_map (fun e => match e with ETimeout ms => [ms] | _ => [] end) tr.

Definition sendsOf (tr : list Effect) : list (Payload * bool) :=
  flat_map (fun e => match e with ESend p s => [(p, s)] | _ => [] end) tr.

Definition beaconsOf (tr : list Effect) : list (Payload * option bool) :=
  flat_map (fun e => match e with EBeacon p o => [(p, o)] | _ => [] end) tr.

(** Bodies the endpoint took: a 2xx response to a fetch, or a beacon the
    host accepted. *)
Definition deliveredOf (tr : list Effect) : list Payload :=
  flat_map
    (fun e =>
       match e with
       | EFetchSettled p res => if resOk res then [p] else []
       | EBeacon p (Some true) => [p]
       | _ => []
       end) tr.

(** ** The tracker and the world it runs in *)

(** The private fields of [AnalyticsTracker] that the pipeline reads or
    writes. *)
Record Tracker := mkTracker {
  config : Config;
  transport : Transport;
  queue : list TrackerEvent;
  customDims : list (string * DimValue);
  hasConsent : bool;
  sessionId : string
}.

(** A call of [flush] suspended at [await this.transport.send(body, sync)]:
    its local [batch], the body and mode it passed, and where [send] waits. *)
Record Flight := mkFlight {
  f_batch : list TrackerEvent;
  f_payload : Payload;
  f_sync : bool;
  f_state : SendState
}.

Record World := mkWorld {
  tracker : Tracker;
  host : Host;
  storage : SessionStorage;
  randPos : nat;
  flights : list (nat * Flight);
  nextFlight : nat;
  trace : list Effect
}.

Definition setTracker (t : Tracker) (w : World) : World :=
  mkWorld t (host w) (storage w) (randPos w) (flights w) (nextFlight w) (trace w).

Definition setQueue (q : list TrackerEvent) (w : World) : World :=
  let t := tracker w in
  setTracker
    (mkTracker (config t) (transport t) q (customDims t) (hasConsent t) (sessionId t)) w.

Definition emit (effs : list Effect) (w : World) : World :=
  mkWorld (tracker w) (host w) (storage w) (randPos w) (flights w) (nextFlight w)
    (trace w ++ effs).

Definition setRandPos (pos : nat) (w : World) : World :=
  mkWorld (tracker w) (host w) (storage w) pos (flights w) (nextFlight w) (trace w).

Definition setStorage (s : SessionStorage) (w : World) : World :=
  mkWorld (tracker w) (host w) s (randPos w) (flights w) (nextFlight w) (trace w).

Definition setFlights (fs : list (nat * Flight)) (w : World) : World :=
  mkWorld (tracker w) (host w) (storage w) (randPos w) fs (nextFlight w) (trace w).

Fixpoint findFlight (id : nat) (fs : list (nat * Flight)) : option Flight :=
  match fs with
  | [] => None
  | (id', f) :: rest => if Nat.eqb id id' then Some f else findFlight id rest
  end.

Definition dropFlight (id : nat) (fs : list (nat * Flight)) : list (nat * Flight) :=
  filter (fun '(id', _) => negb (Nat.eqb id id')) fs.

Fixpoint putFlight (id : nat) (f : Flight) (fs : list (nat * Flight))
  : list (nat * Flight) :=
  match fs with
  | [] => [(id, f)]
  | (id', f') :: rest =>
      if Nat.eqb id id' then (id, f) :: rest else (id', f') :: putFlight id f rest
  end.

Definition sessionKey : string := "analytics_session_v1".

(** [createOrRestoreSession]. *)
Definition createOrRestoreSession (w : World) : string * World :=
  match storage w with
  | StorageDenied =>
      let '(id, pos) := uuidv4 (h_random (host w)) (randPos w) in
      (id, setRandPos pos w)
  | StorageItems items writable =>
      match assocGet sessionKey items with
      | Some (String c rest) => (String c rest, w)
      | _ =>
          let '(id, pos) := uuidv4 (h_random (host w)) (randPos w) in
          if writable then
            (id,
             emit [EStorageSet sessionKey id]
               (setStorage (StorageItems (assocSet sessionKey id items) writable)
                  (setRandPos pos w)))
          else
            let '(id2, pos2) := uuidv4 (h_random (host w)) pos in
            (id2, setRandPos pos2 w)
      end
  end.

(** [grantConsent]; attaching the consent-only listeners shows in the trace. *)
Definition grantConsent (w : World) : World :=
  if hasConsent (tracker w) then w
  else
    let t := tracker w in
    let w1 :=
      setTracker
        (mkTracker (config t) (transport t) (queue t) (customDims t) true (sessionId t))
        w in
    let '(id, w2) := createOrRestoreSession w1 in
    let t2 := tracker w2 in
    let w3 :=
      setTracker
        (mkTracker (config t2) (transport t2) (queue t2) (customDims t2)
           (hasConsent t2) id)
        w2 in
    emit [EConsentListeners] w3.

(** [setSiteId]. *)
Definition setSiteId (s : string) (w : World) : World :=
  if negb (truthy s) then w
  else
    let t := tracker w in
    let c := config t in
    let c' :=
      mkConfig s (collectionEndpoint c) (batchSize c) (flushInterval c) (debug c)
        (trackOutlinks c) (trackDownloads c) (scrollDepthPercentages c)
        (maxHeatmapPoints c) (retryBackoffBaseMs c) (retryMaxAttempts c) in
    setTracker
      (mkTracker c' (transport t) (queue t) (customDims t) (hasConsent t) (sessionId t))
      w.

(** [setCustomDimension]. [customDims] is a plain object: the name
    [__proto__] reaches the prototype setter, which ignores a string, a
    number or a boolean, so nothing is stored under it. *)
Definition setCustomDimension (name : string) (value : DimValue) (w : World) : World :=
  if negb (truthy name) then w
  else if String.eqb name "__proto__" then w
  else
    let t := tracker w in
    setTracker
      (mkTracker (config t) (transport t) (queue t)
         (assocSet name value (customDims t)) (hasConsent t) (sessionId t))
      w.

Definition someIfTruthy (s : string) : option string :=
  if truthy s then Some s else None.

(** [buildEvent]. *)
Definition buildEvent (type : string) (overrides : Overrides) (w : World)
  : TrackerEvent :=
  let h := host w in
  let t := tracker w in
  {| ev_type := type;
     ev_ts := h_clock h;
     ev_url := orElse (ov_url overrides) (h_href h);
     ev_title := Some (orElse (ov_title overrides) (h_title h));
     ev_device :=
       Some (if isMobile (h_userAgent h) then "mobile" else "web")%string;
     ev_referrer := Some (orElse (ov_referrer overrides) (h_referrer h));
     ev_siteId := someIfTruthy (siteId (config t));
     ev_sessionId := someIfTruthy (sessionId t);
     ev_utm := Some (parseUTM h);
     ev_customDims :=
       match customDims t with
       | [] => None
       | dims => Some dims
       end;
     ev_payload := ov_payload overrides;
     ev_userAgent := Some (h_userAgent h) |}.

(** [ev.sessionId = this.sessionId] on the event object. *)
Definition withSession (id : string) (ev : TrackerEvent) : TrackerEvent :=
  mkEvent (ev_type ev) (ev_ts ev) (ev_url ev) (ev_title ev) (ev_device ev)
    (ev_referrer ev) (ev_siteId ev) (Some id) (ev_utm ev) (ev_customDims ev)
    (ev_payload ev) (ev_userAgent ev).

(** [if (this.sessionId) ev.sessionId = this.sessionId]. *)
Definition attachSession (t : Tracker) (ev : TrackerEvent) : TrackerEvent :=
  if truthy (sessionId t) then withSession (sessionId t) ev else ev.

(** The tail of [flush] once the awaited [send] has settled: nothing on
    success, [this.queue.unshift(...batch)] in the [catch]. *)
Definition flushTail (batch : list TrackerEvent) (outcome : SendStatus) (w : World)
  : World :=
  match outcome with
  | Rejected _ => setQueue (batch ++ queue (tracker w)) w
  | _ => w
  end.

(** [flush], up to the first suspension of the [send] it awaits. A call
    that stays suspended is recorded with its locals under a fresh id.
    The [JSON.stringify] of the body, between the clearing of the queue and
    the [try], returns on every payload of type [Json] (no cycle, no
    [BigInt]); [flushJson] below adds the case in which it throws. *)
Definition flush (sync : bool) (w : World) : World :=
  let t := tracker w in
  match queue t with
  | [] => w
  | _ :: _ =>
      if negb (truthy (siteId (config t))) then w
      else
        let batch := queue t in
        let w1 := setQueue [] w in
        let body := mkPayload (siteId (config t)) (h_clock (host w)) batch in
        let '(effs, status) := send (transport t) (host w) body sync in
        let id := nextFlight w1 in
        let w2 :=
          mkWorld (tracker w1) (host w1) (storage w1) (randPos w1) (flights w1)
            (S id) (trace w1 ++ effs) in
        match status with
        | Suspended st =>
            setFlights (putFlight id (mkFlight batch body sync st) (flights w2)) w2
        | _ => flushTail batch status w2
        end
  end.

(** [allowWithoutConsent] in [enqueue]. *)
Definition allowWithoutConsent (ev : TrackerEvent) : bool :=
  String.eqb (ev_type ev) EventType.PAGE_VIEW
  || String.eqb (ev_type ev) EventType.PERFORMANCE
  || String.eqb (ev_type ev) EventType.ENGAGEMENT.

(** [enqueue]. *)
Definition enqueue (ev : TrackerEvent) (w : World) : World :=
  let t := tracker w in
  if negb (truthy (siteId (config t))) then w
  else if negb (hasConsent t) && negb (allowWithoutConsent ev) then w
  else
    let w1 := setQueue (queue t ++ [attachSession t ev]) w in
    if Z.of_nat (List.length (queue (tracker w1))) >=? batchSize (config (tracker w1))
    then flush false w1
    else w1.

(** [trackPage]. *)
Definition trackPage (url title : option string) (w : World) : World :=
  let h := host w in
  let ev :=
    buildEvent EventType.PAGE_VIEW
      {| ov_url := Some (orElse url (h_href h));
         ov_title := Some (orElse title (h_title h));
         ov_referrer := someIfTruthy (h_referrer h);
         ov_payload := None |} w in
  enqueue ev w.

Definition optJson {A} (inj : A -> Json) (o : option A) : Json :=
  match o with Some a => inj a | None => JUndefined end.

Definition payloadOnly (p : Json) : Overrides :=
  {| ov_url := None; ov_title := None; ov_referrer := None; ov_payload := Some p |}.

(** [trackEvent]. *)
Definition trackEvent (category action : string) (label : option string)
    (value : option Z) (extra : option Json) (w : World) : World :=
  let payload :=
    JObj [("category", JStr category); ("action", JStr action);
          ("label", optJson JStr label); ("value", optJson JNum value);
          ("extra", optJson (fun j => j) extra)]%string in
  enqueue (buildEvent EventType.CUSTOM (payloadOnly payload) w) w.

(** [trackEcommerce]. *)
Definition trackEcommerce (eventName : string) (data : Json) (w : World) : World :=
  let payload := JObj [("eventName", JStr eventName); ("data", data)]%string in
  enqueue (buildEvent EventType.ECOMMERCE (payloadOnly payload) w) w.

(** [trackGoal]. *)
Definition trackGoal (goalId : Json) (revenue : option Z) (data : option Json)
    (w : World) : World :=
  let payload :=
    JObj [("goalId", goalId); ("revenue", optJson JNum revenue);
          ("data", optJson (fun j => j) data)]%string in
  enqueue (buildEvent EventType.GOAL (payloadOnly payload) w) w.

(** [flushNow]: [flush] absorbs its own failure, the [catch] here sees none. *)
Definition flushNow (w : World) : World := flush false w.

(** A suspended flush moves on: it suspends again, or [send] has settled
    and the rest of [flush] runs. *)
Definition resume (id : nat) (f : Flight) (status : SendStatus) (w : World) : World :=
  match status with
  | Suspended st =>
      setFlights
        (putFlight id (mkFlight (f_batch f) (f_payload f) (f_sync f) st) (flights w)) w
  | _ => flushTail (f_batch f) status (setFlights (dropFlight id (flights w)) w)
  end.

(** The [fetch] awaited by the suspended flush [id] settles with [res]. *)
Definition fetchSettled (id : nat) (res : FetchResult) (w : World) : World :=
  match findFlight id (flights w) with
  | Some f =>
      match f_state f with
      | AwaitingFetch attempt delay =>
          let '(effs, status, pos) :=
            sendFetchSettled (transport (tracker w)) (host w) (randPos w)
              (f_payload f) attempt delay res in
          resume id f status (setRandPos pos (emit effs w))
      | AwaitingTimer _ _ => w
      end
  | None => w
  end.

(** The backoff timer awaited by the suspended flush [id] fires. *)
Definition timerFired (id : nat) (w : World) : World :=
  match findFlight id (flights w) with
  | Some f =>
      match f_state f with
      | AwaitingTimer attempt delay =>
          let '(effs, status) :=
            sendTimerFired (transport (tracker w)) (f_payload f) (f_sync f)
              attempt delay in
          resume id f status (emit effs w)
      | AwaitingFetch _ _ => w
      end
  | None => w
  end.

(** [new AnalyticsTracker(config)]: the merged config, the transport built
    from it, and the immediate page view of [initLightListeners]. *)
Definition construct (envEndpoint : string) (c : TrackerConfig) (h : Host)
    (s : SessionStorage) : World :=
  let cfg := mergeConfig (DEFAULTS envEndpoint) c in
  let tr :=
    mkTransport (collectionEndpoint cfg) (debug cfg) (retryBackoffBaseMs cfg)
      (retryMaxAttempts cfg) in
  trackPage None None (mkWorld (mkTracker cfg tr [] [] false "") h s 0 [] 0 []).

(** ** The event loop

    Everything that can run between two suspensions: a call of the public
    API, a callback the tracker registered (interval timer, page teardown,
    a consent-only listener), the settling of an awaited fetch or backoff
    timer, or the page itself changing. *)
Inductive Op :=
| SetSiteId (s : string)
| GrantConsent
| SetCustomDimension (name : string) (value : DimValue)
| TrackPage (url title : option string)
| TrackEvent (category action : string) (label : option string)
    (value : option Z) (extra : option Json)
| TrackEcommerce (eventName : string) (data : Json)
| TrackGoal (goalId : Json) (revenue : option Z) (data : option Json)
| FlushNow
| AutoFlush
| BeforeUnload
| Listener (type : string) (payload : Json)
| FetchSettled (id : nat) (res : FetchResult)
| TimerFired (id : nat)
| HostChanged (h : Host).

Definition step (w : World) (op : Op) : World :=
  match op with
  | SetSiteId s => setSiteId s w
  | GrantConsent => grantConsent w
  | SetCustomDimension name value => setCustomDimension name value w
  | TrackPage url title => trackPage url title w
  | TrackEvent category action label value extra =>
      trackEvent category action label value extra w
  | TrackEcommerce eventName data => trackEcommerce eventName data w
  | TrackGoal goalId revenue data => trackGoal goalId revenue data w
  | FlushNow => flushNow w
  | AutoFlush => flush false w
  | BeforeUnload => flush true w
  | Listener type payload =>
      if hasConsent (tracker w)
      then enqueue (buildEvent type (payloadOnly payload) w) w
      else w
  | FetchSettled id res => fetchSettled id res w
  | TimerFired id => timerFired id w
  | HostChanged h =>
      mkWorld (tracker w) h (storage w) (randPos w) (flights w) (nextFlight w)
        (trace w)
  end.

Definition run (ops : list Op) (w : World) : World := fold_left step ops w.

(** ** Vocabulary of the properties *)

(** The part of the tracker that only [setSiteId], [setCustomDimension] and
    [grantConsent] write. *)
Definition settings (t : Tracker) : Config * Transport * list (string * DimValue)
                                    * bool * string :=
  (config t, transport t, customDims t, hasConsent t, sessionId t).

Definition storageSetsOf (tr : list Effect) : list (string * string) :=
  flat_map (fun e => match e with EStorageSet k v => [(k, v)] | _ => [] end) tr.

Definition listenersOf (tr : list Effect) : list unit :=
  flat_map (fun e => match e with EConsentListeners => [tt] | _ => [] end) tr.

(** [new Transport(endpoint, debug, retryBackoffBaseMs, retryMaxAttempts)]
    from the tracker's own config. *)
Definition wired (t : Tracker) : Prop :=
  transport t
  = mkTransport (collectionEndpoint (config t)) (debug (config t))
      (retryBackoffBaseMs (config t)) (retryMaxAttempts (config t)).

(** The body [flush] builds from the current queue. *)
Definition bodyOf (w : World) : Payload :=
  mkPayload (siteId (config (tracker w))) (h_clock (host w)) (queue (tracker w)).

(** The world right after the snapshot and the call of [send]. *)
Definition snapshot (effs : list Effect) (w : World) : World :=
  mkWorld (tracker (setQueue [] w)) (host w) (storage w) (randPos w) (flights w)
    (S (nextFlight w)) (trace w ++ effs).

(** The consent gate of [enqueue], as a predicate on the tracker. *)
Definition admits (t : Tracker) (ev : TrackerEvent) : bool :=
  truthy (siteId (config t)) && (hasConsent t || allowWithoutConsent ev).

(** A run of calls of [enqueue], in order. *)
Definition enqueueAll (evs : list TrackerEvent) (w : World) : World :=
  fold_left (fun w ev => enqueue ev w) evs w.

(** The trace the retry loop leaves between the first [fetch] and the
    settling of the last one, when the attempts in [fails] fail one after
    the other: each failure is followed by one backoff wait and the next
    [fetch], the delay doubling from wait to wait. *)
Fixpoint retryTrace (h : Host) (p : Payload) (sync : bool) (pos : nat) (delay : Z)
    (fails : list FetchResult) : list Effect :=
  match fails with
  | [] => []
  | res :: rest =>
      EFetchSettled p res
        :: ETimeout (delay + jitter (h_random h pos) delay)
        :: EFetch p sync
        :: retryTrace h p sync (S pos) (delay * 2) rest
  end.

(** The waits of [n] successive backoffs starting at [delay]. *)
Fixpoint backoffWaits (h : Host) (pos : nat) (delay : Z) (n : nat) : list Z :=
  match n with
  | O => []
  | S n' =>
      (delay + jitter (h_random h pos) delay)
        :: backoffWaits h (S pos) (delay * 2) n'
  end.

(** What [enqueue] would append for each of [evs], in order. *)
Definition admittedOf (t : Tracker) (evs : list TrackerEvent) : list TrackerEvent :=
  map (attachSession t) (filter (admits t) evs).

(** One failed attempt of the suspended flush [id] that is followed by a
    retry, with the events that arrive around it: [r_before] while the
    fetch is outstanding, [r_after] during the backoff wait. *)
Record Round := mkRound {
  r_before : list TrackerEvent;
  r_result : FetchResult;
  r_after : list TrackerEvent
}.

Definition failedAttempt (id : nat) (w : World) (r : Round) : World :=
  timerFired id
    (enqueueAll (r_after r)
       (fetchSettled id (r_result r) (enqueueAll (r_before r) w))).

(** The last attempt: events arrive, then its fetch settles. *)
Definition lastAttempt (id : nat) (evs : list TrackerEvent) (res : FetchResult)
    (w : World) : World :=
  fetchSettled id res (enqueueAll evs w).

Definition arrived (rounds : list Round) : list TrackerEvent :=
  flat_map (fun r => r_before r ++ r_after r) rounds.

(** The flush [id] is suspended in state [st] holding [batch], the queue is
    [q], and the tracker's settings are those of [w0]. *)
Definition suspendedAt (id : nat) (batch : list TrackerEvent) (body : Payload)
    (sync : bool) (st : SendState) (q : list TrackerEvent) (w0 w : World) : Prop :=
  findFlight id (flights w) = Some (mkFlight batch body sync st)
  /\ queue (tracker w) = q
  /\ settings (tracker w) = settings (tracker w0).

(** ** Sample worlds *)

Module Sample.

Definition half : Unit01 := mkUnit01 1 2.

Definition page : Host :=
  {| h_href := "https://shop.example/cart?utm_source=mail";
     h_query := [("utm_source", "mail")]%string;
     h_title := "Cart";
     h_referrer := "";
     h_userAgent := "Mozilla/5.0 (Android 14)";
     h_clock := 1000;
     h_beacon := BeaconReturns false;
     h_random := fun _ => half |}.

Definition cfg (size attempts : Z) : TrackerConfig :=
  {| tc_siteId := Some "site-1"%string;
     tc_collectionEndpoint := Some "https://collect.example/api"%string;
     tc_batchSize := Some size;
     tc_flushInterval := None;
     tc_debug := None;
     tc_trackOutlinks := None;
     tc_trackDownloads := None;
     tc_scrollDepthPercentages := None;
     tc_maxHeatmapPoints := None;
     tc_retryBackoffBaseMs := None;
     tc_retryMaxAttempts := Some attempts |}.

(** A tracker constructed with a site id: its first page view is queued. *)
Definition fresh (size attempts : Z) : World :=
  construct "" (cfg size attempts) page (StorageItems [] true).

(** A tracker constructed without a site id: nothing is queued. *)
Definition unconfigured : World :=
  construct ""
    (mkTrackerConfig None None None None None None None None None None None)
    page StorageDenied.

(** The same page in a browser whose [sendBeacon] takes what it is given. *)
Definition beaconPage : Host :=
  mkHost (h_href page) (h_query page) (h_title page) (h_referrer page)
    (h_userAgent page) (h_clock page) (BeaconReturns true) (h_random page).

(** A tracker on that page, its first page view queued. *)
Definition teardown (size attempts : Z) : World :=
  construct "" (cfg size attempts) beaconPage (StorageItems [] true).

Definition click : TrackerEvent :=
  buildEvent EventType.CUSTOM (payloadOnly (JStr "click")) (fresh 15 4).

Definition view (url : string) : TrackerEvent :=
  buildEvent EventType.PAGE_VIEW
    {| ov_url := Some url; ov_title := None; ov_referrer := None;
       ov_payload := None |} (fresh 15 4).

End Sample.

(** ** The collection endpoint ([handler] of the tracking API route) *)

(** What [res.json(...)] is given. *)
Inductive ReplyBody :=
| ReplyStatus (status : string)
| ReplyEvents (events : list TrackerEvent)
| ReplyError (error : string).

(** [req.method] and [req.body]; a body is [None] when reading
    [batch.events.length] on it throws. *)
Record HttpRequest := mkRequest {
  req_method : string;
  req_body : option Payload
}.

Record HttpResponse := mkResponse {
  res_status : Z;
  res_body : ReplyBody
}.

(** [handler]: the reply and the module-level [storedEvents] afterwards. *)
Definition handler (req : HttpRequest) (storedEvents : list TrackerEvent)
  : HttpResponse * list TrackerEvent :=
  if String.eqb (req_method req) "POST" then
    match req_body req with
    | Some batch =>
        (mkResponse 200 (ReplyStatus "ok"), storedEvents ++ p_events batch)
    | None => (mkResponse 500 (ReplyError "Internal server error"), storedEvents)
    end
  else if String.eqb (req_method req) "GET" then
    (mkResponse 200 (ReplyEvents storedEvents), storedEvents)
  else (mkResponse 405 (ReplyError "Method not allowed"), storedEvents).

(** A run of requests against the endpoint: the replies in order and the
    final store. *)
Fixpoint serve (reqs : list HttpRequest) (storedEvents : list TrackerEvent)
  : list HttpResponse * list TrackerEvent :=
  match reqs with
  | [] => ([], storedEvents)
  | req :: rest =>
      let '(res, stored1) := handler req storedEvents in
      let '(replies, stored2) := serve rest stored1 in
      (res :: replies, stored2)
  end.

(** ** [throttle] *)

(** One call of the throttled function at time [t] ([Date.now()]) with the
    closure's [last]: whether [fn] runs, and [last] afterwards. *)
Definition throttleCall (limit last t : Z) : bool * Z :=
  if t - last >=? limit then (true, t) else (false, last).

(** The times at which [fn] runs when the throttled function is called at
    [times], in order. *)
Fixpoint throttleRun (limit last : Z) (times : list Z) : list Z :=
  match times with
  | [] => []
  | t :: rest =>
      let '(ran, last') := throttleCall limit last t in
      if ran then t :: throttleRun limit last' rest
      else throttleRun limit last' rest
  end.

(** [throttle(fn, limit)]: the closure starts with [last = 0]. *)
Definition throttle (limit : Z) (times : list Z) : list Z :=
  throttleRun limit 0 times.

(** ** Consent-only listeners that keep state *)

(** An entry of [heatmapBuffer]. *)
Record Point := mkPoint { pt_x : Z; pt_y : Z; pt_ts : Z }.

Definition pointJson (pt : Point) : Json :=
  JObj [("x", JNum (pt_x pt)); ("y", JNum (pt_y pt)); ("ts", JNum (pt_ts pt))]%string.

(** The tracker with the two fields its listeners keep. *)
Record Page := mkPage {
  world : World;
  heatmapBuffer : list Point;
  scrollDepthReached : list Z
}.

(** The body of the [mousemove] handler (inside its [throttle]). *)
Definition onMouseMove (x y : Z) (pg : Page) : Page :=
  let w := world pg in
  let buffer := heatmapBuffer pg ++ [mkPoint x y (h_clock (host w))] in
  if Z.of_nat (List.length buffer) >=? maxHeatmapPoints (config (tracker w)) then
    let points := buffer in
    mkPage
      (enqueue
         (buildEvent EventType.HEATMAP
            (payloadOnly
               (JObj [("points"%string, JArr (map pointJson (firstn 200 points)))]))
            w)
         w)
      [] (scrollDepthReached pg)
  else mkPage w buffer (scrollDepthReached pg).

(** [Set.prototype.has] on [scrollDepthReached]. *)
Definition reached (p : Z) (seen : list Z) : bool := existsb (Z.eqb p) seen.

(** The template literal [`${p}%`]. *)
Definition percentLabel (p : Z) : string :=
  (NilZero.string_of_int (Z.to_int p) ++ "%")%string.

(** One turn of the [for (const p of ...)] loop of the scroll handler. *)
Definition scrollStep (pct : Z) (acc : World * list Z) (p : Z) : World * list Z :=
  let '(w, seen) := acc in
  if (pct >=? p) && negb (reached p seen) then
    (trackEvent "Scroll" "DepthReached" (Some (percentLabel p)) (Some p) None w,
     seen ++ [p])
  else (w, seen).

(** The body of the scroll handler (inside its [throttle]); [maxScroll] is
    [Math.max(0, docHeight - viewport)] and [pct] the handler's
    [Math.floor((current / maxScroll) * 100)], both as the host computes
    them. *)
Definition onScroll (maxScroll pct : Z) (pg : Page) : Page :=
  if maxScroll <=? 0 then pg
  else
    let '(w, seen) :=
      fold_left (scrollStep pct)
        (scrollDepthPercentages (config (tracker (world pg))))
        (world pg, scrollDepthReached pg) in
    mkPage w (heatmapBuffer pg) seen.

(** ** Events and where they are *)

(** The event an operation hands to [enqueue], if it hands one. *)
Definition producedEvent (op : Op) (w : World) : option TrackerEvent :=
  match op with
  | TrackPage url title =>
      Some (buildEvent EventType.PAGE_VIEW
              {| ov_url := Some (orElse url (h_href (host w)));
                 ov_title := Some (orElse title (h_title (host w)));
                 ov_referrer := someIfTruthy (h_referrer (host w));
                 ov_payload := None |} w)
  | TrackEvent category action label value extra =>
      Some (buildEvent EventType.CUSTOM
              (payloadOnly
                 (JObj [("category", JStr category); ("action", JStr action);
                        ("label", optJson JStr label); ("value", optJson JNum value);
                        ("extra", optJson (fun j => j) extra)]%string)) w)
  | TrackEcommerce eventName data =>
      Some (buildEvent EventType.ECOMMERCE
              (payloadOnly (JObj [("eventName", JStr eventName); ("data", data)]%string))
              w)
  | TrackGoal goalId revenue data =>
      Some (buildEvent EventType.GOAL
              (payloadOnly
                 (JObj [("goalId", goalId); ("revenue", optJson JNum revenue);
                        ("data", optJson (fun j => j) data)]%string)) w)
  | Listener type payload =>
      if hasConsent (tracker w) then Some (buildEvent type (payloadOnly payload) w)
      else None
  | _ => None
  end.

(** The events a run of operations gets admitted, in order. *)
Fixpoint producedBy (ops : list Op) (w : World) : list TrackerEvent :=
  match ops with
  | [] => []
  | op :: rest =>
      match producedEvent op w with
      | Some ev => admittedOf (tracker w) [ev]
      | None => []
      end ++ producedBy rest (step w op)
  end.

(** The batches of the suspended flushes. *)
Definition inFlight (w : World) : list TrackerEvent :=
  flat_map (fun e => f_batch (snd e)) (flights w).

(** The events of the bodies the endpoint took. *)
Definition deliveredEvents (w : World) : list TrackerEvent :=
  flat_map p_events (deliveredOf (trace w)).

(** Every event the pipeline holds or has delivered. *)
Definition holdings (w : World) : list TrackerEvent :=
  queue (tracker w) ++ inFlight w ++ deliveredEvents w.

(** A suspended flush has an id below the next free one and carries the
    body of its own batch; one that waits for its backoff timer has
    attempts left. *)
Definition flightOk (next : nat) (limit : Z) (e : nat * Flight) : Prop :=
  (fst e < next)%nat
  /\ p_events (f_payload (snd e)) = f_batch (snd e)
  /\ match f_state (snd e) with
     | AwaitingTimer attempt _ => attempt < limit
     | AwaitingFetch _ _ => True
     end.

(** The suspended flushes have distinct ids and are all in order. *)
Definition wellFormed (w : World) : Prop :=
  NoDup (map fst (flights w))
  /\ Forall (flightOk (nextFlight w) (maxAttempts (transport (tracker w))))
       (flights w).

Definition batchesOf (fs : list (nat * Flight)) : list TrackerEvent :=
  flat_map (fun e => f_batch (snd e)) fs.

Fixpoint placeholders (template : string) : nat :=
  match template with
  | EmptyString => 0
  | String c rest =>
      ((if (Ascii.eqb c "x" || Ascii.eqb c "y")%bool then 1 else 0)
       + placeholders rest)%nat
  end.

(** Every body the trace shows going out. *)
Definition bodiesOf (tr : list Effect) : list Payload :=
  flat_map
    (fun e =>
       match e with
       | ESend p _ => [p]
       | EBeacon p _ => [p]
       | EFetch p _ => [p]
       | EFetchSettled p _ => [p]
       | _ => []
       end) tr.

Definition sumZ (l : list Z) : Z := fold_right Z.add 0 l.

(** The events of the [POST] requests whose body can be read, in order of
    arrival. *)
Definition postedEvents (reqs : list HttpRequest) : list TrackerEvent :=
  flat_map
    (fun req =>
       if String.eqb (req_method req) "POST" then
         match req_body req with
         | Some batch => p_events batch
         | None => []
         end
       else []) reqs.

(** A page that receives a run of [mousemove] events. *)
Definition mouseMoves (moves : list (Z * Z)) (pg : Page) : Page :=
  fold_left (fun pg m => onMouseMove (fst m) (snd m) pg) moves pg.

(** A config with its site id blanked: what [setSiteId] cannot change. *)
Definition clearSiteId (c : Config) : Config :=
  mkConfig "" (collectionEndpoint c) (batchSize c) (flushInterval c) (debug c)
    (trackOutlinks c) (trackDownloads c) (scrollDepthPercentages c)
    (maxHeatmapPoints c) (retryBackoffBaseMs c) (retryMaxAttempts c).

(** [flush] with the [JSON.stringify] of its body, which runs after the
    queue is cleared and before the [try]: [stringifies batch] tells whether
    it returns for that batch (it throws on a payload with a cycle or a
    [BigInt]). When it throws, the call of [flush] ends there, the queue
    already empty; when it returns, the call goes on as [flush] does. *)
Definition flushJson (stringifies : list TrackerEvent -> bool) (sync : bool)
    (w : World) : World :=
  let t := tracker w in
  match queue t with
  | [] => w
  | _ :: _ =>
      if negb (truthy (siteId (config t))) then w
      else if stringifies (queue t) then flush sync w
      else setQueue [] w
  end.

(** [enqueue] calling that [flush]. *)
Definition enqueueJson (stringifies : list TrackerEvent -> bool)
    (ev : TrackerEvent) (w : World) : World :=
  let t := tracker w in
  if negb (truthy (siteId (config t))) then w
  else if negb (hasConsent t) && negb (allowWithoutConsent ev) then w
  else
    let w1 := setQueue (queue t ++ [attachSession t ev]) w in
    if Z.of_nat (List.length (queue (tracker w1))) >=? batchSize (config (tracker w1))
    then flushJson stringifies false w1
    else w1.

(** The event loop over them: a producer hands its event to [enqueue], the
    three flush triggers call [flush], everything else is as in [step]. *)
Definition stepJson (stringifies : list TrackerEvent -> bool) (w : World) (op : Op)
  : World :=
  match producedEvent op w with
  | Some ev => enqueueJson stringifies ev w
  | None =>
      match op with
      | FlushNow | AutoFlush => flushJson stringifies false w
      | BeforeUnload => flushJson stringifies true w
      | _ => step w op
      end
  end.

Definition runJson (stringifies : list TrackerEvent -> bool) (ops : list Op)
    (w : World) : World :=
  fold_left (stepJson stringifies) ops w.

(** The thresholds one run of the scroll handler's loop newly reaches at
    depth [pct], in the order of the config. *)
Fixpoint newlyReached (pct : Z) (ps seen : list Z) : list Z :=
  match ps with
  | [] => []
  | p :: rest =>
      if (pct >=? p) && negb (reached p seen)
      then p :: newlyReached pct rest (seen ++ [p])
      else newlyReached pct rest seen
  end.

(** The event the scroll handler's [trackEvent] call queues for threshold
    [p]. *)
Definition scrollEvent (w : World) (p : Z) : TrackerEvent :=
  attachSession (tracker w)
    (buildEvent EventType.CUSTOM
       (payloadOnly
          (JObj [("category", JStr "Scroll"); ("action", JStr "DepthReached");
                 ("label", JStr (percentLabel p)); ("value", JNum p);
                 ("extra", JUndefined)]%string)) w).

(** An event without a session id. *)
Definition noSession (ev : TrackerEvent) : Prop := ev_sessionId ev = None.

(** No session id anywhere: not on the tracker, not on a queued event, not
    in a suspended flush, not in a body that went out. *)
Definition sessionFree (w : World) : Prop :=
  sessionId (tracker w) = ""%string
  /\ Forall noSession (queue (tracker w))
  /\ Forall
       (fun e =>
          Forall noSession (f_batch (snd e))
          /\ Forall noSession (p_events (f_payload (snd e))))
       (flights w)
  /\ Forall (fun p => Forall noSession (p_events p)) (bodiesOf (trace w)).

(** * Properties *)

(** ** Basic facts *)

Lemma flush_empty_queue (sync : bool) (w : World) :
  queue (tracker w) = [] -> flush sync w = w.
Proof.
  intro Hq. unfold flush. rewrite Hq. reflexivity.
Qed.

Lemma flush_no_siteId (sync : bool) (w : World) :
  siteId (config (tracker w)) = ""%string -> flush sync w = w.
Proof.
  intro Hs. unfold flush. rewrite Hs. simpl.
  destruct (queue (tracker w)); reflexivity.
Qed.

Lemma enqueue_no_siteId (ev : TrackerEvent) (w : World) :
  siteId (config (tracker w)) = ""%string -> enqueue ev w = w.
Proof.
  intro Hs. unfold enqueue. rewrite Hs. reflexivity.
Qed.

(** ** Admission *)

(** C6. While [siteId] is unset (the empty string), [enqueue] returns the
    world it was given: the queue, and everything else, is untouched. The
    same holds for every producer of the public API, which all go through
    [enqueue]. *)
Theorem enqueue_siteId_unset_noop (w : World) :
  siteId (config (tracker w)) = ""%string ->
  (forall ev, enqueue ev w = w)
  /\ (forall url title, trackPage url title w = w)
  /\ (forall category action label value extra,
         trackEvent category action label value extra w = w)
  /\ (forall eventName data, trackEcommerce eventName data w = w)
  /\ (forall goalId revenue data, trackGoal goalId revenue data w = w).
Proof.
  intro Hs.
  repeat split; intros;
    unfold trackPage, trackEvent, trackEcommerce, trackGoal;
    apply enqueue_no_siteId; exact Hs.
Qed.

Lemma enqueue_siteId_unset_noop_witness :
  siteId (config (tracker Sample.unconfigured)) = ""%string
  /\ enqueue Sample.click Sample.unconfigured = Sample.unconfigured
  /\ queue (tracker (trackPage (Some "/a"%string) None Sample.unconfigured)) = [].
Proof.
  assert (Hs : siteId (config (tracker Sample.unconfigured)) = ""%string)
    by reflexivity.
  destruct (enqueue_siteId_unset_noop Sample.unconfigured Hs) as (He & Hp & _).
  split; [exact Hs|]. split; [apply He|]. rewrite Hp. reflexivity.
Defined.

(** ** Flush preconditions *)

(** C8. With an empty queue, or with [siteId] unset, [flush] in either mode
    returns the world it was given: no call of the transport enters the
    trace, no flush is left suspended, and queue, config, consent and
    session are what they were. *)
Theorem flush_noop (sync : bool) (w : World) :
  queue (tracker w) = [] \/ siteId (config (tracker w)) = ""%string ->
  flush sync w = w.
Proof.
  intros [Hq | Hs].
  - apply flush_empty_queue; exact Hq.
  - apply flush_no_siteId; exact Hs.
Qed.

Lemma flush_noop_witness :
  flush true Sample.unconfigured = Sample.unconfigured
  /\ flush false Sample.unconfigured = Sample.unconfigured
  /\ sendsOf (trace (flush true Sample.unconfigured)) = [].
Proof.
  assert (H : queue (tracker Sample.unconfigured) = []
              \/ siteId (config (tracker Sample.unconfigured)) = ""%string)
    by (left; reflexivity).
  split; [apply (flush_noop true _ H)|].
  split; [apply (flush_noop false _ H)|].
  rewrite (flush_noop true _ H). reflexivity.
Defined.

(** ** Event builder *)

(** C10. [buildEvent] reads an empty-string [url] or [title] override as
    no override: the built event carries [location.href] and
    [document.title]. [trackPage("", "")] therefore builds and enqueues
    what [trackPage()] does, and the recorded url is empty only when the
    override is empty or absent and the page's own [location.href] is empty. *)
Theorem buildEvent_empty_override_falls_back
    (type : string) (ov : Overrides) (w : World) :
  ev_url (buildEvent type
            (mkOverrides (Some ""%string) (ov_title ov) (ov_referrer ov) (ov_payload ov))
            w) = h_href (host w)
  /\ ev_title (buildEvent type
                 (mkOverrides (ov_url ov) (Some ""%string) (ov_referrer ov)
                    (ov_payload ov)) w) = Some (h_title (host w))
  /\ buildEvent type
       (mkOverrides (Some ""%string) (Some ""%string) (ov_referrer ov) (ov_payload ov)) w
     = buildEvent type (mkOverrides None None (ov_referrer ov) (ov_payload ov)) w
  /\ trackPage (Some ""%string) (Some ""%string) w = trackPage None None w
  /\ truthy (ev_url (buildEvent type ov w))
     = (truthy (orDefault (ov_url ov) ""%string) || truthy (h_href (host w)))
  /\ option_map truthy (ev_title (buildEvent type ov w))
     = Some (truthy (orDefault (ov_title ov) ""%string) || truthy (h_title (host w))).
Proof.
  repeat split; try reflexivity.
  - unfold buildEvent; simpl. destruct (ov_url ov) as [[|c s]|]; reflexivity.
  - unfold buildEvent; simpl. destruct (ov_title ov) as [[|c s]|]; reflexivity.
Qed.

(** ** What the pipeline never touches *)

Lemma flush_settings (sync : bool) (w : World) :
  settings (tracker (flush sync w)) = settings (tracker w).
Proof.
  unfold flush.
  destruct (queue (tracker w)) as [|e q]; [reflexivity|].
  destruct (negb (truthy (siteId (config (tracker w))))); [reflexivity|].
  destruct (send _ _ _ _) as [effs status].
  destruct status; reflexivity.
Qed.

Lemma enqueue_settings (ev : TrackerEvent) (w : World) :
  settings (tracker (enqueue ev w)) = settings (tracker w).
Proof.
  unfold enqueue.
  destruct (negb (truthy (siteId (config (tracker w))))); [reflexivity|].
  destruct (negb (hasConsent (tracker w)) && negb (allowWithoutConsent ev));
    [reflexivity|].
  match goal with |- context [if ?c then _ else _] => destruct c end;
    [rewrite flush_settings|]; reflexivity.
Qed.

Lemma resume_settings (id : nat) (f : Flight) (status : SendStatus) (w : World) :
  settings (tracker (resume id f status w)) = settings (tracker w).
Proof. destruct status; reflexivity. Qed.

Lemma fetchSettled_settings (id : nat) (res : FetchResult) (w : World) :
  settings (tracker (fetchSettled id res w)) = settings (tracker w).
Proof.
  unfold fetchSettled.
  destruct (findFlight id (flights w)) as [f|]; [|reflexivity].
  destruct (f_state f); [|reflexivity].
  destruct (sendFetchSettled _ _ _ _ _ _ _) as [[effs status] pos].
  rewrite resume_settings. reflexivity.
Qed.

Lemma timerFired_settings (id : nat) (w : World) :
  settings (tracker (timerFired id w)) = settings (tracker w).
Proof.
  unfold timerFired.
  destruct (findFlight id (flights w)) as [f|]; [|reflexivity].
  destruct (f_state f); [reflexivity|].
  destruct (sendTimerFired _ _ _ _ _) as [effs status].
  rewrite resume_settings. reflexivity.
Qed.

Lemma createOrRestoreSession_tracker (w : World) :
  tracker (snd (createOrRestoreSession w)) = tracker w.
Proof.
  unfold createOrRestoreSession.
  destruct (storage w) as [|items writable].
  - destruct (uuidv4 _ _); reflexivity.
  - destruct (assocGet sessionKey items) as [[|c rest]|];
      try reflexivity;
      destruct (uuidv4 _ (randPos w)) as [id pos];
      destruct writable; try reflexivity;
      destruct (uuidv4 _ pos); reflexivity.
Qed.

Lemma grantConsent_hasConsent (w : World) :
  hasConsent (tracker (grantConsent w)) = true.
Proof.
  unfold grantConsent.
  destruct (hasConsent (tracker w)) eqn:Hc; [exact Hc|].
  destruct (createOrRestoreSession _) as [id w2] eqn:Hs.
  simpl.
  change w2 with (snd (id, w2)). rewrite <- Hs.
  rewrite createOrRestoreSession_tracker. reflexivity.
Qed.

Lemma grantConsent_granted (w : World) :
  hasConsent (tracker w) = true -> grantConsent w = w.
Proof. intro Hc. unfold grantConsent. rewrite Hc. reflexivity. Qed.

(** With consent granted, no operation changes consent or the session id. *)
Lemma step_consent_session (w : World) (op : Op) :
  hasConsent (tracker w) = true ->
  hasConsent (tracker (step w op)) = true
  /\ sessionId (tracker (step w op)) = sessionId (tracker w).
Proof.
  intro Hc.
  assert (Hkeep : forall w', settings (tracker w') = settings (tracker w) ->
            hasConsent (tracker w') = true
            /\ sessionId (tracker w') = sessionId (tracker w)).
  { intros w' Hs. unfold settings in Hs. injection Hs as _ _ _ Hh Hi.
    rewrite Hh, Hi. split; [exact Hc | reflexivity]. }
  destruct op; simpl.
  - unfold setSiteId. destruct (negb (truthy s)); simpl; split; auto.
  - rewrite grantConsent_granted by exact Hc. split; auto.
  - unfold setCustomDimension. destruct (negb (truthy name));
      [|destruct (String.eqb name "__proto__")]; simpl; split; auto.
  - apply Hkeep, enqueue_settings.
  - apply Hkeep, enqueue_settings.
  - apply Hkeep, enqueue_settings.
  - apply Hkeep, enqueue_settings.
  - apply Hkeep, flush_settings.
  - apply Hkeep, flush_settings.
  - apply Hkeep, flush_settings.
  - rewrite Hc. apply Hkeep, enqueue_settings.
  - apply Hkeep, fetchSettled_settings.
  - apply Hkeep, timerFired_settings.
  - split; auto.
Qed.

Lemma run_consent_session (ops : list Op) (w : World) :
  hasConsent (tracker w) = true ->
  hasConsent (tracker (run ops w)) = true
  /\ sessionId (tracker (run ops w)) = sessionId (tracker w).
Proof.
  revert w. induction ops as [|op ops IH]; intros w Hc; simpl.
  - split; [exact Hc | reflexivity].
  - destruct (step_consent_session w op Hc) as [Hc1 Hs1].
    destruct (IH (step w op) Hc1) as [Hc2 Hs2].
    split; [exact Hc2 | congruence].
Qed.

(** Consent comes from [grantConsent] alone. *)
Lemma step_consent_origin (w : World) (op : Op) :
  hasConsent (tracker w) = false ->
  hasConsent (tracker (step w op)) = true -> op = GrantConsent.
Proof.
  intros Hc H.
  assert (Hkeep : forall w', settings (tracker w') = settings (tracker w) ->
            hasConsent (tracker w') = true -> False).
  { intros w' Hs. unfold settings in Hs. injection Hs as _ _ _ Hh _.
    rewrite Hh, Hc. discriminate. }
  destruct op; simpl in H; try reflexivity; exfalso.
  - unfold setSiteId in H. destruct (negb (truthy s)); simpl in H; congruence.
  - unfold setCustomDimension in H. destruct (negb (truthy name));
      [|destruct (String.eqb name "__proto__")]; simpl in H;
      congruence.
  - eapply Hkeep; [apply enqueue_settings | exact H].
  - eapply Hkeep; [apply enqueue_settings | exact H].
  - eapply Hkeep; [apply enqueue_settings | exact H].
  - eapply Hkeep; [apply enqueue_settings | exact H].
  - eapply Hkeep; [apply flush_settings | exact H].
  - eapply Hkeep; [apply flush_settings | exact H].
  - eapply Hkeep; [apply flush_settings | exact H].
  - rewrite Hc in H. congruence.
  - eapply Hkeep; [apply fetchSettled_settings | exact H].
  - eapply Hkeep; [apply timerFired_settings | exact H].
  - congruence.
Qed.

(** Until [grantConsent] is called, a tracker has no consent. *)
Lemma construct_no_consent (env : string) (c : TrackerConfig) (h : Host)
    (s : SessionStorage) : hasConsent (tracker (construct env c h s)) = false.
Proof.
  unfold construct, trackPage.
  match goal with
  | |- hasConsent (tracker (enqueue ?ev ?w)) = false =>
      pose proof (enqueue_settings ev w) as Hs
  end.
  unfold settings in Hs. injection Hs as _ _ _ Hh _. exact Hh.
Qed.

Lemma run_without_grant (ops : list Op) (w : World) :
  ~ In GrantConsent ops ->
  hasConsent (tracker w) = false ->
  hasConsent (tracker (run ops w)) = false.
Proof.
  revert w. induction ops as [|op ops IH]; intros w Hno Hc; simpl; [exact Hc|].
  apply IH.
  - intro Hin. apply Hno. right. exact Hin.
  - destruct (hasConsent (tracker (step w op))) eqn:E; [|reflexivity].
    exfalso. apply Hno. left.
    exact (step_consent_origin w op Hc E).
Qed.

(** ** Consent *)

Ltac draw_uuid :=
  match goal with
  | |- context [uuidv4 ?rnd ?pos] =>
      let id := fresh "id" in
      let next := fresh "pos" in
      destruct (uuidv4 rnd pos) as [id next]
  end.

Lemma createOrRestoreSession_effects (w : World) :
  exists effs,
    trace (snd (createOrRestoreSession w)) = trace w ++ effs
    /\ (List.length (storageSetsOf effs) <= 1)%nat
    /\ listenersOf effs = [].
Proof.
  unfold createOrRestoreSession.
  destruct (storage w) as [|items writable].
  - draw_uuid. exists []. rewrite app_nil_r. simpl. auto.
  - destruct (assocGet sessionKey items) as [[|c rest]|].
    + draw_uuid. destruct writable.
      * eexists [EStorageSet sessionKey _]. simpl. auto.
      * draw_uuid. exists []. rewrite app_nil_r. simpl. auto.
    + exists []. rewrite app_nil_r. simpl. auto.
    + draw_uuid. destruct writable.
      * eexists [EStorageSet sessionKey _]. simpl. auto.
      * draw_uuid. exists []. rewrite app_nil_r. simpl. auto.
Qed.

Lemma storageSetsOf_app (a b : list Effect) :
  storageSetsOf (a ++ b) = storageSetsOf a ++ storageSetsOf b.
Proof. apply flat_map_app. Qed.

Lemma listenersOf_app (a b : list Effect) :
  listenersOf (a ++ b) = listenersOf a ++ listenersOf b.
Proof. apply flat_map_app. Qed.

Lemma grantConsent_effects (w : World) :
  exists effs,
    trace (grantConsent w) = trace w ++ effs
    /\ (List.length (storageSetsOf effs) <= 1)%nat
    /\ (List.length (listenersOf effs) <= 1)%nat.
Proof.
  unfold grantConsent.
  destruct (hasConsent (tracker w)).
  { exists []. rewrite app_nil_r. simpl. auto. }
  match goal with
  | |- context [createOrRestoreSession ?w1] =>
      destruct (createOrRestoreSession_effects w1) as (effs & Ht & Hs & Hl);
      destruct (createOrRestoreSession w1) as [id w2]
  end.
  simpl in Ht. exists (effs ++ [EConsentListeners]).
  cbn [emit trace setTracker]. rewrite Ht, app_assoc.
  split; [reflexivity|].
  rewrite storageSetsOf_app, listenersOf_app, Hl, length_app. simpl.
  split; [lia | auto].
Qed.

Lemma uuidFill_truthy (c : ascii) (rest : string) (rnd : nat -> Unit01) (pos : nat) :
  truthy (fst (uuidFill (String c rest) rnd pos)) = true.
Proof.
  simpl.
  destruct (Ascii.eqb c "x"); [destruct (uuidFill rest rnd (S pos)); reflexivity|].
  destruct (Ascii.eqb c "y"); [destruct (uuidFill rest rnd (S pos)); reflexivity|].
  destruct (uuidFill rest rnd pos); reflexivity.
Qed.

Lemma uuidv4_truthy (rnd : nat -> Unit01) (pos : nat) :
  truthy (fst (uuidv4 rnd pos)) = true.
Proof. apply uuidFill_truthy. Qed.

Lemma createOrRestoreSession_truthy (w : World) :
  truthy (fst (createOrRestoreSession w)) = true.
Proof.
  unfold createOrRestoreSession.
  destruct (storage w) as [|items writable].
  - pose proof (uuidv4_truthy (h_random (host w)) (randPos w)) as Hu.
    destruct (uuidv4 _ _). exact Hu.
  - destruct (assocGet sessionKey items) as [[|c rest]|]; [|reflexivity|];
      pose proof (uuidv4_truthy (h_random (host w)) (randPos w)) as Hu;
      destruct (uuidv4 (h_random (host w)) (randPos w)) as [id pos];
      (destruct writable; [exact Hu|]);
      pose proof (uuidv4_truthy (h_random (host w)) pos) as Hu2;
      destruct (uuidv4 (h_random (host w)) pos); exact Hu2.
Qed.

Lemma grantConsent_session (w : World) :
  hasConsent (tracker w) = false ->
  truthy (sessionId (tracker (grantConsent w))) = true.
Proof.
  intro Hc. unfold grantConsent. rewrite Hc.
  match goal with
  | |- context [createOrRestoreSession ?w1] =>
      pose proof (createOrRestoreSession_truthy w1) as Ht;
      destruct (createOrRestoreSession w1) as [id w2]
  end.
  exact Ht.
Qed.

(** C7. [grantConsent] is idempotent from any state: a second call (or any
    number of further calls) returns the world of the first, so the session
    id, the session store and the trace are those of the first call. Two
    calls together write the session store at most once and attach the
    consent listeners at most once, and the first call from an ungranted
    state leaves a non-empty session id. Consent is monotonic: after
    [grantConsent], every run of operations leaves consent granted and the
    session id unchanged. *)
Theorem grantConsent_idempotent_monotonic (w : World) :
  grantConsent (grantConsent w) = grantConsent w
  /\ (forall n, Nat.iter (S n) grantConsent w = grantConsent w)
  /\ (exists effs,
         trace (grantConsent (grantConsent w)) = trace w ++ effs
         /\ (List.length (storageSetsOf effs) <= 1)%nat
         /\ (List.length (listenersOf effs) <= 1)%nat)
  /\ (hasConsent (tracker w) = false ->
      truthy (sessionId (tracker (grantConsent (grantConsent w)))) = true)
  /\ (forall ops,
         hasConsent (tracker (run ops (grantConsent w))) = true
         /\ sessionId (tracker (run ops (grantConsent w)))
            = sessionId (tracker (grantConsent w))).
Proof.
  assert (Hidem : grantConsent (grantConsent w) = grantConsent w)
    by (apply grantConsent_granted, grantConsent_hasConsent).
  split; [exact Hidem|]. split; [|split; [|split]].
  - induction n as [|n IH]; [reflexivity|].
    change (Nat.iter (S (S n)) grantConsent w)
      with (grantConsent (Nat.iter (S n) grantConsent w)).
    rewrite IH. exact Hidem.
  - rewrite Hidem. apply grantConsent_effects.
  - rewrite Hidem. apply grantConsent_session.
  - intro ops. apply run_consent_session, grantConsent_hasConsent.
Qed.

Lemma grantConsent_idempotent_monotonic_witness :
  hasConsent (tracker (Sample.fresh 15 4)) = false
  /\ grantConsent (grantConsent (Sample.fresh 15 4)) = grantConsent (Sample.fresh 15 4)
  /\ truthy (sessionId (tracker (grantConsent (grantConsent (Sample.fresh 15 4)))))
     = true
  /\ hasConsent
       (tracker (run [TrackPage None None; FlushNow; BeforeUnload]
                   (grantConsent (Sample.fresh 15 4)))) = true.
Proof.
  destruct (grantConsent_idempotent_monotonic (Sample.fresh 15 4))
    as (Hidem & _ & _ & Hsession & Hrun).
  split; [reflexivity|]. split; [exact Hidem|].
  split; [apply Hsession; reflexivity|].
  apply (Hrun [TrackPage None None; FlushNow; BeforeUnload]).
Defined.

(** ** The transport is the one the constructor built *)

Lemma wired_settings (t t' : Tracker) :
  settings t' = settings t -> wired t -> wired t'.
Proof.
  unfold settings, wired. intros Hs Hw. injection Hs as Hc Ht _ _ _.
  rewrite Hc, Ht. exact Hw.
Qed.

Lemma construct_wired (env : string) (c : TrackerConfig) (h : Host)
    (s : SessionStorage) : wired (tracker (construct env c h s)).
Proof.
  unfold construct, trackPage.
  eapply wired_settings; [apply enqueue_settings|]. reflexivity.
Qed.

Lemma step_wired (w : World) (op : Op) :
  wired (tracker w) -> wired (tracker (step w op)).
Proof.
  intro Hw.
  destruct op; simpl;
    try (eapply wired_settings; [|exact Hw];
         first [apply enqueue_settings | apply flush_settings
               | apply fetchSettled_settings | apply timerFired_settings]);
    try exact Hw.
  - unfold setSiteId. destruct (negb (truthy s)); [exact Hw|]. exact Hw.
  - unfold grantConsent. destruct (hasConsent (tracker w)); [exact Hw|].
    match goal with
    | |- context [createOrRestoreSession ?w1] =>
        pose proof (createOrRestoreSession_tracker w1) as Ht;
        destruct (createOrRestoreSession w1) as [id w2]
    end.
    simpl in Ht. unfold wired. simpl. rewrite Ht. simpl. exact Hw.
  - unfold setCustomDimension. destruct (negb (truthy name));
      [|destruct (String.eqb name "__proto__")]; exact Hw.
  - destruct (hasConsent (tracker w)); [|exact Hw].
    eapply wired_settings; [apply enqueue_settings | exact Hw].
Qed.

Lemma run_wired (ops : list Op) (w : World) :
  wired (tracker w) -> wired (tracker (run ops w)).
Proof.
  revert w. induction ops as [|op ops IH]; intros w Hw; simpl; [exact Hw|].
  apply IH, step_wired, Hw.
Qed.

(** ** Traces *)

Lemma fetchesOf_app (a b : list Effect) :
  fetchesOf (a ++ b) = fetchesOf a ++ fetchesOf b.
Proof. apply flat_map_app. Qed.

Lemma waitsOf_app (a b : list Effect) : waitsOf (a ++ b) = waitsOf a ++ waitsOf b.
Proof. apply flat_map_app. Qed.

Lemma sendsOf_app (a b : list Effect) : sendsOf (a ++ b) = sendsOf a ++ sendsOf b.
Proof. apply flat_map_app. Qed.

Lemma deliveredOf_app (a b : list Effect) :
  deliveredOf (a ++ b) = deliveredOf a ++ deliveredOf b.
Proof. apply flat_map_app. Qed.

Lemma tryBeacon_async (h : Host) (p : Payload) : tryBeacon h p false = ([], false).
Proof. reflexivity. Qed.

Lemma tryBeacon_quiet (h : Host) (p : Payload) (sync : bool) :
  fetchesOf (fst (tryBeacon h p sync)) = []
  /\ waitsOf (fst (tryBeacon h p sync)) = []
  /\ sendsOf (fst (tryBeacon h p sync)) = [].
Proof.
  unfold tryBeacon. destruct sync; [destruct (h_beacon h)|]; simpl; auto.
Qed.

(** ** Unfolding [flush] past its guards *)

Lemma flush_eq (sync : bool) (w : World) :
  queue (tracker w) <> [] ->
  siteId (config (tracker w)) <> ""%string ->
  flush sync w
  = let r := send (transport (tracker w)) (host w) (bodyOf w) sync in
    match snd r with
    | Suspended st =>
        setFlights
          (putFlight (nextFlight w)
             (mkFlight (queue (tracker w)) (bodyOf w) sync st) (flights w))
          (snapshot (fst r) w)
    | status => flushTail (queue (tracker w)) status (snapshot (fst r) w)
    end.
Proof.
  intros Hq Hs. unfold flush, bodyOf.
  destruct (queue (tracker w)) as [|e q] eqn:Eq; [congruence|].
  destruct (siteId (config (tracker w))) as [|c s] eqn:Es; [congruence|].
  simpl negb. cbv iota.
  destruct (send _ _ _ _) as [effs status]. simpl.
  destruct status; reflexivity.
Qed.

(** ** A retry budget of zero *)

Lemma send_no_attempts (t : Transport) (h : Host) (p : Payload) (sync : bool) :
  maxAttempts t <= 0 ->
  send t h p sync = (ESend p sync :: fst (tryBeacon h p sync), Resolved).
Proof.
  intro Hm. unfold send, sendLoop.
  destruct (tryBeacon h p sync) as [tried ok]. simpl.
  destruct ok; [reflexivity|].
  replace (0 <? maxAttempts t) with false by (symmetry; apply Z.ltb_ge; lia).
  rewrite app_nil_r. reflexivity.
Qed.

(** C9, as amended. With [retryMaxAttempts <= 0] the retry loop of [send]
    is never entered: [send] issues no [fetch], sets no backoff timer and
    resolves. [flush] then takes the resolved call for a delivery: the
    queue is empty, no flush is left suspended and nothing is put back. On
    the asynchronous path, and at teardown when [sendBeacon] is missing,
    the only thing in the trace is the call of [send] itself, so the batch
    is dropped without any network attempt and nothing is delivered. At
    teardown with [sendBeacon] available, [send] still calls it once before
    the empty loop: a beacon the host accepts delivers the batch, one it
    refuses or that throws leaves the batch dropped. *)
Theorem nonpositive_maxAttempts_drops_batch (sync : bool) (w : World) :
  wired (tracker w) ->
  retryMaxAttempts (config (tracker w)) <= 0 ->
  queue (tracker w) <> [] ->
  siteId (config (tracker w)) <> ""%string ->
  snd (send (transport (tracker w)) (host w) (bodyOf w) sync) = Resolved
  /\ queue (tracker (flush sync w)) = []
  /\ flights (flush sync w) = flights w
  /\ sendsOf (trace (flush sync w)) = sendsOf (trace w) ++ [(bodyOf w, sync)]
  /\ fetchesOf (trace (flush sync w)) = fetchesOf (trace w)
  /\ waitsOf (trace (flush sync w)) = waitsOf (trace w)
  /\ trace (flush false w) = trace w ++ [ESend (bodyOf w) false]
  /\ deliveredOf (trace (flush false w)) = deliveredOf (trace w)
  /\ trace (flush sync w)
     = trace w ++ ESend (bodyOf w) sync :: fst (tryBeacon (host w) (bodyOf w) sync)
  /\ deliveredOf (trace (flush sync w))
     = deliveredOf (trace w)
         ++ (if snd (tryBeacon (host w) (bodyOf w) sync) then [bodyOf w] else [])
  /\ (h_beacon (host w) = BeaconMissing ->
      trace (flush true w) = trace w ++ [ESend (bodyOf w) true]
      /\ deliveredOf (trace (flush true w)) = deliveredOf (trace w))
  /\ (h_beacon (host w) = BeaconReturns true ->
      trace (flush true w)
      = trace w ++ [ESend (bodyOf w) true; EBeacon (bodyOf w) (Some true)]
      /\ deliveredOf (trace (flush true w)) = deliveredOf (trace w) ++ [bodyOf w]).
Proof.
  intros Hw Hm Hq Hs.
  assert (Hmax : maxAttempts (transport (tracker w)) <= 0)
    by (rewrite Hw; exact Hm).
  assert (Hflush : forall mode,
            flush mode w
            = snapshot (ESend (bodyOf w) mode
                          :: fst (tryBeacon (host w) (bodyOf w) mode)) w).
  { intro mode. rewrite (flush_eq mode w Hq Hs).
    rewrite (send_no_attempts _ _ _ mode Hmax). reflexivity. }
  destruct (tryBeacon_quiet (host w) (bodyOf w) sync) as (Hf & Ht & Hd).
  split; [rewrite (send_no_attempts _ _ _ sync Hmax); reflexivity|].
  rewrite !Hflush. unfold snapshot; cbn [tracker setQueue setTracker queue flights
                                           trace].
  split; [reflexivity|]. split; [reflexivity|].
  split; [rewrite sendsOf_app; simpl; rewrite Hd; reflexivity|].
  split; [rewrite fetchesOf_app; simpl; rewrite Hf; apply app_nil_r|].
  split; [rewrite waitsOf_app; simpl; rewrite Ht; apply app_nil_r|].
  split; [reflexivity|].
  split; [rewrite deliveredOf_app; simpl; apply app_nil_r|].
  split; [reflexivity|].
  split.
  - rewrite deliveredOf_app. f_equal. unfold tryBeacon.
    destruct sync; [|reflexivity].
    destruct (h_beacon (host w)) as [|[|]|]; reflexivity.
  - split; intro Hb; unfold tryBeacon; rewrite Hb; cbn [fst];
      (split; [reflexivity|]); rewrite deliveredOf_app; simpl;
      rewrite ?app_nil_r; reflexivity.
Qed.

Lemma nonpositive_maxAttempts_drops_batch_witness :
  queue (tracker (Sample.fresh 15 0)) = [Sample.view (h_href Sample.page)]
  /\ queue (tracker (flush false (Sample.fresh 15 0))) = []
  /\ flights (flush false (Sample.fresh 15 0)) = []
  /\ fetchesOf (trace (flush false (Sample.fresh 15 0))) = [].
Proof.
  assert (Hw : wired (tracker (Sample.fresh 15 0))) by reflexivity.
  assert (Hm : retryMaxAttempts (config (tracker (Sample.fresh 15 0))) <= 0)
    by (simpl; lia).
  assert (Hq : queue (tracker (Sample.fresh 15 0)) <> [])
    by (vm_compute; discriminate).
  assert (Hs : siteId (config (tracker (Sample.fresh 15 0))) <> ""%string)
    by (vm_compute; discriminate).
  destruct (nonpositive_maxAttempts_drops_batch false _ Hw Hm Hq Hs)
    as (_ & Hqueue & Hflights & _ & Hfetch & _).
  split; [reflexivity|]. split; [exact Hqueue|].
  split; [rewrite Hflights; reflexivity|].
  rewrite Hfetch. reflexivity.
Defined.

(** C9 as stated fails at page teardown: with no attempts allowed and a
    [sendBeacon] that accepts, [send] does make one delivery attempt, the
    beacon, and the batch is delivered instead of lost. *)
Lemma zero_attempts_beacon_counterexample :
  retryMaxAttempts (config (tracker (Sample.teardown 15 0))) = 0
  /\ beaconsOf (trace (run [BeforeUnload] (Sample.teardown 15 0)))
     = [(bodyOf (Sample.teardown 15 0), Some true)]
  /\ deliveredOf (trace (run [BeforeUnload] (Sample.teardown 15 0)))
     = [bodyOf (Sample.teardown 15 0)]
  /\ p_events (bodyOf (Sample.teardown 15 0))
     = queue (tracker (Sample.teardown 15 0))
  /\ queue (tracker (Sample.teardown 15 0)) <> [].
Proof.
  split; [reflexivity|]. split; [reflexivity|]. split; [reflexivity|].
  split; [reflexivity|]. vm_compute. discriminate.
Qed.

(** ** Suspended flushes *)

Lemma findFlight_putFlight (id : nat) (f : Flight) (fs : list (nat * Flight)) :
  findFlight id (putFlight id f fs) = Some f.
Proof.
  induction fs as [|[id' f'] fs IH]; simpl.
  - rewrite Nat.eqb_refl. reflexivity.
  - destruct (Nat.eqb id id') eqn:E; simpl.
    + rewrite Nat.eqb_refl. reflexivity.
    + rewrite E. exact IH.
Qed.

Lemma findFlight_dropFlight (id : nat) (fs : list (nat * Flight)) :
  findFlight id (dropFlight id fs) = None.
Proof.
  induction fs as [|[k g] fs IH]; simpl; [reflexivity|].
  destruct (Nat.eqb id k) eqn:E; simpl; [exact IH|].
  rewrite E. exact IH.
Qed.

(** ** The first attempt *)

Lemma send_first_attempt (t : Transport) (h : Host) (p : Payload) (sync : bool) :
  1 <= maxAttempts t ->
  snd (tryBeacon h p sync) = false ->
  send t h p sync
  = (ESend p sync :: fst (tryBeacon h p sync) ++ [EFetch p sync],
     Suspended (AwaitingFetch 1 (backoffBaseMs t))).
Proof.
  intros Hm Hb. unfold send, sendLoop.
  destruct (tryBeacon h p sync) as [tried ok]. simpl in Hb. subst ok.
  replace (0 <? maxAttempts t) with true by (symmetry; apply Z.ltb_lt; lia).
  reflexivity.
Qed.

(** [flush] when the first [fetch] goes out: the queue is snapshotted and
    cleared, and the call waits under the next free id. *)
Lemma flush_first_attempt (sync : bool) (w : World) :
  queue (tracker w) <> [] ->
  siteId (config (tracker w)) <> ""%string ->
  1 <= maxAttempts (transport (tracker w)) ->
  snd (tryBeacon (host w) (bodyOf w) sync) = false ->
  flush sync w
  = setFlights
      (putFlight (nextFlight w)
         (mkFlight (queue (tracker w)) (bodyOf w) sync
            (AwaitingFetch 1 (backoffBaseMs (transport (tracker w)))))
         (flights w))
      (snapshot
         (ESend (bodyOf w) sync
            :: fst (tryBeacon (host w) (bodyOf w) sync) ++ [EFetch (bodyOf w) sync])
         w).
Proof.
  intros Hq Hs Hm Hb.
  rewrite (flush_eq sync w Hq Hs), (send_first_attempt _ _ _ _ Hm Hb).
  reflexivity.
Qed.

(** ** Admission by [enqueue] *)

Lemma enqueue_admitted (ev : TrackerEvent) (w : World) :
  admits (tracker w) ev = true ->
  enqueue ev w
  = let w1 := setQueue (queue (tracker w) ++ [attachSession (tracker w) ev]) w in
    if Z.of_nat (List.length (queue (tracker w) ++ [attachSession (tracker w) ev]))
       >=? batchSize (config (tracker w))
    then flush false w1 else w1.
Proof.
  unfold admits, enqueue. intro Ha.
  apply andb_true_iff in Ha. destruct Ha as [Hs Hc].
  rewrite Hs. simpl negb. cbv iota.
  destruct (hasConsent (tracker w)); simpl in Hc |- *.
  - reflexivity.
  - rewrite Hc. reflexivity.
Qed.

Lemma enqueue_rejected (ev : TrackerEvent) (w : World) :
  admits (tracker w) ev = false -> enqueue ev w = w.
Proof.
  unfold admits, enqueue. intro Ha.
  destruct (truthy (siteId (config (tracker w)))); [|reflexivity].
  simpl in Ha |- *.
  destruct (hasConsent (tracker w)); simpl in Ha |- *; [discriminate|].
  rewrite Ha. reflexivity.
Qed.

Lemma app_one_not_nil {A} (l : list A) (a : A) : l ++ [a] <> [].
Proof. destruct l; discriminate. Qed.

(** [send] cannot fail before its first [await]: the first thing that can
    throw past the loop is a settled [fetch]. *)
Lemma send_not_rejected (t : Transport) (h : Host) (p : Payload) (sync : bool)
    (err : Error) : snd (send t h p sync) <> Rejected err.
Proof.
  unfold send, sendLoop.
  destruct (tryBeacon h p sync) as [tried ok].
  destruct ok; [discriminate|].
  destruct (0 <? maxAttempts t); discriminate.
Qed.

Lemma flush_clears_queue (sync : bool) (w : World) :
  queue (tracker (flush sync w)) = []
  \/ (flush sync w = w /\ siteId (config (tracker w)) = ""%string).
Proof.
  destruct (queue (tracker w)) as [|e q] eqn:Eq.
  { left. rewrite flush_empty_queue; assumption. }
  destruct (siteId (config (tracker w))) as [|c s] eqn:Es.
  { right. split; [apply flush_no_siteId; exact Es | reflexivity]. }
  left. rewrite flush_eq; [|congruence|congruence].
  cbv zeta.
  destruct (snd (send _ _ _ sync)) eqn:E; try reflexivity.
  exfalso. exact (send_not_rejected _ _ _ _ _ E).
Qed.

(** [flushNow] after an admitted [enqueue] is one flush of the old queue
    with the new event at its tail, whether or not [enqueue] already
    flushed on reaching [batchSize]. *)
Lemma flushNow_enqueue (ev : TrackerEvent) (w : World) :
  admits (tracker w) ev = true ->
  flushNow (enqueue ev w)
  = flush false (setQueue (queue (tracker w) ++ [attachSession (tracker w) ev]) w).
Proof.
  intro Ha. rewrite (enqueue_admitted ev w Ha). cbv zeta. unfold flushNow.
  destruct (_ >=? _); [|reflexivity].
  apply flush_empty_queue.
  apply andb_true_iff in Ha. destruct Ha as [Hs _].
  match goal with
  | |- queue (tracker (flush false ?w1)) = [] =>
      destruct (flush_clears_queue false w1) as [H | [_ H]]; [exact H|]
  end.
  simpl in H. rewrite H in Hs. discriminate.
Qed.

(** ** Resuming a suspended flush *)

Section Resume.

Variables (id : nat) (f : Flight) (attempt delay : Z) (w : World).
Hypothesis Hfound : findFlight id (flights w) = Some f.

Lemma fetchSettled_delivered (res : FetchResult) :
  f_state f = AwaitingFetch attempt delay ->
  resOk res = true ->
  fetchSettled id res w
  = setFlights (dropFlight id (flights w)) (emit [EFetchSettled (f_payload f) res] w).
Proof.
  intros Hst Hok. unfold fetchSettled, sendFetchSettled.
  rewrite Hfound, Hst, Hok. reflexivity.
Qed.

Lemma fetchSettled_exhausted (res : FetchResult) :
  f_state f = AwaitingFetch attempt delay ->
  resOk res = false ->
  maxAttempts (transport (tracker w)) <= attempt ->
  fetchSettled id res w
  = setQueue (f_batch f ++ queue (tracker w))
      (setFlights (dropFlight id (flights w))
         (emit [EFetchSettled (f_payload f) res] w)).
Proof.
  intros Hst Hok Hmax. unfold fetchSettled, sendFetchSettled.
  rewrite Hfound, Hst, Hok.
  replace (attempt >=? maxAttempts (transport (tracker w))) with true
    by (symmetry; apply Z.geb_le; lia).
  reflexivity.
Qed.

Lemma fetchSettled_backoff (res : FetchResult) :
  f_state f = AwaitingFetch attempt delay ->
  resOk res = false ->
  attempt < maxAttempts (transport (tracker w)) ->
  fetchSettled id res w
  = setFlights
      (putFlight id
         (mkFlight (f_batch f) (f_payload f) (f_sync f) (AwaitingTimer attempt delay))
         (flights w))
      (setRandPos (S (randPos w))
         (emit [EFetchSettled (f_payload f) res;
                ETimeout (delay + jitter (h_random (host w) (randPos w)) delay)]
            w)).
Proof.
  intros Hst Hok Hmax. unfold fetchSettled, sendFetchSettled.
  rewrite Hfound, Hst, Hok.
  replace (attempt >=? maxAttempts (transport (tracker w))) with false
    by (symmetry; rewrite Z.geb_leb; apply Z.leb_gt; lia).
  reflexivity.
Qed.

Lemma timerFired_retry :
  f_state f = AwaitingTimer attempt delay ->
  attempt < maxAttempts (transport (tracker w)) ->
  timerFired id w
  = setFlights
      (putFlight id
         (mkFlight (f_batch f) (f_payload f) (f_sync f)
            (AwaitingFetch (attempt + 1) (delay * 2)))
         (flights w))
      (emit [EFetch (f_payload f) (f_sync f)] w).
Proof.
  intros Hst Hmax. unfold timerFired, sendTimerFired, sendLoop.
  rewrite Hfound, Hst.
  replace (attempt <? maxAttempts (transport (tracker w))) with true
    by (symmetry; apply Z.ltb_lt; lia).
  reflexivity.
Qed.

End Resume.

(** ** Consent gating *)

(** C1. An event whose kind is not consent-exempt, enqueued while consent
    has not been granted, leaves the whole world as it was: the queue is
    unchanged, nothing reaches the transport, so the event is in no
    delivered batch. That is the case in every world a new tracker reaches
    without a call of [grantConsent]. With consent granted and [siteId] set, [enqueue] puts
    the event (with the session id filled in) at the tail of the queue; it
    either stays there or, when that reaches [batchSize], goes at once to
    the transport as the last event of the flushed batch. With at least one
    attempt allowed, a flush and a 2xx response deliver a batch that ends with
    that event. *)
Theorem consent_gates_enqueue (ev : TrackerEvent) (w : World) :
  allowWithoutConsent ev = false ->
  (hasConsent (tracker w) = false -> enqueue ev w = w)
  /\ (forall env c h s ops,
         ~ In GrantConsent ops ->
         enqueue ev (run ops (construct env c h s)) = run ops (construct env c h s))
  /\ (hasConsent (tracker w) = true ->
      siteId (config (tracker w)) <> ""%string ->
      let admitted := queue (tracker w) ++ [attachSession (tracker w) ev] in
      let body := mkPayload (siteId (config (tracker w))) (h_clock (host w)) admitted in
      ((queue (tracker (enqueue ev w)) = admitted
        /\ trace (enqueue ev w) = trace w)
       \/ (queue (tracker (enqueue ev w)) = []
           /\ sendsOf (trace (enqueue ev w)) = sendsOf (trace w) ++ [(body, false)]))
      /\ (1 <= maxAttempts (transport (tracker w)) ->
          forall res, resOk res = true ->
            deliveredOf
              (trace (fetchSettled (nextFlight w) res (flushNow (enqueue ev w))))
            = deliveredOf (trace w) ++ [body])).
Proof.
  intro Hkind.
  assert (Hdrop : forall w', hasConsent (tracker w') = false -> enqueue ev w' = w').
  { intros w' Hc. apply enqueue_rejected. unfold admits.
    rewrite Hc, Hkind. apply andb_false_r. }
  split; [apply Hdrop|]. split.
  - intros env c h s ops Hno. apply Hdrop.
    apply run_without_grant; [exact Hno | apply construct_no_consent].
  - intros Hc Hs admitted body.
    assert (Hst : truthy (siteId (config (tracker w))) = true).
    { destruct (siteId (config (tracker w))); [congruence | reflexivity]. }
    assert (Ha : admits (tracker w) ev = true).
    { unfold admits. rewrite Hst, Hc. reflexivity. }
    set (w1 := setQueue admitted w).
    assert (Hq1 : queue (tracker w1) <> []) by apply app_one_not_nil.
    assert (Hs1 : siteId (config (tracker w1)) <> ""%string) by exact Hs.
    split.
    + rewrite (enqueue_admitted ev w Ha). cbv zeta. fold admitted. fold w1.
      destruct (_ >=? _).
      * right. rewrite (flush_eq false w1 Hq1 Hs1). cbv zeta.
        unfold send. rewrite tryBeacon_async. unfold sendLoop.
        change (bodyOf w1) with body.
        destruct (0 <? maxAttempts (transport (tracker w1))); simpl;
          rewrite sendsOf_app; simpl; auto.
      * left. split; reflexivity.
    + intros Hm res Hok.
      rewrite (flushNow_enqueue ev w Ha). fold admitted. fold w1.
      rewrite (flush_first_attempt false w1 Hq1 Hs1 Hm (eq_refl _)).
      erewrite fetchSettled_delivered;
        [| simpl; apply findFlight_putFlight | reflexivity | exact Hok].
      simpl. change (bodyOf w1) with body.
      rewrite !deliveredOf_app. simpl. rewrite Hok.
      rewrite !app_nil_r. reflexivity.
Qed.

Lemma consent_gates_enqueue_witness :
  enqueue Sample.click (Sample.fresh 15 4) = Sample.fresh 15 4
  /\ map ev_type (queue (tracker (enqueue Sample.click (grantConsent (Sample.fresh 15 4)))))
     = ["page_view"; "event"]%string
  /\ map (fun p => map ev_type (p_events p))
       (deliveredOf
          (trace (fetchSettled 0 (Response 200)
                    (flushNow (enqueue Sample.click (grantConsent (Sample.fresh 15 4)))))))
     = [["page_view"; "event"]%string].
Proof.
  destruct (consent_gates_enqueue Sample.click (Sample.fresh 15 4) eq_refl)
    as [Hbefore _].
  destruct (consent_gates_enqueue Sample.click (grantConsent (Sample.fresh 15 4))
              eq_refl) as (_ & _ & Hafter).
  split; [apply Hbefore; reflexivity|].
  assert (Hs : siteId (config (tracker (grantConsent (Sample.fresh 15 4))))
               <> ""%string) by (vm_compute; discriminate).
  destruct (Hafter eq_refl Hs) as [_ Hdelivered].
  split; [reflexivity|].
  change 0%nat with (nextFlight (grantConsent (Sample.fresh 15 4))).
  rewrite (Hdelivered ltac:(simpl; lia) (Response 200) eq_refl).
  reflexivity.
Defined.

(** ** Threshold-triggered flush *)

Lemma setQueue_same (w : World) : setQueue (queue (tracker w)) w = w.
Proof. destruct w as [[c t q d h s] ? ? ? ? ? ?]. reflexivity. Qed.

Lemma enqueue_below (ev : TrackerEvent) (w : World) :
  admits (tracker w) ev = true ->
  Z.of_nat (List.length (queue (tracker w))) + 1 < batchSize (config (tracker w)) ->
  enqueue ev w = setQueue (queue (tracker w) ++ [attachSession (tracker w) ev]) w.
Proof.
  intros Ha Hlen. rewrite (enqueue_admitted ev w Ha). cbv zeta.
  rewrite length_app. simpl List.length.
  replace (_ >=? _) with false; [reflexivity|].
  symmetry. rewrite Z.geb_leb. apply Z.leb_gt. lia.
Qed.

Lemma enqueueAll_below (evs : list TrackerEvent) (w : World) :
  Forall (fun ev => admits (tracker w) ev = true) evs ->
  Z.of_nat (List.length (queue (tracker w))) + Z.of_nat (List.length evs)
    < batchSize (config (tracker w)) ->
  enqueueAll evs w
  = setQueue (queue (tracker w) ++ map (attachSession (tracker w)) evs) w.
Proof.
  revert w. induction evs as [|ev evs IH]; intros w Hall Hlen.
  - simpl. rewrite app_nil_r. symmetry. apply setQueue_same.
  - inversion Hall as [|? ? Ha Hrest]; subst.
    simpl List.length in Hlen.
    unfold enqueueAll. simpl fold_left. fold (enqueueAll evs (enqueue ev w)).
    rewrite (enqueue_below ev w Ha) by lia.
    rewrite IH.
    + simpl. rewrite <- app_assoc. reflexivity.
    + exact Hrest.
    + simpl. rewrite length_app. simpl List.length. lia.
Qed.

Lemma send_sendsOf (t : Transport) (h : Host) (p : Payload) (sync : bool) :
  sendsOf (fst (send t h p sync)) = [(p, sync)].
Proof.
  unfold send, sendLoop.
  destruct (tryBeacon_quiet h p sync) as (_ & _ & Hd).
  destruct (tryBeacon h p sync) as [tried ok]. simpl in Hd.
  destruct ok; simpl; [rewrite Hd; reflexivity|].
  destruct (0 <? maxAttempts t); simpl; rewrite sendsOf_app, Hd; reflexivity.
Qed.

Lemma flush_nextFlight (sync : bool) (w : World) :
  queue (tracker w) <> [] ->
  siteId (config (tracker w)) <> ""%string ->
  nextFlight (flush sync w) = S (nextFlight w).
Proof.
  intros Hq Hs. rewrite (flush_eq sync w Hq Hs). cbv zeta.
  destruct (snd _); reflexivity.
Qed.

Lemma flush_trace (sync : bool) (w : World) :
  queue (tracker w) <> [] ->
  siteId (config (tracker w)) <> ""%string ->
  trace (flush sync w)
  = trace w ++ fst (send (transport (tracker w)) (host w) (bodyOf w) sync).
Proof.
  intros Hq Hs. rewrite (flush_eq sync w Hq Hs). cbv zeta.
  destruct (snd _); reflexivity.
Qed.

(** C3. Starting from an empty queue with [batchSize = B > 0], [B] admitted
    calls of [enqueue] start exactly one flush: one call of [send] enters
    the trace, in asynchronous mode, and its body holds the [B] events in
    enqueue order (each with the session id filled in). Right after that
    snapshot the queue is empty, and, with at least one attempt allowed,
    the flush is still suspended on its first [fetch] with nothing
    delivered yet. *)
Theorem batchSize_enqueues_flush_once (evs : list TrackerEvent) (w : World) :
  queue (tracker w) = [] ->
  0 < batchSize (config (tracker w)) ->
  Z.of_nat (List.length evs) = batchSize (config (tracker w)) ->
  Forall (fun ev => admits (tracker w) ev = true) evs ->
  let batch := map (attachSession (tracker w)) evs in
  let body := mkPayload (siteId (config (tracker w))) (h_clock (host w)) batch in
  let w' := enqueueAll evs w in
  queue (tracker w') = []
  /\ sendsOf (trace w') = sendsOf (trace w) ++ [(body, false)]
  /\ nextFlight w' = S (nextFlight w)
  /\ (1 <= maxAttempts (transport (tracker w)) ->
      findFlight (nextFlight w) (flights w')
      = Some (mkFlight batch body false
                (AwaitingFetch 1 (backoffBaseMs (transport (tracker w)))))
      /\ deliveredOf (trace w') = deliveredOf (trace w)).
Proof.
  intros Hq Hpos Hlen Hall batch body w'.
  destruct (exists_last (l := evs)) as (pre & last & Hevs).
  { intro E. subst evs. simpl in Hlen. lia. }
  assert (Hpre : Forall (fun ev => admits (tracker w) ev = true) pre
                 /\ admits (tracker w) last = true).
  { rewrite Hevs in Hall. apply Forall_app in Hall. destruct Hall as [Hp Hl].
    split; [exact Hp|]. inversion Hl; assumption. }
  destruct Hpre as [Hpre Hlast].
  assert (Hcount : Z.of_nat (List.length pre) + 1 = batchSize (config (tracker w))).
  { rewrite <- Hlen, Hevs, length_app. simpl List.length. lia. }
  assert (Hsite : siteId (config (tracker w)) <> ""%string).
  { intro E. unfold admits in Hlast. rewrite E in Hlast. discriminate. }
  set (w1 := setQueue batch w).
  assert (Hw' : w' = flush false w1).
  { unfold w', enqueueAll. rewrite Hevs, fold_left_app. simpl fold_left.
    fold (enqueueAll pre w).
    rewrite (enqueueAll_below pre w Hpre) by (rewrite Hq; simpl; lia).
    rewrite Hq. simpl app.
    rewrite enqueue_admitted by exact Hlast. cbv zeta.
    simpl queue. simpl config.
    replace (_ >=? _) with true.
    - unfold w1, batch. rewrite Hevs, map_app. reflexivity.
    - symmetry. apply Z.geb_le. rewrite length_app, length_map.
      simpl List.length. lia. }
  assert (Hq1 : queue (tracker w1) <> []).
  { unfold w1, batch. rewrite Hevs, map_app. simpl. apply app_one_not_nil. }
  assert (Hs1 : siteId (config (tracker w1)) <> ""%string) by exact Hsite.
  rewrite Hw'. split; [|split; [|split]].
  - destruct (flush_clears_queue false w1) as [H | [_ H]]; [exact H|].
    contradiction.
  - rewrite (flush_trace false w1 Hq1 Hs1), sendsOf_app, send_sendsOf.
    reflexivity.
  - apply (flush_nextFlight false w1 Hq1 Hs1).
  - intro Hm.
    rewrite (flush_first_attempt false w1 Hq1 Hs1 Hm (eq_refl _)).
    split.
    + simpl. apply findFlight_putFlight.
    + simpl. rewrite deliveredOf_app. simpl. apply app_nil_r.
Qed.

Lemma batchSize_enqueues_flush_once_witness :
  queue (tracker (enqueueAll [Sample.view "/a"; Sample.view "/b"]
                    (setQueue [] (Sample.fresh 2 4)))) = []
  /\ map (fun '(p, sync) => (map ev_url (p_events p), sync))
       (sendsOf (trace (enqueueAll [Sample.view "/a"; Sample.view "/b"]
                          (setQueue [] (Sample.fresh 2 4)))))
     = [(["/a"; "/b"]%string, false)]
  /\ List.length (flights (enqueueAll [Sample.view "/a"; Sample.view "/b"]
                        (setQueue [] (Sample.fresh 2 4)))) = 1%nat.
Proof.
  destruct (batchSize_enqueues_flush_once
              [Sample.view "/a"; Sample.view "/b"] (setQueue [] (Sample.fresh 2 4))
              eq_refl ltac:(simpl; lia) eq_refl
              ltac:(repeat constructor))
    as (Hq & Hsends & _ & _).
  split; [exact Hq|]. split; [rewrite Hsends; reflexivity|]. reflexivity.
Defined.

(** ** Retry and backoff *)

Lemma jitter_bounds (r : Unit01) (delay : Z) :
  unit01_ok r -> 0 <= delay -> 0 <= jitter r delay <= delay.
Proof.
  unfold unit01_ok, jitter. intros [Hn Hd] Hdelay.
  split.
  - apply Z.div_pos; nia.
  - apply Z.lt_succ_r. apply Z.div_lt_upper_bound; nia.
Qed.

Section Retry.

Variables (t : Transport) (h : Host) (p : Payload) (sync : bool).

Lemma drive_step_ok (pos : nat) (a d : Z) (res : FetchResult)
    (rest : list FetchResult) :
  resOk res = true ->
  drive t h pos p sync (res :: rest) (Suspended (AwaitingFetch a d))
  = ([EFetchSettled p res], Resolved).
Proof.
  intro Hok. cbn [drive]. unfold sendFetchSettled. rewrite Hok. reflexivity.
Qed.

Lemma drive_step_last (pos : nat) (a d : Z) (res : FetchResult)
    (rest : list FetchResult) :
  resOk res = false ->
  maxAttempts t <= a ->
  drive t h pos p sync (res :: rest) (Suspended (AwaitingFetch a d))
  = ([EFetchSettled p res], Rejected (errorOf res)).
Proof.
  intros Hok Hmax. cbn [drive]. unfold sendFetchSettled. rewrite Hok.
  replace (a >=? maxAttempts t) with true by (symmetry; apply Z.geb_le; lia).
  reflexivity.
Qed.

Lemma drive_step_fail (pos : nat) (a d : Z) (res : FetchResult)
    (rest : list FetchResult) :
  resOk res = false ->
  a < maxAttempts t ->
  drive t h pos p sync (res :: rest) (Suspended (AwaitingFetch a d))
  = (EFetchSettled p res
       :: ETimeout (d + jitter (h_random h pos) d)
       :: EFetch p sync
       :: fst (drive t h (S pos) p sync rest
                 (Suspended (AwaitingFetch (a + 1) (d * 2)))),
     snd (drive t h (S pos) p sync rest
            (Suspended (AwaitingFetch (a + 1) (d * 2))))).
Proof.
  intros Hok Hmax. cbn [drive]. unfold sendFetchSettled. rewrite Hok.
  replace (a >=? maxAttempts t) with false
    by (symmetry; rewrite Z.geb_leb; apply Z.leb_gt; lia).
  unfold sendTimerFired, sendLoop.
  replace (a <? maxAttempts t) with true by (symmetry; apply Z.ltb_lt; lia).
  destruct (drive t h (S pos) p sync rest _) as [e s]. reflexivity.
Qed.

(** A prefix of failures within the budget: the loop leaves [retryTrace]
    and waits for the next [fetch] with the attempt counter and the delay
    advanced once per failure. *)
Lemma drive_failures (fails rest : list FetchResult) :
  Forall (fun r => resOk r = false) fails ->
  forall (pos : nat) (a d : Z),
    a + Z.of_nat (List.length fails) <= maxAttempts t ->
    drive t h pos p sync (fails ++ rest) (Suspended (AwaitingFetch a d))
    = (retryTrace h p sync pos d fails
         ++ fst (drive t h (pos + List.length fails) p sync rest
                   (Suspended
                      (AwaitingFetch (a + Z.of_nat (List.length fails))
                         (d * 2 ^ Z.of_nat (List.length fails))))),
       snd (drive t h (pos + List.length fails) p sync rest
              (Suspended
                 (AwaitingFetch (a + Z.of_nat (List.length fails))
                    (d * 2 ^ Z.of_nat (List.length fails)))))).
Proof.
  induction 1 as [|res fails Hres Hfails IH]; intros pos a d Hlen.
  - simpl. rewrite Nat.add_0_r, Z.add_0_r, Z.mul_1_r.
    destruct (drive _ _ _ _ _ _ _); reflexivity.
  - simpl List.length in *. simpl app.
    rewrite drive_step_fail by (try exact Hres; lia).
    rewrite IH by lia. simpl.
    replace (pos + S (List.length fails))%nat with (S pos + List.length fails)%nat
      by lia.
    replace (a + 1 + Z.of_nat (List.length fails))
      with (a + Z.of_nat (S (List.length fails))) by lia.
    replace (d * 2 * 2 ^ Z.of_nat (List.length fails))
      with (d * 2 ^ Z.of_nat (S (List.length fails))).
    + reflexivity.
    + rewrite Nat2Z.inj_succ, Z.pow_succ_r by lia. ring.
Qed.

Lemma retryTrace_waits (fails : list FetchResult) (pos : nat) (d : Z) :
  waitsOf (retryTrace h p sync pos d fails)
  = backoffWaits h pos d (List.length fails).
Proof.
  revert pos d. induction fails as [|res fails IH]; intros pos d; simpl;
    [reflexivity|]. rewrite (IH (S pos) (d * 2)). reflexivity.
Qed.

Lemma retryTrace_fetches (fails : list FetchResult) (pos : nat) (d : Z) :
  fetchesOf (retryTrace h p sync pos d fails)
  = repeat (p, sync) (List.length fails).
Proof.
  revert pos d. induction fails as [|res fails IH]; intros pos d; simpl;
    [reflexivity|]. rewrite (IH (S pos) (d * 2)). reflexivity.
Qed.

Lemma retryTrace_delivered (fails : list FetchResult) (pos : nat) (d : Z) :
  Forall (fun r => resOk r = false) fails ->
  deliveredOf (retryTrace h p sync pos d fails) = [].
Proof.
  intro Hall. revert pos d.
  induction Hall as [|res fails Hres _ IH]; intros pos d; simpl;
    [reflexivity|]. rewrite Hres. simpl. apply IH.
Qed.

Lemma backoffWaits_length (pos : nat) (d : Z) (n : nat) :
  List.length (backoffWaits h pos d n) = n.
Proof.
  revert pos d. induction n as [|n IH]; intros pos d; simpl;
    [reflexivity|]. rewrite IH. reflexivity.
Qed.

Lemma backoffWaits_nth (n : nat) :
  forall (pos : nat) (d : Z) (i : nat),
    (i < n)%nat ->
    nth_error (backoffWaits h pos d n) i
    = Some (d * 2 ^ Z.of_nat i
            + jitter (h_random h (pos + i)) (d * 2 ^ Z.of_nat i)).
Proof.
  induction n as [|n IH]; intros pos d i Hi; [lia|].
  destruct i as [|i]; simpl backoffWaits; simpl nth_error.
  - rewrite Nat.add_0_r. simpl Z.of_nat. rewrite Z.pow_0_r, Z.mul_1_r.
    reflexivity.
  - rewrite IH by lia.
    replace (S pos + i)%nat with (pos + S i)%nat by lia.
    replace (d * 2 * 2 ^ Z.of_nat i) with (d * 2 ^ Z.of_nat (S i)).
    + reflexivity.
    + rewrite Nat2Z.inj_succ, Z.pow_succ_r by lia. ring.
Qed.

Hypothesis Hrandom : forall i, unit01_ok (h_random h i).

Lemma backoffWaits_sorted (n : nat) :
  forall (pos : nat) (d : Z), 0 <= d -> Sorted Z.le (backoffWaits h pos d n).
Proof.
  induction n as [|n IH]; intros pos d Hd; simpl; [constructor|].
  constructor; [apply IH; lia|].
  destruct n as [|n]; simpl; constructor.
  pose proof (jitter_bounds (h_random h pos) d (Hrandom pos) Hd).
  pose proof (jitter_bounds (h_random h (S pos)) (d * 2) (Hrandom (S pos))
                ltac:(lia)).
  lia.
Qed.

(** However the fetches settle, the loop issues no more of them than the
    attempts that are left. *)
Lemma drive_fetch_bound (replies : list FetchResult) :
  forall (pos : nat) (a d : Z),
    Z.of_nat (List.length
                (fetchesOf (fst (drive t h pos p sync replies
                                   (Suspended (AwaitingFetch a d))))))
    <= Z.max 0 (maxAttempts t - a).
Proof.
  induction replies as [|res rest IH]; intros pos a d.
  - simpl. lia.
  - destruct (resOk res) eqn:Hok.
    + rewrite drive_step_ok by exact Hok. simpl. lia.
    + destruct (Z_lt_le_dec a (maxAttempts t)) as [Hlt | Hge].
      * rewrite drive_step_fail by assumption. simpl.
        specialize (IH (S pos) (a + 1) (d * 2)). lia.
      * rewrite drive_step_last by assumption. simpl. lia.
Qed.

(** Once as many fetches have settled as there were attempts left,
    [send] has settled too. *)
Lemma drive_settles (replies : list FetchResult) :
  forall (pos : nat) (a d : Z) (st : SendState),
    (1 <= List.length replies)%nat ->
    maxAttempts t - a < Z.of_nat (List.length replies) ->
    snd (drive t h pos p sync replies (Suspended (AwaitingFetch a d)))
    <> Suspended st.
Proof.
  induction replies as [|res rest IH]; intros pos a d st Hone Hlen.
  - simpl in Hone. lia.
  - simpl List.length in Hlen.
    destruct (resOk res) eqn:Hok.
    + rewrite drive_step_ok by exact Hok. discriminate.
    + destruct (Z_lt_le_dec a (maxAttempts t)) as [Hlt | Hge].
      * rewrite drive_step_fail by assumption. simpl.
        apply IH; lia.
      * rewrite drive_step_last by assumption. discriminate.
Qed.

End Retry.

Lemma runSend_eq (t : Transport) (h : Host) (pos : nat) (p : Payload) (sync : bool)
    (replies : list FetchResult) :
  runSend t h pos p sync replies
  = (fst (send t h p sync)
       ++ fst (drive t h pos p sync replies (snd (send t h p sync))),
     snd (drive t h pos p sync replies (snd (send t h p sync)))).
Proof.
  unfold runSend. destruct (send t h p sync) as [e0 s0]. simpl.
  destruct (drive t h pos p sync replies s0). reflexivity.
Qed.

Lemma drive_settled (t : Transport) (h : Host) (pos : nat) (p : Payload)
    (sync : bool) (replies : list FetchResult) (s : SendStatus) :
  (forall st, s <> Suspended st) -> drive t h pos p sync replies s = ([], s).
Proof.
  intro Hs. destruct s as [| err | st].
  - destruct replies; reflexivity.
  - destruct replies; reflexivity.
  - exfalso. exact (Hs st eq_refl).
Qed.

Lemma tryBeacon_refused (h : Host) (p : Payload) (sync : bool) :
  snd (tryBeacon h p sync) = false -> deliveredOf (fst (tryBeacon h p sync)) = [].
Proof.
  unfold tryBeacon. destruct sync; [|reflexivity].
  destruct (h_beacon h) as [|[|]|]; simpl; intro H; try reflexivity; discriminate.
Qed.

Lemma fetchesOf_send (p : Payload) (sync : bool) (tr : list Effect) :
  fetchesOf (ESend p sync :: tr) = fetchesOf tr.
Proof. reflexivity. Qed.

(** C4. [send] issues at most [retryMaxAttempts] fetches for a batch, and
    once that many have settled it has settled too. When the first [k]
    attempts fail and attempt [k+1] succeeds ([k < retryMaxAttempts], no
    beacon taking the payload first), [send] resolves; its trace is the
    entry, the first [fetch] with no wait before it, then per failure one
    wait and one more [fetch] of the same body; the body is delivered
    exactly once; there are [k] waits, the one after failed attempt [n]
    being [backoffBaseMs * 2^(n-1)] plus a jitter between [0] and that
    delay, and they are non-decreasing. When all [retryMaxAttempts]
    attempts fail, [send] rejects with the error of the last attempt.
    (How the jitter is distributed is outside this model: a draw is any
    fraction in [0,1).) *)
Theorem send_retry_backoff (t : Transport) (h : Host) (pos : nat) (p : Payload)
    (sync : bool) :
  (forall replies,
      Z.of_nat (List.length (fetchesOf (fst (runSend t h pos p sync replies))))
      <= Z.max 0 (maxAttempts t)
      /\ (maxAttempts t <= Z.of_nat (List.length replies) ->
          forall st, snd (runSend t h pos p sync replies) <> Suspended st))
  /\ (forall fails ok rest,
         snd (tryBeacon h p sync) = false ->
         Forall (fun r => resOk r = false) fails ->
         resOk ok = true ->
         Z.of_nat (List.length fails) < maxAttempts t ->
         0 <= backoffBaseMs t ->
         (forall i, unit01_ok (h_random h i)) ->
         let out := runSend t h pos p sync (fails ++ ok :: rest) in
         snd out = Resolved
         /\ fst out
            = ESend p sync :: fst (tryBeacon h p sync)
                ++ EFetch p sync
                :: retryTrace h p sync pos (backoffBaseMs t) fails
                ++ [EFetchSettled p ok]
         /\ deliveredOf (fst out) = [p]
         /\ fetchesOf (fst out) = repeat (p, sync) (S (List.length fails))
         /\ List.length (waitsOf (fst out)) = List.length fails
         /\ (forall n, (n < List.length fails)%nat ->
               exists j,
                 nth_error (waitsOf (fst out)) n
                 = Some (backoffBaseMs t * 2 ^ Z.of_nat n + j)
                 /\ 0 <= j <= backoffBaseMs t * 2 ^ Z.of_nat n)
         /\ Sorted Z.le (waitsOf (fst out)))
  /\ (forall fails last rest,
         snd (tryBeacon h p sync) = false ->
         Forall (fun r => resOk r = false) (fails ++ [last]) ->
         Z.of_nat (List.length (fails ++ [last])) = maxAttempts t ->
         let out := runSend t h pos p sync (fails ++ last :: rest) in
         snd out = Rejected (errorOf last)
         /\ Z.of_nat (List.length (fetchesOf (fst out))) = maxAttempts t
         /\ deliveredOf (fst out) = []).
Proof.
  split; [|split].
  - intro replies. rewrite runSend_eq. cbn [fst snd].
    destruct (tryBeacon_quiet h p sync) as (Hf & _ & _).
    unfold send, sendLoop.
    destruct (tryBeacon h p sync) as [tried ok]. cbn [fst] in Hf.
    destruct ok.
    { cbn [fst snd]. rewrite drive_settled by discriminate. cbn [fst snd].
      rewrite app_nil_r, fetchesOf_send, Hf.
      split; [simpl; lia | discriminate]. }
    destruct (0 <? maxAttempts t) eqn:Hm; cbn [fst snd].
    + apply Z.ltb_lt in Hm.
      split.
      * pose proof (drive_fetch_bound t h p sync replies pos 1 (backoffBaseMs t)).
        rewrite fetchesOf_app, fetchesOf_send, fetchesOf_app, Hf.
        rewrite length_app. simpl. lia.
      * intros Hlen st. apply drive_settles; lia.
    + apply Z.ltb_ge in Hm.
      rewrite drive_settled by discriminate. cbn [fst snd].
      rewrite !app_nil_r, fetchesOf_send, Hf.
      split; [simpl; lia | discriminate].
  - intros fails ok rest Hb Hfails Hok Hk Hbase Hrandom out.
    assert (Hout : out
              = (ESend p sync :: fst (tryBeacon h p sync)
                   ++ EFetch p sync
                   :: retryTrace h p sync pos (backoffBaseMs t) fails
                   ++ [EFetchSettled p ok],
                 Resolved)).
    { unfold out. rewrite runSend_eq.
      rewrite (send_first_attempt t h p sync) by (try exact Hb; lia).
      simpl fst. simpl snd.
      rewrite (drive_failures t h p sync fails (ok :: rest) Hfails) by lia.
      rewrite drive_step_ok by exact Hok. simpl fst. simpl snd.
      f_equal. simpl. rewrite <- app_assoc. reflexivity. }
    rewrite Hout. simpl fst. simpl snd.
    destruct (tryBeacon_quiet h p sync) as (Hf & Hw & _).
    assert (Hwaits : waitsOf
                       (ESend p sync :: fst (tryBeacon h p sync)
                          ++ EFetch p sync
                          :: retryTrace h p sync pos (backoffBaseMs t) fails
                          ++ [EFetchSettled p ok])
                     = backoffWaits h pos (backoffBaseMs t) (List.length fails)).
    { change (ESend p sync :: ?l) with ([ESend p sync] ++ l).
      change (EFetch p sync :: ?l) with ([EFetch p sync] ++ l).
      rewrite !waitsOf_app, Hw, retryTrace_waits. simpl. apply app_nil_r. }
    split; [reflexivity|]. split; [reflexivity|]. split; [|split; [|split; [|split]]].
    + change (ESend p sync :: ?l) with ([ESend p sync] ++ l).
      change (EFetch p sync :: ?l) with ([EFetch p sync] ++ l).
      rewrite !deliveredOf_app, (tryBeacon_refused h p sync Hb),
        (retryTrace_delivered h p sync fails pos _ Hfails).
      simpl. rewrite Hok. reflexivity.
    + change (ESend p sync :: ?l) with ([ESend p sync] ++ l).
      change (EFetch p sync :: ?l) with ([EFetch p sync] ++ l).
      rewrite !fetchesOf_app, Hf, retryTrace_fetches. simpl.
      rewrite app_nil_r. reflexivity.
    + rewrite Hwaits. apply backoffWaits_length.
    + intros n Hn. rewrite Hwaits, (backoffWaits_nth h _ pos _ n Hn).
      eexists. split; [reflexivity|].
      apply jitter_bounds; [apply Hrandom|].
      apply Z.mul_nonneg_nonneg; [exact Hbase|]. apply Z.pow_nonneg. lia.
    + rewrite Hwaits. apply backoffWaits_sorted; assumption.
  - intros fails last rest Hb Hall Hlen out.
    apply Forall_app in Hall. destruct Hall as [Hfails Hlast].
    inversion Hlast as [|? ? Hl _]; subst.
    rewrite length_app in Hlen. simpl List.length in Hlen.
    assert (Hout : out
              = (ESend p sync :: fst (tryBeacon h p sync)
                   ++ EFetch p sync
                   :: retryTrace h p sync pos (backoffBaseMs t) fails
                   ++ [EFetchSettled p last],
                 Rejected (errorOf last))).
    { unfold out. rewrite runSend_eq.
      rewrite (send_first_attempt t h p sync) by (try exact Hb; lia).
      simpl fst. simpl snd.
      rewrite (drive_failures t h p sync fails (last :: rest) Hfails) by lia.
      rewrite drive_step_last by (try exact Hl; lia). simpl fst. simpl snd.
      f_equal. simpl. rewrite <- app_assoc. reflexivity. }
    rewrite Hout. simpl fst. simpl snd.
    destruct (tryBeacon_quiet h p sync) as (Hf & _ & _).
    split; [reflexivity|]. split.
    + change (ESend p sync :: ?l) with ([ESend p sync] ++ l).
      change (EFetch p sync :: ?l) with ([EFetch p sync] ++ l).
      rewrite !fetchesOf_app, Hf, retryTrace_fetches. simpl.
      rewrite app_nil_r, repeat_length. lia.
    + change (ESend p sync :: ?l) with ([ESend p sync] ++ l).
      change (EFetch p sync :: ?l) with ([EFetch p sync] ++ l).
      rewrite !deliveredOf_app, (tryBeacon_refused h p sync Hb),
        (retryTrace_delivered h p sync fails pos _ Hfails).
      simpl. rewrite Hl. reflexivity.
Qed.

Lemma send_retry_backoff_witness :
  snd (runSend (mkTransport "https://collect.example/api" false 500 4) Sample.page 0
         (mkPayload "site-1" 1000 [Sample.click]) false
         [Response 500; NetworkFailure "offline"; Response 200])
  = Resolved
  /\ waitsOf
       (fst (runSend (mkTransport "https://collect.example/api" false 500 4)
               Sample.page 0 (mkPayload "site-1" 1000 [Sample.click]) false
               [Response 500; NetworkFailure "offline"; Response 200]))
     = [750; 1500]
  /\ Sorted Z.le
       (waitsOf
          (fst (runSend (mkTransport "https://collect.example/api" false 500 4)
                  Sample.page 0 (mkPayload "site-1" 1000 [Sample.click]) false
                  [Response 500; NetworkFailure "offline"; Response 200]))).
Proof.
  destruct (send_retry_backoff
              (mkTransport "https://collect.example/api" false 500 4) Sample.page 0
              (mkPayload "site-1" 1000 [Sample.click]) false)
    as (_ & Hretry & _).
  destruct (Hretry [Response 500; NetworkFailure "offline"] (Response 200) []
              eq_refl
              ltac:(repeat constructor)
              eq_refl
              ltac:(simpl; lia)
              ltac:(simpl; lia)
              ltac:(intro i; unfold unit01_ok; simpl; lia))
    as (Hres & _ & _ & _ & _ & _ & Hsorted).
  split; [exact Hres|]. split; [reflexivity | exact Hsorted].
Defined.

(** ** A flush that fails while events keep arriving *)

Lemma admits_settings (t t' : Tracker) (ev : TrackerEvent) :
  settings t' = settings t -> admits t' ev = admits t ev.
Proof.
  unfold settings, admits. intro H. injection H as Hc _ _ Hh _.
  rewrite Hc, Hh. reflexivity.
Qed.

Lemma attachSession_settings (t t' : Tracker) (ev : TrackerEvent) :
  settings t' = settings t -> attachSession t' ev = attachSession t ev.
Proof.
  unfold settings, attachSession. intro H. injection H as _ _ _ _ Hi.
  rewrite Hi. reflexivity.
Qed.

Lemma admittedOf_settings (t t' : Tracker) (evs : list TrackerEvent) :
  settings t' = settings t -> admittedOf t' evs = admittedOf t evs.
Proof.
  intro H. unfold admittedOf.
  induction evs as [|ev evs IH]; simpl; [reflexivity|].
  rewrite (admits_settings t t' ev H).
  destruct (admits t ev); simpl; [rewrite (attachSession_settings t t' ev H)|];
    rewrite IH; reflexivity.
Qed.

Lemma admittedOf_app (t : Tracker) (a b : list TrackerEvent) :
  admittedOf t (a ++ b) = admittedOf t a ++ admittedOf t b.
Proof. unfold admittedOf. rewrite filter_app, map_app. reflexivity. Qed.

(** Calls of [enqueue] that stay under [batchSize] only grow the queue. *)
Lemma enqueueAll_quiet (evs : list TrackerEvent) (w : World) :
  Z.of_nat (List.length (queue (tracker w)))
    + Z.of_nat (List.length (admittedOf (tracker w) evs))
    < batchSize (config (tracker w)) ->
  enqueueAll evs w = setQueue (queue (tracker w) ++ admittedOf (tracker w) evs) w.
Proof.
  revert w. induction evs as [|ev evs IH]; intros w Hlen.
  - simpl. rewrite app_nil_r. symmetry. apply setQueue_same.
  - unfold enqueueAll. simpl fold_left. fold (enqueueAll evs (enqueue ev w)).
    unfold admittedOf in Hlen |- *. simpl filter in Hlen |- *.
    destruct (admits (tracker w) ev) eqn:Ha.
    + simpl map in Hlen |- *. simpl List.length in Hlen.
      rewrite (enqueue_below ev w Ha) by lia.
      rewrite IH.
      * simpl. rewrite <- app_assoc. reflexivity.
      * simpl. rewrite length_app. simpl List.length.
        fold (admittedOf (tracker w) evs) in Hlen.
        change (admittedOf _ evs) with (admittedOf (tracker w) evs). lia.
    + rewrite (enqueue_rejected ev w Ha). apply IH. exact Hlen.
Qed.

Lemma settings_config (t t' : Tracker) :
  settings t' = settings t -> config t' = config t /\ transport t' = transport t.
Proof. unfold settings. intro H. injection H as Hc Ht _ _ _. auto. Qed.

Section FailedFlush.

Variables (id : nat) (batch : list TrackerEvent) (body : Payload) (sync : bool).
Variable w0 : World.

Lemma enqueueAll_suspended (st : SendState) (q evs : list TrackerEvent)
    (w : World) :
  suspendedAt id batch body sync st q w0 w ->
  Z.of_nat (List.length q) + Z.of_nat (List.length (admittedOf (tracker w0) evs))
    < batchSize (config (tracker w0)) ->
  suspendedAt id batch body sync st (q ++ admittedOf (tracker w0) evs) w0 (enqueueAll evs w).
Proof.
  intros (Hf & Hq & Hs) Hlen.
  destruct (settings_config _ _ Hs) as [Hc _].
  rewrite enqueueAll_quiet;
    rewrite (admittedOf_settings _ _ evs Hs), Hq; [|rewrite Hc; exact Hlen].
  repeat split; [exact Hf | exact Hs].
Qed.

Lemma fetchSettled_suspended (a d : Z) (q : list TrackerEvent)
    (res : FetchResult) (w : World) :
  suspendedAt id batch body sync (AwaitingFetch a d) q w0 w ->
  resOk res = false ->
  a < maxAttempts (transport (tracker w0)) ->
  suspendedAt id batch body sync (AwaitingTimer a d) q w0 (fetchSettled id res w).
Proof.
  intros (Hf & Hq & Hs) Hres Ha.
  destruct (settings_config _ _ Hs) as [_ Ht].
  rewrite (fetchSettled_backoff id _ a d w Hf res eq_refl Hres)
    by (rewrite Ht; exact Ha).
  repeat split; simpl; [apply findFlight_putFlight | exact Hq | exact Hs].
Qed.

Lemma timerFired_suspended (a d : Z) (q : list TrackerEvent) (w : World) :
  suspendedAt id batch body sync (AwaitingTimer a d) q w0 w ->
  a < maxAttempts (transport (tracker w0)) ->
  suspendedAt id batch body sync (AwaitingFetch (a + 1) (d * 2)) q w0
    (timerFired id w).
Proof.
  intros (Hf & Hq & Hs) Ha.
  destruct (settings_config _ _ Hs) as [_ Ht].
  rewrite (timerFired_retry id _ a d w Hf eq_refl) by (rewrite Ht; exact Ha).
  repeat split; simpl; [apply findFlight_putFlight | exact Hq | exact Hs].
Qed.

Lemma failedAttempt_suspended (a d : Z) (q : list TrackerEvent) (r : Round)
    (w : World) :
  suspendedAt id batch body sync (AwaitingFetch a d) q w0 w ->
  resOk (r_result r) = false ->
  a < maxAttempts (transport (tracker w0)) ->
  Z.of_nat (List.length q)
    + Z.of_nat (List.length (admittedOf (tracker w0) (r_before r ++ r_after r)))
    < batchSize (config (tracker w0)) ->
  suspendedAt id batch body sync (AwaitingFetch (a + 1) (d * 2))
    (q ++ admittedOf (tracker w0) (r_before r ++ r_after r)) w0 (failedAttempt id w r).
Proof.
  intros Hw Hres Ha Hlen.
  rewrite admittedOf_app in Hlen |- *. rewrite length_app in Hlen.
  rewrite app_assoc. unfold failedAttempt.
  apply timerFired_suspended; [|exact Ha].
  apply enqueueAll_suspended; [|rewrite length_app; lia].
  apply fetchSettled_suspended; [|exact Hres | exact Ha].
  apply enqueueAll_suspended; [exact Hw | lia].
Qed.

Lemma failedAttempts_suspended (rounds : list Round) :
  Forall (fun r => resOk (r_result r) = false) rounds ->
  forall (a d : Z) (q : list TrackerEvent) (w : World),
    suspendedAt id batch body sync (AwaitingFetch a d) q w0 w ->
    a + Z.of_nat (List.length rounds) <= maxAttempts (transport (tracker w0)) ->
    Z.of_nat (List.length q)
      + Z.of_nat (List.length (admittedOf (tracker w0) (arrived rounds)))
      < batchSize (config (tracker w0)) ->
    suspendedAt id batch body sync
      (AwaitingFetch (a + Z.of_nat (List.length rounds))
         (d * 2 ^ Z.of_nat (List.length rounds)))
      (q ++ admittedOf (tracker w0) (arrived rounds)) w0
      (fold_left (failedAttempt id) rounds w).
Proof.
  induction 1 as [|r rounds Hr _ IH]; intros a d q w Hw Ha Hlen.
  - simpl. unfold admittedOf. simpl.
    rewrite app_nil_r, Z.add_0_r, Z.mul_1_r. exact Hw.
  - cbn [List.length] in Ha |- *. simpl fold_left.
    unfold arrived in Hlen |- *. simpl flat_map in Hlen |- *.
    fold (arrived rounds) in Hlen |- *.
    rewrite admittedOf_app in Hlen |- *. rewrite length_app in Hlen.
    replace (a + Z.of_nat (S (List.length rounds)))
      with (a + 1 + Z.of_nat (List.length rounds)) by lia.
    replace (d * 2 ^ Z.of_nat (S (List.length rounds)))
      with (d * 2 * 2 ^ Z.of_nat (List.length rounds))
      by (rewrite Nat2Z.inj_succ, Z.pow_succ_r by lia; ring).
    rewrite app_assoc.
    apply IH; [| lia | rewrite length_app; lia].
    apply failedAttempt_suspended; [exact Hw | exact Hr | lia | lia].
Qed.

(** The attempt that exhausts the budget: [this.queue.unshift(...batch)]. *)
Lemma lastAttempt_requeues (a d : Z) (q evs : list TrackerEvent)
    (res : FetchResult) (w : World) :
  suspendedAt id batch body sync (AwaitingFetch a d) q w0 w ->
  resOk res = false ->
  maxAttempts (transport (tracker w0)) <= a ->
  Z.of_nat (List.length q) + Z.of_nat (List.length (admittedOf (tracker w0) evs))
    < batchSize (config (tracker w0)) ->
  queue (tracker (lastAttempt id evs res w)) = batch ++ q ++ admittedOf (tracker w0) evs
  /\ findFlight id (flights (lastAttempt id evs res w)) = None.
Proof.
  intros Hw Hres Ha Hlen.
  destruct (enqueueAll_suspended _ q evs w Hw Hlen) as (Hf & Hq & Hs).
  destruct (settings_config _ _ Hs) as [_ Ht].
  unfold lastAttempt.
  rewrite (fetchSettled_exhausted id _ a d _ Hf res eq_refl Hres)
    by (rewrite Ht; exact Ha).
  simpl. rewrite Hq. split; [reflexivity | apply findFlight_dropFlight].
Qed.

End FailedFlush.

(** A flush whose every attempt fails, with only calls of [enqueue] in
    between and the queue staying under [batchSize]: the batch is back at
    the front, followed by what was admitted meanwhile, in order. *)
Lemma failedFlush_requeues (sync : bool) (w : World) (rounds : list Round)
    (evs : list TrackerEvent) (last : FetchResult) :
  queue (tracker w) <> [] ->
  siteId (config (tracker w)) <> ""%string ->
  snd (tryBeacon (host w) (bodyOf w) sync) = false ->
  Z.of_nat (List.length rounds) + 1 = maxAttempts (transport (tracker w)) ->
  Forall (fun r => resOk (r_result r) = false) rounds ->
  resOk last = false ->
  Z.of_nat (List.length (admittedOf (tracker w) (arrived rounds ++ evs)))
    < batchSize (config (tracker w)) ->
  let w' :=
    lastAttempt (nextFlight w) evs last
      (fold_left (failedAttempt (nextFlight w)) rounds (flush sync w)) in
  queue (tracker w')
  = queue (tracker w) ++ admittedOf (tracker w) (arrived rounds ++ evs)
  /\ findFlight (nextFlight w) (flights w') = None.
Proof.
  intros Hq Hs Hb Hmax Hfails Hlast Hlen w'.
  rewrite admittedOf_app in Hlen |- *. rewrite length_app in Hlen.
  assert (Hstart :
            suspendedAt (nextFlight w) (queue (tracker w)) (bodyOf w) sync
              (AwaitingFetch 1 (backoffBaseMs (transport (tracker w)))) [] w
              (flush sync w)).
  { rewrite (flush_first_attempt sync w Hq Hs) by (try exact Hb; lia).
    repeat split. simpl. apply findFlight_putFlight. }
  pose proof (failedAttempts_suspended (nextFlight w) (queue (tracker w))
                (bodyOf w) sync w rounds Hfails 1 _ [] (flush sync w) Hstart
                ltac:(lia) ltac:(simpl; lia)) as Hrounds.
  destruct (lastAttempt_requeues (nextFlight w) (queue (tracker w)) (bodyOf w)
              sync w _ _ _ evs last _ Hrounds Hlast ltac:(lia)
              ltac:(simpl; lia))
    as [Hqueue Hgone].
  split; [exact Hqueue | exact Hgone].
Qed.

(** ** Failure re-queue *)

(** C2, as amended. When the fetch of the last allowed attempt of a
    suspended flush fails, [flush] puts its whole batch in front of the
    queue as the queue then stands, and the flush is over: the batch is
    never lost on a failed delivery. When, from the snapshot to that
    failure, nothing but calls of [enqueue] happens and the queue stays
    under [batchSize] (so no other flush takes a snapshot), the resulting
    queue is the pre-flush queue followed by the events admitted during the
    failed attempts, in enqueue order. *)
Theorem failed_flush_prepends_batch :
  (forall id f a d w res,
      findFlight id (flights w) = Some f ->
      f_state f = AwaitingFetch a d ->
      resOk res = false ->
      maxAttempts (transport (tracker w)) <= a ->
      queue (tracker (fetchSettled id res w)) = f_batch f ++ queue (tracker w)
      /\ findFlight id (flights (fetchSettled id res w)) = None)
  /\ (forall sync w rounds evs last,
         queue (tracker w) <> [] ->
         siteId (config (tracker w)) <> ""%string ->
         snd (tryBeacon (host w) (bodyOf w) sync) = false ->
         Z.of_nat (List.length rounds) + 1 = maxAttempts (transport (tracker w)) ->
         Forall (fun r => resOk (r_result r) = false) rounds ->
         resOk last = false ->
         Z.of_nat (List.length (admittedOf (tracker w) (arrived rounds ++ evs)))
           < batchSize (config (tracker w)) ->
         queue (tracker
                  (lastAttempt (nextFlight w) evs last
                     (fold_left (failedAttempt (nextFlight w)) rounds
                        (flush sync w))))
         = queue (tracker w) ++ admittedOf (tracker w) (arrived rounds ++ evs)).
Proof.
  split.
  - intros id f a d w res Hf Hst Hres Ha.
    rewrite (fetchSettled_exhausted id f a d w Hf res Hst Hres Ha). simpl.
    split; [reflexivity | apply findFlight_dropFlight].
  - intros sync w rounds evs last Hq Hs Hb Hmax Hfails Hlast Hlen.
    apply (failedFlush_requeues sync w rounds evs last Hq Hs Hb Hmax Hfails
             Hlast Hlen).
Qed.

Lemma failed_flush_prepends_batch_witness :
  map ev_url
    (queue (tracker
              (lastAttempt (nextFlight (Sample.fresh 15 2)) [Sample.view "/c"]
                 (NetworkFailure "offline")
                 (fold_left (failedAttempt (nextFlight (Sample.fresh 15 2)))
                    [mkRound [Sample.view "/a"] (Response 503) [Sample.view "/b"]]
                    (flush false (Sample.fresh 15 2))))))
  = [h_href Sample.page; "/a"; "/b"; "/c"]%string.
Proof.
  destruct failed_flush_prepends_batch as [_ Hrun].
  rewrite (Hrun false (Sample.fresh 15 2)
             [mkRound [Sample.view "/a"] (Response 503) [Sample.view "/b"]]
             [Sample.view "/c"] (NetworkFailure "offline")
             ltac:(vm_compute; discriminate)
             ltac:(vm_compute; discriminate)
             eq_refl
             eq_refl
             ltac:(repeat constructor)
             eq_refl
             ltac:(vm_compute; reflexivity)).
  reflexivity.
Defined.

(** C2 as stated fails when two flushes overlap. With [batchSize = 2] and
    one attempt: the timer flushes the first page view; two more page views
    arrive during that attempt and start a second flush; the first flush
    fails. The queue is then the first batch alone, not the batch followed
    by the two events enqueued during the failed attempt; when the second
    flush fails too, its later events end up ahead of the earlier one. *)
Lemma failed_flush_fifo_counterexample :
  queue (tracker
           (run [AutoFlush; TrackPage (Some "/b") None; TrackPage (Some "/c") None;
                 FetchSettled 0 (Response 503)]%string
              (Sample.fresh 2 1)))
  = queue (tracker (Sample.fresh 2 1))
  /\ queue (tracker
              (run [AutoFlush; TrackPage (Some "/b") None; TrackPage (Some "/c") None;
                    FetchSettled 0 (Response 503)]%string
                 (Sample.fresh 2 1)))
     <> queue (tracker (Sample.fresh 2 1))
          ++ admittedOf (tracker (Sample.fresh 2 1))
               [Sample.view "/b"; Sample.view "/c"]
  /\ map ev_url
       (queue (tracker
                 (run [AutoFlush; TrackPage (Some "/b") None;
                       TrackPage (Some "/c") None;
                       FetchSettled 0 (Response 503);
                       FetchSettled 1 (Response 503)]%string
                    (Sample.fresh 2 1))))
     = ["/b"; "/c"; h_href Sample.page]%string.
Proof.
  split; [reflexivity|]. split; [|reflexivity].
  vm_compute. discriminate.
Qed.

(** ** Page teardown *)

(** C5, as amended. In sync mode the batch is handed over without any way
    back only when the host's [sendBeacon] takes it: [flush] then ends at
    once, with the queue cleared, the body counted as delivered and no
    suspended call left whose outcome could reach the queue. When
    [sendBeacon] is missing, returns false or throws, [send] goes on to
    the retrying [fetch] path with [keepalive] set; if every attempt of that
    fails, the batch is put back in front of the queue, as in async mode. *)
Theorem sync_flush_beacon_or_retry (w : World) :
  queue (tracker w) <> [] ->
  siteId (config (tracker w)) <> ""%string ->
  (h_beacon (host w) = BeaconReturns true ->
   flush true w
   = snapshot [ESend (bodyOf w) true; EBeacon (bodyOf w) (Some true)] w
   /\ queue (tracker (flush true w)) = []
   /\ flights (flush true w) = flights w
   /\ deliveredOf (trace (flush true w)) = deliveredOf (trace w) ++ [bodyOf w])
  /\ (h_beacon (host w) <> BeaconReturns true ->
      1 <= maxAttempts (transport (tracker w)) ->
      fetchesOf (trace (flush true w)) = fetchesOf (trace w) ++ [(bodyOf w, true)]
      /\ findFlight (nextFlight w) (flights (flush true w))
         = Some (mkFlight (queue (tracker w)) (bodyOf w) true
                   (AwaitingFetch 1 (backoffBaseMs (transport (tracker w)))))
      /\ (forall rounds evs last,
             Z.of_nat (List.length rounds) + 1
             = maxAttempts (transport (tracker w)) ->
             Forall (fun r => resOk (r_result r) = false) rounds ->
             resOk last = false ->
             Z.of_nat (List.length (admittedOf (tracker w) (arrived rounds ++ evs)))
               < batchSize (config (tracker w)) ->
             queue (tracker
                      (lastAttempt (nextFlight w) evs last
                         (fold_left (failedAttempt (nextFlight w)) rounds
                            (flush true w))))
             = queue (tracker w)
                 ++ admittedOf (tracker w) (arrived rounds ++ evs))).
Proof.
  intros Hq Hs. split.
  - intro Hb.
    assert (Hflush : flush true w
              = snapshot [ESend (bodyOf w) true; EBeacon (bodyOf w) (Some true)] w).
    { rewrite (flush_eq true w Hq Hs). unfold send, tryBeacon.
      rewrite Hb. reflexivity. }
    rewrite Hflush. split; [reflexivity|]. split; [reflexivity|].
    split; [reflexivity|]. simpl. rewrite deliveredOf_app. reflexivity.
  - intros Hb Hm.
    assert (Hrefused : snd (tryBeacon (host w) (bodyOf w) true) = false).
    { unfold tryBeacon. destruct (h_beacon (host w)) as [|[|]|];
        try reflexivity. exfalso. apply Hb. reflexivity. }
    split; [|split].
    + rewrite (flush_first_attempt true w Hq Hs Hm Hrefused).
      cbn [trace setFlights snapshot].
      destruct (tryBeacon_quiet (host w) (bodyOf w) true) as (Hf & _ & _).
      rewrite fetchesOf_app, fetchesOf_send, fetchesOf_app, Hf. reflexivity.
    + rewrite (flush_first_attempt true w Hq Hs Hm Hrefused). simpl.
      apply findFlight_putFlight.
    + intros rounds evs last Hmax Hfails Hlast Hlen.
      apply (failedFlush_requeues true w rounds evs last Hq Hs Hrefused Hmax
               Hfails Hlast Hlen).
Qed.

Lemma sync_flush_beacon_or_retry_witness :
  fetchesOf (trace (flush true (Sample.fresh 15 1)))
  = [(bodyOf (Sample.fresh 15 1), true)]
  /\ queue (tracker
              (lastAttempt (nextFlight (Sample.fresh 15 1)) [] (Response 500)
                 (fold_left (failedAttempt (nextFlight (Sample.fresh 15 1))) []
                    (flush true (Sample.fresh 15 1)))))
     = queue (tracker (Sample.fresh 15 1)).
Proof.
  destruct (sync_flush_beacon_or_retry (Sample.fresh 15 1)
              ltac:(vm_compute; discriminate) ltac:(vm_compute; discriminate))
    as [_ Hretry].
  destruct (Hretry ltac:(vm_compute; discriminate) ltac:(simpl; lia))
    as (Hfetch & _ & Hrequeue).
  split; [rewrite Hfetch; reflexivity|].
  rewrite (Hrequeue [] [] (Response 500) eq_refl ltac:(constructor) eq_refl
             ltac:(vm_compute; reflexivity)).
  reflexivity.
Defined.

(** C5 as stated fails: at page teardown with a beacon the host refuses
    and a fallback [fetch] that fails on every attempt, the batch is back
    in the queue instead of being lost. *)
Lemma sync_flush_requeue_counterexample :
  beaconsOf
    (trace (run [BeforeUnload; FetchSettled 0 (Response 500)] (Sample.fresh 15 1)))
  = [(bodyOf (Sample.fresh 15 1), Some false)]
  /\ queue (tracker (Sample.fresh 15 1)) <> []
  /\ queue (tracker (flush true (Sample.fresh 15 1))) = []
  /\ queue (tracker
              (run [BeforeUnload; FetchSettled 0 (Response 500)] (Sample.fresh 15 1)))
     = queue (tracker (Sample.fresh 15 1)).
Proof.
  split; [reflexivity|]. split; [vm_compute; discriminate|].
  split; reflexivity.
Qed.

(** * Further properties of the pipeline *)

(** ** Order of delivery *)

(** Events enqueued without reaching [batchSize], then [flushNow] and a 2xx
    response: one body is delivered, holding what was queued before
    followed by the admitted events in the order of the calls; the queue is
    empty and the flush is over. *)
Theorem flushNow_delivers_in_order (evs : list TrackerEvent) (w : World)
    (res : FetchResult) :
  siteId (config (tracker w)) <> ""%string ->
  1 <= maxAttempts (transport (tracker w)) ->
  queue (tracker w) ++ admittedOf (tracker w) evs <> [] ->
  Z.of_nat (List.length (queue (tracker w)))
    + Z.of_nat (List.length (admittedOf (tracker w) evs))
    < batchSize (config (tracker w)) ->
  resOk res = true ->
  let w' := fetchSettled (nextFlight w) res (flushNow (enqueueAll evs w)) in
  deliveredOf (trace w')
  = deliveredOf (trace w)
      ++ [mkPayload (siteId (config (tracker w))) (h_clock (host w))
            (queue (tracker w) ++ admittedOf (tracker w) evs)]
  /\ queue (tracker w') = []
  /\ findFlight (nextFlight w) (flights w') = None.
Proof.
  intros Hs Hm Hne Hlen Hok w'.
  set (w1 := setQueue (queue (tracker w) ++ admittedOf (tracker w) evs) w).
  assert (Hw' : w' = fetchSettled (nextFlight w) res (flush false w1)).
  { unfold w', flushNow. rewrite (enqueueAll_quiet evs w Hlen). reflexivity. }
  assert (Hq1 : queue (tracker w1) <> []) by exact Hne.
  assert (Hs1 : siteId (config (tracker w1)) <> ""%string) by exact Hs.
  rewrite Hw', (flush_first_attempt false w1 Hq1 Hs1 Hm (eq_refl _)).
  erewrite fetchSettled_delivered;
    [| simpl; apply findFlight_putFlight | reflexivity | exact Hok].
  cbn [trace emit setFlights snapshot tracker queue setQueue setTracker flights
         f_payload].
  repeat split.
  - rewrite !deliveredOf_app. simpl. rewrite Hok, !app_nil_r. reflexivity.
  - apply findFlight_dropFlight.
Qed.

Lemma flushNow_delivers_in_order_witness :
  map (fun p => map ev_url (p_events p))
    (deliveredOf
       (trace (fetchSettled 0 (Response 204)
                 (flushNow
                    (enqueueAll [Sample.view "/a"; Sample.click; Sample.view "/b"]
                       (Sample.fresh 15 4))))))
  = [[h_href Sample.page; "/a"; "/b"]%string].
Proof.
  pose proof (flushNow_delivers_in_order
                [Sample.view "/a"; Sample.click; Sample.view "/b"]
                (Sample.fresh 15 4) (Response 204)
                ltac:(vm_compute; discriminate) ltac:(simpl; lia)
                ltac:(vm_compute; discriminate) ltac:(vm_compute; reflexivity)
                eq_refl) as (Hd & _ & _).
  change 0%nat with (nextFlight (Sample.fresh 15 4)).
  rewrite Hd. reflexivity.
Defined.

(** ** Total backoff *)

Lemma sumZ_app (a b : list Z) : sumZ (a ++ b) = sumZ a + sumZ b.
Proof.
  induction a as [|x a IH]; simpl; [reflexivity|]. rewrite IH. lia.
Qed.

(** The waits of the retry loop from attempt [a] with delay [d] add up to
    at most [2d (2^(maxAttempts - a) - 1)], however the fetches settle. *)
Lemma drive_wait_bound (t : Transport) (h : Host) (p : Payload) (sync : bool)
    (replies : list FetchResult) :
  (forall i, unit01_ok (h_random h i)) ->
  forall (pos : nat) (a d : Z),
    0 <= d ->
    0 <= sumZ (waitsOf (fst (drive t h pos p sync replies
                               (Suspended (AwaitingFetch a d)))))
      <= 2 * d * (2 ^ Z.max 0 (maxAttempts t - a) - 1).
Proof.
  intro Hrandom.
  induction replies as [|res rest IH]; intros pos a d Hd;
    assert (Hpow : 0 < 2 ^ Z.max 0 (maxAttempts t - a))
      by (apply Z.pow_pos_nonneg; lia);
    set (x := 2 ^ Z.max 0 (maxAttempts t - a)) in *.
  - cbn [drive fst waitsOf flat_map sumZ fold_right]. nia.
  - destruct (resOk res) eqn:Hok.
    + rewrite drive_step_ok by exact Hok.
      cbn [fst waitsOf flat_map app sumZ fold_right]. nia.
    + destruct (Z_lt_le_dec a (maxAttempts t)) as [Hlt | Hge].
      * rewrite drive_step_fail by assumption. cbn [fst].
        change (EFetchSettled p res :: ETimeout ?ms :: EFetch p sync :: ?l)
          with ([EFetchSettled p res; ETimeout ms; EFetch p sync] ++ l).
        rewrite waitsOf_app, sumZ_app.
        cbn [waitsOf flat_map app sumZ fold_right].
        specialize (IH (S pos) (a + 1) (d * 2) ltac:(lia)).
        set (y := 2 ^ Z.max 0 (maxAttempts t - (a + 1))) in *.
        set (rest_sum := sumZ (waitsOf (fst (drive t h (S pos) p sync rest
                                 (Suspended (AwaitingFetch (a + 1) (d * 2))))))) in *.
        pose proof (jitter_bounds (h_random h pos) d (Hrandom pos) Hd) as Hj.
        assert (Hxy : x = 2 * y).
        { unfold x, y.
          replace (Z.max 0 (maxAttempts t - a))
            with (Z.succ (Z.max 0 (maxAttempts t - (a + 1)))) by lia.
          apply Z.pow_succ_r. lia. }
        nia.
      * rewrite drive_step_last by assumption.
        cbn [fst waitsOf flat_map app sumZ fold_right]. nia.
Qed.

(** However the fetches settle, the backoff waits one call of [send] asks
    for add up to at most [backoffBaseMs * (2^retryMaxAttempts - 2)]: with
    the defaults, 500 and 4, at most 7000 ms. *)
Theorem send_total_backoff_bound (t : Transport) (h : Host) (pos : nat)
    (p : Payload) (sync : bool) (replies : list FetchResult) :
  0 <= backoffBaseMs t ->
  1 <= maxAttempts t ->
  (forall i, unit01_ok (h_random h i)) ->
  0 <= sumZ (waitsOf (fst (runSend t h pos p sync replies)))
    <= backoffBaseMs t * (2 ^ maxAttempts t - 2).
Proof.
  intros Hbase Hmax Hrandom.
  rewrite runSend_eq. cbn [fst].
  destruct (tryBeacon_quiet h p sync) as (_ & Hw & _).
  assert (Hpow : 2 ^ maxAttempts t = 2 * 2 ^ (maxAttempts t - 1)).
  { replace (maxAttempts t) with (Z.succ (maxAttempts t - 1)) at 1 by lia.
    apply Z.pow_succ_r. lia. }
  assert (Hpos : 0 < 2 ^ (maxAttempts t - 1)) by (apply Z.pow_pos_nonneg; lia).
  unfold send, sendLoop.
  destruct (tryBeacon h p sync) as [tried ok]. cbn [fst] in Hw.
  destruct ok; cbn [fst snd].
  - rewrite drive_settled by discriminate. cbn [fst].
    rewrite app_nil_r. change (ESend p sync :: tried) with ([ESend p sync] ++ tried).
    rewrite waitsOf_app, Hw. simpl. nia.
  - replace (0 <? maxAttempts t) with true by (symmetry; apply Z.ltb_lt; lia).
    cbn [fst snd].
    pose proof (drive_wait_bound t h p sync replies Hrandom pos 1 (backoffBaseMs t)
                  Hbase) as Hb.
    replace (Z.max 0 (maxAttempts t - 1)) with (maxAttempts t - 1) in Hb by lia.
    change (ESend p sync :: ?l) with ([ESend p sync] ++ l).
    rewrite !waitsOf_app, Hw, !sumZ_app. simpl waitsOf. simpl sumZ. nia.
Qed.

Lemma send_total_backoff_bound_witness :
  sumZ (waitsOf
          (fst (runSend (mkTransport "https://collect.example/api" false 500 4)
                  Sample.page 0 (mkPayload "site-1" 1000 [Sample.click]) false
                  [Response 500; Response 500; Response 500; Response 500])))
  <= 7000.
Proof.
  apply (send_total_backoff_bound
           (mkTransport "https://collect.example/api" false 500 4) Sample.page 0
           (mkPayload "site-1" 1000 [Sample.click]) false
           [Response 500; Response 500; Response 500; Response 500]
           ltac:(simpl; lia) ltac:(simpl; lia)
           ltac:(intro i; unfold unit01_ok; simpl; lia)).
Defined.

(** ** Session ids *)

Lemma random16_range (r : Unit01) : unit01_ok r -> 0 <= random16 r < 16.
Proof.
  unfold unit01_ok, random16. intros [Hn Hd]. split.
  - apply Z.div_pos; lia.
  - apply Z.div_lt_upper_bound; lia.
Qed.

Lemma hexDigit_in (v : Z) : 0 <= v < 16 -> In (hexDigit v) hexDigits.
Proof.
  intro Hv. unfold hexDigit. apply nth_In. simpl. lia.
Qed.

Lemma variant_digit (r : Z) :
  0 <= r < 16 ->
  In (hexDigit (Z.lor (Z.land r 3) 8)) ["8"; "9"; "a"; "b"]%char.
Proof.
  intro Hr.
  assert (Hcases : r = 0 \/ r = 1 \/ r = 2 \/ r = 3 \/ r = 4 \/ r = 5 \/ r = 6
                   \/ r = 7 \/ r = 8 \/ r = 9 \/ r = 10 \/ r = 11 \/ r = 12
                   \/ r = 13 \/ r = 14 \/ r = 15) by lia.
  repeat (destruct Hcases as [-> | Hcases]; [simpl; tauto|]).
  subst r. simpl. tauto.
Qed.

(** What [uuidFill] leaves at each position of the template: a hex digit
    for an [x], one of [8 9 a b] for a [y], the template's own character
    otherwise. *)
Lemma uuidFill_get (rnd : nat -> Unit01) :
  (forall i, unit01_ok (rnd i)) ->
  forall (template : string) (pos i : nat),
    match String.get i template with
    | None => String.get i (fst (uuidFill template rnd pos)) = None
    | Some c =>
        exists c', String.get i (fst (uuidFill template rnd pos)) = Some c'
          /\ (if Ascii.eqb c "x" then In c' hexDigits
              else if Ascii.eqb c "y" then In c' ["8"; "9"; "a"; "b"]%char
              else c' = c)
    end.
Proof.
  intro Hrnd. induction template as [|c rest IH]; intros pos i.
  - destruct i; reflexivity.
  - cbn [uuidFill].
    destruct (Ascii.eqb c "x") eqn:Ex; [|destruct (Ascii.eqb c "y") eqn:Ey].
    + specialize (IH (S pos)).
      destruct (uuidFill rest rnd (S pos)) as [s q]. cbn [fst] in *.
      destruct i as [|i]; cbn [String.get].
      * eexists. split; [reflexivity|]. rewrite Ex.
        apply hexDigit_in, random16_range, Hrnd.
      * apply IH.
    + specialize (IH (S pos)).
      destruct (uuidFill rest rnd (S pos)) as [s q]. cbn [fst] in *.
      destruct i as [|i]; cbn [String.get].
      * eexists. split; [reflexivity|]. rewrite Ex, Ey.
        apply variant_digit, random16_range, Hrnd.
      * apply IH.
    + specialize (IH pos).
      destruct (uuidFill rest rnd pos) as [s q]. cbn [fst] in *.
      destruct i as [|i]; cbn [String.get].
      * eexists. split; [reflexivity|]. rewrite Ex, Ey. reflexivity.
      * apply IH.
Qed.

Lemma uuidFill_length (rnd : nat -> Unit01) (template : string) (pos : nat) :
  String.length (fst (uuidFill template rnd pos)) = String.length template.
Proof.
  revert pos. induction template as [|c rest IH]; intro pos; [reflexivity|].
  cbn [uuidFill].
  destruct (Ascii.eqb c "x"); [|destruct (Ascii.eqb c "y")];
    [specialize (IH (S pos)) | specialize (IH (S pos)) | specialize (IH pos)];
    match goal with
    | |- context [uuidFill rest rnd ?q] => destruct (uuidFill rest rnd q)
    end; cbn [fst String.length] in *; rewrite IH; reflexivity.
Qed.

Lemma uuidFill_draws (rnd : nat -> Unit01) (template : string) (pos : nat) :
  snd (uuidFill template rnd pos) = (pos + placeholders template)%nat.
Proof.
  revert pos. induction template as [|c rest IH]; intro pos; cbn [uuidFill].
  - simpl. lia.
  - cbn [placeholders].
    destruct (Ascii.eqb c "x"); [|destruct (Ascii.eqb c "y")];
      [specialize (IH (S pos)) | specialize (IH (S pos)) | specialize (IH pos)];
      match goal with
      | |- context [uuidFill rest rnd ?q] => destruct (uuidFill rest rnd q)
      end; cbn [snd orb] in *; rewrite IH; lia.
Qed.

(** [uuidv4] returns 36 characters in the 8-4-4-4-12 layout: hyphens at
    positions 8, 13, 18 and 23, the version digit 4 at position 14, one of
    8, 9, a, b at position 19 and a lower-case hex digit everywhere else;
    it uses 31 draws of [Math.random()]. *)
Theorem uuidv4_shape (rnd : nat -> Unit01) (pos : nat) :
  (forall i, unit01_ok (rnd i)) ->
  String.length (fst (uuidv4 rnd pos)) = 36%nat
  /\ snd (uuidv4 rnd pos) = (pos + 31)%nat
  /\ (forall i, In i [8; 13; 18; 23]%nat ->
        String.get i (fst (uuidv4 rnd pos)) = Some "-"%char)
  /\ String.get 14 (fst (uuidv4 rnd pos)) = Some "4"%char
  /\ (exists c, String.get 19 (fst (uuidv4 rnd pos)) = Some c
                /\ In c ["8"; "9"; "a"; "b"]%char)
  /\ (forall i, (i < 36)%nat -> ~ In i [8; 13; 14; 18; 19; 23]%nat ->
        exists c, String.get i (fst (uuidv4 rnd pos)) = Some c /\ In c hexDigits).
Proof.
  intro Hrnd. unfold uuidv4.
  set (template := "xxxxxxxx-xxxx-4xxx-yxxx-xxxxxxxxxxxx"%string).
  pose proof (uuidFill_get rnd Hrnd template pos) as Hget.
  split; [rewrite uuidFill_length; reflexivity|].
  split; [rewrite uuidFill_draws; reflexivity|].
  split; [|split; [|split]].
  - intros i Hi. simpl in Hi.
    destruct Hi as [<- | [<- | [<- | [<- | []]]]];
      match goal with
      | |- String.get ?n _ = _ =>
          destruct (Hget n) as (c & Hc & Hshape); simpl in Hshape;
          rewrite Hc, Hshape; reflexivity
      end.
  - destruct (Hget 14%nat) as (c & Hc & Hshape). simpl in Hshape.
    rewrite Hc, Hshape. reflexivity.
  - destruct (Hget 19%nat) as (c & Hc & Hshape). simpl in Hshape.
    exists c. split; assumption.
  - intros i Hi Hnot.
    do 36 (destruct i as [|i];
           [first [ exfalso; apply Hnot; simpl; tauto
                  | match goal with
                    | |- exists c, String.get ?n _ = _ /\ _ =>
                        destruct (Hget n) as (c & Hc & Hshape);
                        simpl in Hshape; exists c; split; assumption
                    end ] |]).
    lia.
Qed.

Lemma uuidv4_shape_witness :
  String.length (fst (uuidv4 (fun _ => Sample.half) 0)) = 36%nat
  /\ String.get 14 (fst (uuidv4 (fun _ => Sample.half) 0)) = Some "4"%char.
Proof.
  destruct (uuidv4_shape (fun _ => Sample.half) 0
              ltac:(intro i; unfold unit01_ok; simpl; lia))
    as (Hlen & _ & _ & Hversion & _).
  split; assumption.
Defined.

(** ** Objects used as maps *)

Lemma assocGet_assocSet_same {V} (k : string) (v : V) (l : list (string * V)) :
  assocGet k (assocSet k v l) = Some v.
Proof.
  induction l as [|[k' v'] l IH]; simpl.
  - rewrite String.eqb_refl. reflexivity.
  - destruct (String.eqb k k') eqn:E; simpl.
    + rewrite String.eqb_refl. reflexivity.
    + rewrite E. exact IH.
Qed.

Lemma assocGet_assocSet_other {V} (k k' : string) (v : V) (l : list (string * V)) :
  k' <> k -> assocGet k' (assocSet k v l) = assocGet k' l.
Proof.
  intro Hne. induction l as [|[k0 v0] l IH]; simpl.
  - destruct (String.eqb k' k) eqn:E; [|reflexivity].
    apply String.eqb_eq in E. contradiction.
  - destruct (String.eqb k k0) eqn:E; simpl.
    + apply String.eqb_eq in E. subst k0.
      destruct (String.eqb k' k) eqn:E'; [|reflexivity].
      apply String.eqb_eq in E'. contradiction.
    + destruct (String.eqb k' k0); [reflexivity | exact IH].
Qed.

(** ** Session persistence *)

Lemma grantConsent_fresh (w : World) :
  hasConsent (tracker w) = false ->
  sessionId (tracker (grantConsent w))
  = fst (createOrRestoreSession
           (setTracker
              (mkTracker (config (tracker w)) (transport (tracker w))
                 (queue (tracker w)) (customDims (tracker w)) true
                 (sessionId (tracker w))) w))
  /\ storage (grantConsent w)
     = storage (snd (createOrRestoreSession
                       (setTracker
                          (mkTracker (config (tracker w)) (transport (tracker w))
                             (queue (tracker w)) (customDims (tracker w)) true
                             (sessionId (tracker w))) w))).
Proof.
  intro Hc. unfold grantConsent. rewrite Hc.
  destruct (createOrRestoreSession _) as [id w2]. split; reflexivity.
Qed.

Lemma createOrRestoreSession_stores (w : World) (items : list (string * string)) :
  storage w = StorageItems items true ->
  exists items',
    storage (snd (createOrRestoreSession w)) = StorageItems items' true
    /\ assocGet sessionKey items' = Some (fst (createOrRestoreSession w)).
Proof.
  intro Hst. unfold createOrRestoreSession. rewrite Hst.
  destruct (assocGet sessionKey items) as [[|c rest]|] eqn:Hget.
  - draw_uuid. eexists. split; [reflexivity|]. apply assocGet_assocSet_same.
  - exists items. split; [exact Hst | exact Hget].
  - draw_uuid. eexists. split; [reflexivity|]. apply assocGet_assocSet_same.
Qed.

Lemma createOrRestoreSession_restores (w : World) (items : list (string * string))
    (writable : bool) (id : string) :
  storage w = StorageItems items writable ->
  assocGet sessionKey items = Some id ->
  truthy id = true ->
  createOrRestoreSession w = (id, w).
Proof.
  intros Hst Hget Hid. unfold createOrRestoreSession. rewrite Hst, Hget.
  destruct id; [discriminate | reflexivity].
Qed.

(** The session id survives in the session store: after [grantConsent] on
    a writable store, the store holds the tracker's session id under
    [analytics_session_v1], and a tracker that later grants consent on that
    store takes the same id, writes nothing and draws no new uuid. *)
Theorem session_id_restored_from_store (w w2 : World)
    (items : list (string * string)) :
  hasConsent (tracker w) = false ->
  storage w = StorageItems items true ->
  hasConsent (tracker w2) = false ->
  storage w2 = storage (grantConsent w) ->
  (exists items',
      storage (grantConsent w) = StorageItems items' true
      /\ assocGet sessionKey items' = Some (sessionId (tracker (grantConsent w))))
  /\ sessionId (tracker (grantConsent w2)) = sessionId (tracker (grantConsent w))
  /\ storage (grantConsent w2) = storage w2
  /\ randPos (grantConsent w2) = randPos w2
  /\ storageSetsOf (trace (grantConsent w2)) = storageSetsOf (trace w2).
Proof.
  intros Hc Hst Hc2 Hst2.
  destruct (grantConsent_fresh w Hc) as [Hid Hstore].
  match type of Hid with
  | _ = fst (createOrRestoreSession ?w1) =>
      destruct (createOrRestoreSession_stores w1 items Hst) as (items' & Hs' & Hg');
      pose proof (createOrRestoreSession_truthy w1) as Htruthy
  end.
  rewrite <- Hid in Hg', Htruthy. rewrite <- Hstore in Hs'.
  split; [exists items'; split; assumption|].
  rewrite Hs' in Hst2.
  unfold grantConsent at 1 3 4 5. rewrite Hc2.
  match goal with
  | |- context [createOrRestoreSession ?w3] =>
      rewrite (createOrRestoreSession_restores w3 items' true _ Hst2 Hg' Htruthy)
  end.
  cbn [sessionId tracker emit setTracker storage randPos trace].
  repeat split.
  rewrite storageSetsOf_app. simpl. apply app_nil_r.
Qed.

Lemma session_id_restored_from_store_witness :
  sessionId
    (tracker
       (grantConsent
          (construct "" (Sample.cfg 15 4) Sample.page
             (storage (grantConsent (Sample.fresh 15 4))))))
  = sessionId (tracker (grantConsent (Sample.fresh 15 4))).
Proof.
  destruct (session_id_restored_from_store (Sample.fresh 15 4)
              (construct "" (Sample.cfg 15 4) Sample.page
                 (storage (grantConsent (Sample.fresh 15 4))))
              [] eq_refl eq_refl eq_refl eq_refl)
    as (_ & Hsame & _).
  exact Hsame.
Defined.

(** ** UTM parameters *)

Lemma parseUTM_fold (query : list (string * string)) (k : string) :
  forall (keys : list string) (out : list (string * string)),
    assocGet k
      (fold_left
         (fun out k =>
            match assocGet k query with
            | Some v => if truthy v then assocSet k v out else out
            | None => out
            end) keys out)
    = if existsb (String.eqb k) keys then
        match assocGet k query with
        | Some v => if truthy v then Some v else assocGet k out
        | None => assocGet k out
        end
      else assocGet k out.
Proof.
  induction keys as [|k0 keys IH]; intro out; [reflexivity|].
  cbn [fold_left existsb]. rewrite IH.
  destruct (String.eqb k k0) eqn:E.
  - apply String.eqb_eq in E. subst k0. cbn [orb].
    destruct (assocGet k query) as [v|].
    + destruct (truthy v).
      * rewrite assocGet_assocSet_same. destruct (existsb _ keys); reflexivity.
      * destruct (existsb _ keys); reflexivity.
    + destruct (existsb _ keys); reflexivity.
  - cbn [orb].
    assert (Hne : k <> k0) by (intro; subst; rewrite String.eqb_refl in E; discriminate).
    assert (Hout : assocGet k
                     match assocGet k0 query with
                     | Some v => if truthy v then assocSet k0 v out else out
                     | None => out
                     end = assocGet k out).
    { destruct (assocGet k0 query) as [v|]; [|reflexivity].
      destruct (truthy v); [|reflexivity].
      apply assocGet_assocSet_other. exact Hne. }
    rewrite Hout. reflexivity.
Qed.

(** [parseUTM] keeps exactly the five [utm_*] parameters that are present
    with a non-empty value: looking a key up in the result gives the first
    value of that key in the query string when the key is one of the five
    and the value is non-empty, and nothing otherwise. *)
Theorem parseUTM_lookup (h : Host) (k : string) :
  assocGet k (parseUTM h)
  = if existsb (String.eqb k) utmKeys then
      match assocGet k (h_query h) with
      | Some v => if truthy v then Some v else None
      | None => None
      end
    else None.
Proof.
  unfold parseUTM. rewrite parseUTM_fold. reflexivity.
Qed.

(** ** Custom dimensions *)

(** A dimension set under a name other than the empty string and
    [__proto__] is on every event built afterwards, with the value last
    set; the other dimensions are as before. The empty name changes
    nothing, and neither does [__proto__], which a plain object does not
    store. *)
Theorem customDimension_on_built_events (name : string) (value : DimValue)
    (type : string) (ov : Overrides) (w : World) :
  setCustomDimension "" value w = w
  /\ setCustomDimension "__proto__" value w = w
  /\ (name <> ""%string ->
      name <> "__proto__"%string ->
      exists dims,
        ev_customDims (buildEvent type ov (setCustomDimension name value w))
        = Some dims
        /\ assocGet name dims = Some value
        /\ (forall other, other <> name ->
              assocGet other dims = assocGet other (customDims (tracker w)))).
Proof.
  split; [reflexivity|]. split; [reflexivity|].
  intros Hname Hproto. unfold setCustomDimension.
  destruct name as [|c name]; [contradiction|]. cbn [truthy negb].
  destruct (String.eqb (String c name) "__proto__") eqn:E.
  { apply String.eqb_eq in E. contradiction. }
  unfold buildEvent. cbn [ev_customDims tracker setTracker customDims].
  set (dims := assocSet (String c name) value (customDims (tracker w))).
  assert (Hget : assocGet (String c name) dims = Some value)
    by apply assocGet_assocSet_same.
  exists dims. split.
  - destruct dims; [discriminate | reflexivity].
  - split; [exact Hget|].
    intros other Hother. apply assocGet_assocSet_other. exact Hother.
Qed.

Lemma customDimension_on_built_events_witness :
  exists dims,
    ev_customDims
      (buildEvent EventType.CUSTOM noOverrides
         (setCustomDimension "plan" (DimStr "pro")
            (setCustomDimension "plan" (DimStr "free") (Sample.fresh 15 4))))
    = Some dims
    /\ assocGet "plan"%string dims = Some (DimStr "pro").
Proof.
  destruct (customDimension_on_built_events "plan" (DimStr "pro")
              EventType.CUSTOM noOverrides
              (setCustomDimension "plan" (DimStr "free") (Sample.fresh 15 4)))
    as (_ & _ & H).
  destruct (H ltac:(discriminate) ltac:(discriminate)) as (dims & Hd & Hg & _).
  exists dims. split; assumption.
Defined.

(** ** The site id *)

Lemma settings_siteId (w w' : World) :
  settings (tracker w') = settings (tracker w) ->
  siteId (config (tracker w')) = siteId (config (tracker w)).
Proof.
  intro H. destruct (settings_config _ _ H) as [Hc _]. rewrite Hc. reflexivity.
Qed.

Lemma grantConsent_config (w : World) :
  config (tracker (grantConsent w)) = config (tracker w)
  /\ transport (tracker (grantConsent w)) = transport (tracker w)
  /\ queue (tracker (grantConsent w)) = queue (tracker w)
  /\ flights (grantConsent w) = flights w
  /\ nextFlight (grantConsent w) = nextFlight w.
Proof.
  unfold grantConsent. destruct (hasConsent (tracker w)); [repeat split|].
  match goal with
  | |- context [createOrRestoreSession ?w1] =>
      pose proof (createOrRestoreSession_tracker w1) as Ht;
      assert (Hf : flights (snd (createOrRestoreSession w1)) = flights w
                   /\ nextFlight (snd (createOrRestoreSession w1)) = nextFlight w);
      [| destruct (createOrRestoreSession w1) as [id w2] ]
  end.
  { unfold createOrRestoreSession. cbn [storage setTracker].
    destruct (storage w) as [|items writable].
    - draw_uuid. split; reflexivity.
    - destruct (assocGet sessionKey items) as [[|c rest]|];
        try (split; reflexivity);
        draw_uuid; destruct writable; try (split; reflexivity);
        draw_uuid; split; reflexivity. }
  cbn [snd] in Ht, Hf. destruct Hf as [Hf Hn].
  cbn [tracker emit setTracker config transport queue flights nextFlight].
  rewrite Ht, Hf, Hn. repeat split.
Qed.

Lemma step_siteId (w : World) (op : Op) :
  siteId (config (tracker w)) <> ""%string ->
  siteId (config (tracker (step w op))) <> ""%string.
Proof.
  intro Hs.
  destruct op; cbn [step];
    try (erewrite settings_siteId; [exact Hs|];
         first [apply enqueue_settings | apply flush_settings
               | apply fetchSettled_settings | apply timerFired_settings]);
    try exact Hs.
  - unfold setSiteId. destruct s as [|c s]; [exact Hs | discriminate].
  - destruct (grantConsent_config w) as [Hc _]. rewrite Hc. exact Hs.
  - unfold setCustomDimension. destruct (negb (truthy name));
      [|destruct (String.eqb name "__proto__")]; exact Hs.
  - destruct (hasConsent (tracker w)); [|exact Hs].
    erewrite settings_siteId; [exact Hs | apply enqueue_settings].
Qed.

(** [setSiteId] ignores the empty string and otherwise replaces the site id
    alone. Once a site id is set, no operation of the event loop unsets it:
    admission cannot be switched off again. *)
Theorem siteId_stays_set (w : World) :
  setSiteId "" w = w
  /\ (forall s, s <> ""%string ->
        siteId (config (tracker (setSiteId s w))) = s
        /\ transport (tracker (setSiteId s w)) = transport (tracker w)
        /\ queue (tracker (setSiteId s w)) = queue (tracker w)
        /\ hasConsent (tracker (setSiteId s w)) = hasConsent (tracker w))
  /\ (siteId (config (tracker w)) <> ""%string ->
      forall ops, siteId (config (tracker (run ops w))) <> ""%string).
Proof.
  split; [reflexivity|]. split.
  - intros s Hs. unfold setSiteId. destruct s as [|c s]; [contradiction|].
    repeat split.
  - intros Hs ops. revert w Hs.
    induction ops as [|op ops IH]; intros w Hs; [exact Hs|].
    apply IH, step_siteId, Hs.
Qed.

Lemma siteId_stays_set_witness :
  siteId (config (tracker (setSiteId "site-9" Sample.unconfigured))) = "site-9"%string
  /\ siteId
       (config
          (tracker
             (run [SetSiteId ""; GrantConsent; FlushNow]
                (setSiteId "site-9" Sample.unconfigured)))) <> ""%string.
Proof.
  destruct (siteId_stays_set Sample.unconfigured) as (_ & Hset & _).
  destruct (siteId_stays_set (setSiteId "site-9" Sample.unconfigured))
    as (_ & _ & Hkeep).
  split.
  - apply (Hset "site-9"%string). discriminate.
  - apply Hkeep. vm_compute. discriminate.
Defined.

(** ** The constructor's page view *)

(** A tracker constructed without a site id drops the page view its
    constructor tracks: nothing is queued or sent, and setting the site id
    afterwards does not bring that page view back. Constructed with a site
    id and a batch size above one, it starts with exactly that page view in
    the queue: the page's url, the site id, no session id. *)
Theorem constructor_page_view (env : string) (c : TrackerConfig) (h : Host)
    (s : SessionStorage) :
  (orDefault (tc_siteId c) ""%string = ""%string ->
   forall sid,
     queue (tracker (setSiteId sid (construct env c h s))) = []
     /\ flights (setSiteId sid (construct env c h s)) = []
     /\ trace (setSiteId sid (construct env c h s)) = [])
  /\ (orDefault (tc_siteId c) ""%string <> ""%string ->
      1 < orDefault (tc_batchSize c) 15 ->
      exists ev,
        queue (tracker (construct env c h s)) = [ev]
        /\ ev_type ev = EventType.PAGE_VIEW
        /\ ev_url ev = h_href h
        /\ ev_siteId ev = Some (orDefault (tc_siteId c) ""%string)
        /\ ev_sessionId ev = None
        /\ trace (construct env c h s) = []).
Proof.
  split.
  - intros Hs sid.
    assert (Hc : construct env c h s
                 = mkWorld
                     (mkTracker (mergeConfig (DEFAULTS env) c)
                        (mkTransport
                           (collectionEndpoint (mergeConfig (DEFAULTS env) c))
                           (debug (mergeConfig (DEFAULTS env) c))
                           (retryBackoffBaseMs (mergeConfig (DEFAULTS env) c))
                           (retryMaxAttempts (mergeConfig (DEFAULTS env) c)))
                        [] [] false "")
                     h s 0 [] 0 []).
    { unfold construct, trackPage. apply enqueue_no_siteId. exact Hs. }
    rewrite Hc. unfold setSiteId. destruct (negb (truthy sid)); repeat split.
  - intros Hs Hb. unfold construct, trackPage.
    rewrite enqueue_below.
    + eexists. split; [reflexivity|].
      cbn. destruct (orDefault (tc_siteId c) ""%string) as [|a sid];
        [contradiction|]. repeat split.
      destruct (truthy (h_href h)); reflexivity.
    + unfold admits. cbn.
      destruct (orDefault (tc_siteId c) ""%string); [contradiction | reflexivity].
    + cbn. lia.
Qed.

Lemma constructor_page_view_witness :
  queue (tracker (setSiteId "site-9" Sample.unconfigured)) = []
  /\ map ev_url (queue (tracker (Sample.fresh 15 4))) = [h_href Sample.page].
Proof.
  destruct (constructor_page_view ""
              (mkTrackerConfig None None None None None None None None None None None)
              Sample.page StorageDenied) as [Hnone _].
  destruct (Hnone eq_refl "site-9"%string) as (Hq & _).
  split; [exact Hq|].
  destruct (constructor_page_view "" (Sample.cfg 15 4) Sample.page
              (StorageItems [] true)) as [_ Hsome].
  destruct (Hsome ltac:(discriminate) ltac:(simpl; lia))
    as (ev & Hq' & _ & Hurl & _).
  unfold Sample.fresh. rewrite Hq'. simpl. rewrite Hurl. reflexivity.
Defined.

(** ** No event is lost or duplicated *)

Lemma flightOk_next (next next' : nat) (limit : Z) (e : nat * Flight) :
  (next <= next')%nat -> flightOk next limit e -> flightOk next' limit e.
Proof.
  unfold flightOk. intros Hn (Hid & Hp & Hs).
  split; [lia | split; assumption].
Qed.

Lemma findFlight_In (id : nat) (fs : list (nat * Flight)) (f : Flight) :
  findFlight id fs = Some f -> In (id, f) fs.
Proof.
  induction fs as [|[k g] fs IH]; simpl; [discriminate|].
  destruct (Nat.eqb id k) eqn:E.
  - apply Nat.eqb_eq in E. subst k. intro H. injection H as ->. left. reflexivity.
  - intro H. right. apply IH, H.
Qed.

Lemma putFlight_fresh (id : nat) (f : Flight) (fs : list (nat * Flight)) :
  ~ In id (map fst fs) -> putFlight id f fs = fs ++ [(id, f)].
Proof.
  induction fs as [|[k g] fs IH]; simpl; [reflexivity|].
  intro Hn. destruct (Nat.eqb id k) eqn:E.
  - apply Nat.eqb_eq in E. subst k. exfalso. apply Hn. left. reflexivity.
  - rewrite IH; [reflexivity|]. intro Hin. apply Hn. right. exact Hin.
Qed.

Lemma putFlight_ids (id : nat) (f f0 : Flight) (fs : list (nat * Flight)) :
  findFlight id fs = Some f0 -> map fst (putFlight id f fs) = map fst fs.
Proof.
  induction fs as [|[k g] fs IH]; simpl; [discriminate|].
  destruct (Nat.eqb id k) eqn:E.
  - apply Nat.eqb_eq in E. subst k. reflexivity.
  - intro H. simpl. rewrite IH by exact H. reflexivity.
Qed.

Lemma putFlight_batches (id : nat) (f f0 : Flight) (fs : list (nat * Flight)) :
  findFlight id fs = Some f0 ->
  f_batch f = f_batch f0 ->
  batchesOf (putFlight id f fs) = batchesOf fs.
Proof.
  unfold batchesOf.
  induction fs as [|[k g] fs IH]; simpl; [discriminate|].
  destruct (Nat.eqb id k) eqn:E.
  - intros H Hb. injection H as ->. simpl. rewrite Hb. reflexivity.
  - intros H Hb. simpl. rewrite IH by assumption. reflexivity.
Qed.

Lemma putFlight_Forall (P : nat * Flight -> Prop) (id : nat) (f : Flight)
    (fs : list (nat * Flight)) :
  P (id, f) -> Forall P fs -> Forall P (putFlight id f fs).
Proof.
  intros Hf Hall. induction Hall as [|[k g] fs Hg Hrest IH]; simpl.
  - constructor; [exact Hf | constructor].
  - destruct (Nat.eqb id k); constructor; assumption.
Qed.

Lemma dropFlight_fresh (id : nat) (fs : list (nat * Flight)) :
  ~ In id (map fst fs) -> dropFlight id fs = fs.
Proof.
  unfold dropFlight.
  induction fs as [|[k g] fs IH]; simpl; [reflexivity|].
  intro Hn. destruct (Nat.eqb id k) eqn:E; simpl.
  - apply Nat.eqb_eq in E. subst k. exfalso. apply Hn. left. reflexivity.
  - rewrite IH; [reflexivity|]. intro Hin. apply Hn. right. exact Hin.
Qed.

Lemma dropFlight_incl (id : nat) (fs : list (nat * Flight)) (e : nat * Flight) :
  In e (dropFlight id fs) -> In e fs.
Proof. unfold dropFlight. intro H. apply filter_In in H. tauto. Qed.

Lemma dropFlight_NoDup (id : nat) (fs : list (nat * Flight)) :
  NoDup (map fst fs) -> NoDup (map fst (dropFlight id fs)).
Proof.
  unfold dropFlight.
  induction fs as [|[k g] fs IH]; simpl; intro Hnd; [constructor|].
  inversion Hnd as [|? ? Hnotin Hrest]; subst.
  destruct (Nat.eqb id k); simpl; [apply IH, Hrest|].
  constructor; [|apply IH, Hrest].
  intro Hin. apply Hnotin. apply in_map_iff in Hin.
  destruct Hin as (e & He & Hine). apply in_map_iff. exists e.
  split; [exact He|]. apply filter_In in Hine. tauto.
Qed.

Lemma dropFlight_Forall (P : nat * Flight -> Prop) (id : nat)
    (fs : list (nat * Flight)) :
  Forall P fs -> Forall P (dropFlight id fs).
Proof.
  intro Hall. apply Forall_forall. intros e He.
  eapply Forall_forall; [exact Hall|]. apply dropFlight_incl in He. exact He.
Qed.

(** Taking a suspended flush out leaves the other batches and gives its
    own back. *)
Lemma dropFlight_batches (id : nat) (f : Flight) (fs : list (nat * Flight)) :
  NoDup (map fst fs) ->
  findFlight id fs = Some f ->
  Permutation (batchesOf fs) (f_batch f ++ batchesOf (dropFlight id fs)).
Proof.
  unfold batchesOf.
  induction fs as [|[k g] fs IH]; simpl; intros Hnd Hfind; [discriminate|].
  inversion Hnd as [|? ? Hnotin Hrest]; subst.
  destruct (Nat.eqb id k) eqn:E.
  - apply Nat.eqb_eq in E. subst k. injection Hfind as ->.
    unfold dropFlight. simpl.
    fold (dropFlight id fs). rewrite dropFlight_fresh by exact Hnotin.
    apply Permutation_refl.
  - unfold dropFlight. simpl. fold (dropFlight id fs).
    rewrite (IH Hrest Hfind).
    rewrite !app_assoc. apply Permutation_app_tail, Permutation_app_comm.
Qed.

Lemma tryBeacon_taken (h : Host) (p : Payload) (sync : bool) :
  snd (tryBeacon h p sync) = true ->
  fst (tryBeacon h p sync) = [EBeacon p (Some true)].
Proof.
  unfold tryBeacon. destruct sync; [|discriminate].
  destruct (h_beacon h) as [|[|]|]; simpl; intro H;
    try reflexivity; discriminate.
Qed.

Lemma wellFormed_nextFlight_fresh (w : World) :
  wellFormed w -> ~ In (nextFlight w) (map fst (flights w)).
Proof.
  intros [_ Hall] Hin. apply in_map_iff in Hin.
  destruct Hin as (e & He & Hine).
  pose proof (proj1 (Forall_forall _ _) Hall e Hine) as (Hlt & _).
  rewrite He in Hlt. lia.
Qed.

Section Shuffles.

Context {A : Type}.
Implicit Types q f d b : list A.

Lemma shuffle_delivered q f d :
  Permutation ([] ++ f ++ d ++ q) (q ++ f ++ d).
Proof.
  simpl. rewrite app_assoc. apply Permutation_app_comm.
Qed.

Lemma shuffle_suspended q f d :
  Permutation ([] ++ (f ++ q) ++ d) (q ++ f ++ d).
Proof.
  simpl. rewrite <- app_assoc.
  rewrite (app_assoc q f d), (app_assoc f q d).
  apply Permutation_app_tail, Permutation_app_comm.
Qed.

Lemma shuffle_settled q f f' d b :
  Permutation f (b ++ f') ->
  Permutation (q ++ f' ++ d ++ b) (q ++ f ++ d).
Proof.
  intro Hf. apply Permutation_app_head.
  rewrite Hf, <- app_assoc.
  rewrite (app_assoc f' d b). apply Permutation_app_comm.
Qed.

Lemma shuffle_requeued q f f' d b :
  Permutation f (b ++ f') ->
  Permutation ((b ++ q) ++ f' ++ d) (q ++ f ++ d).
Proof.
  intro Hf. rewrite Hf, <- !app_assoc.
  rewrite (app_assoc b q), (app_assoc q b).
  apply Permutation_app_tail, Permutation_app_comm.
Qed.

Lemma shuffle_admitted q f d b :
  Permutation ((q ++ b) ++ f ++ d) ((q ++ f ++ d) ++ b).
Proof.
  rewrite <- !app_assoc. apply Permutation_app_head.
  rewrite (app_assoc f d b). apply Permutation_app_comm.
Qed.

End Shuffles.

Lemma holdings_eq (w : World) :
  holdings w
  = queue (tracker w) ++ batchesOf (flights w)
      ++ flat_map p_events (deliveredOf (trace w)).
Proof. reflexivity. Qed.

Lemma batchesOf_app (a b : list (nat * Flight)) :
  batchesOf (a ++ b) = batchesOf a ++ batchesOf b.
Proof. apply flat_map_app. Qed.

Section Accounting.

Variable w : World.
Hypothesis Hwf : wellFormed w.
Hypothesis Hmax : 1 <= maxAttempts (transport (tracker w)).

Lemma flush_holdings (sync : bool) :
  wellFormed (flush sync w)
  /\ Permutation (holdings (flush sync w)) (holdings w).
Proof.
  destruct (queue (tracker w)) as [|e0 q0] eqn:Hq.
  { rewrite flush_empty_queue by exact Hq. split; [exact Hwf | reflexivity]. }
  destruct (siteId (config (tracker w))) as [|c0 s0] eqn:Hs.
  { rewrite flush_no_siteId by exact Hs. split; [exact Hwf | reflexivity]. }
  assert (Hq' : queue (tracker w) <> []) by (rewrite Hq; discriminate).
  assert (Hs' : siteId (config (tracker w)) <> ""%string)
    by (rewrite Hs; discriminate).
  clear Hq Hs.
  pose proof (wellFormed_nextFlight_fresh w Hwf) as Hfresh.
  destruct Hwf as [Hnd Hall].
  destruct (snd (tryBeacon (host w) (bodyOf w) sync)) eqn:Hb.
  - (* the beacon took the body *)
    assert (Hflush : flush sync w
                     = snapshot [ESend (bodyOf w) sync; EBeacon (bodyOf w) (Some true)]
                         w).
    { rewrite (flush_eq sync w Hq' Hs'). unfold send.
      pose proof (tryBeacon_taken _ _ _ Hb) as Ht.
      destruct (tryBeacon (host w) (bodyOf w) sync) as [tried ok].
      cbn [fst snd] in Hb, Ht. subst ok tried. reflexivity. }
    rewrite Hflush. split.
    + split; [exact Hnd|].
      cbn [snapshot flights nextFlight tracker setQueue setTracker transport].
      eapply Forall_impl; [|exact Hall]. intro e. apply flightOk_next. lia.
    + rewrite !holdings_eq.
      cbn [snapshot tracker setQueue setTracker queue flights trace].
      rewrite deliveredOf_app, flat_map_app.
      change (flat_map p_events
                (deliveredOf [ESend (bodyOf w) sync; EBeacon (bodyOf w) (Some true)]))
        with (queue (tracker w) ++ []).
      rewrite app_nil_r. apply shuffle_delivered.
  - (* the first fetch goes out *)
    rewrite (flush_first_attempt sync w Hq' Hs' Hmax Hb).
    rewrite putFlight_fresh by exact Hfresh. split.
    + split; cbn [setFlights snapshot flights nextFlight tracker setQueue
                    setTracker transport].
      * rewrite map_app. apply NoDup_app; [exact Hnd | repeat constructor; intros [] |].
        intros a Ha [<- | []]. exact (Hfresh Ha).
      * apply Forall_app. split.
        -- eapply Forall_impl; [|exact Hall]. intro e. apply flightOk_next. lia.
        -- constructor; [|constructor]. unfold flightOk. simpl.
           split; [lia | split; [reflexivity | exact I]].
    + rewrite !holdings_eq.
      cbn [setFlights snapshot tracker setQueue setTracker queue flights trace].
      rewrite batchesOf_app.
      change (batchesOf [(nextFlight w, _)]) with (queue (tracker w) ++ []).
      rewrite app_nil_r.
      assert (Hd : deliveredOf
                     (trace w
                        ++ ESend (bodyOf w) sync
                        :: fst (tryBeacon (host w) (bodyOf w) sync)
                        ++ [EFetch (bodyOf w) sync])
                   = deliveredOf (trace w)).
      { change (ESend (bodyOf w) sync :: ?l) with ([ESend (bodyOf w) sync] ++ l).
        rewrite !deliveredOf_app, (tryBeacon_refused _ _ _ Hb). simpl.
        apply app_nil_r. }
      rewrite Hd. apply shuffle_suspended.
Qed.

End Accounting.

Lemma wellFormed_frame (w w' : World) :
  flights w' = flights w ->
  nextFlight w' = nextFlight w ->
  transport (tracker w') = transport (tracker w) ->
  wellFormed w -> wellFormed w'.
Proof.
  unfold wellFormed. intros Hf Hn Ht. rewrite Hf, Hn, Ht. tauto.
Qed.

Lemma enqueue_holdings (ev : TrackerEvent) (w : World) :
  wellFormed w ->
  1 <= maxAttempts (transport (tracker w)) ->
  wellFormed (enqueue ev w)
  /\ Permutation (holdings (enqueue ev w))
       (holdings w ++ admittedOf (tracker w) [ev]).
Proof.
  intros Hwf Hmax. unfold admittedOf. cbn [filter].
  destruct (admits (tracker w) ev) eqn:Ha.
  - rewrite (enqueue_admitted ev w Ha). cbv zeta. cbn [map].
    set (w1 := setQueue (queue (tracker w) ++ [attachSession (tracker w) ev]) w).
    assert (Hwf1 : wellFormed w1)
      by (apply (wellFormed_frame w w1); try reflexivity; exact Hwf).
    assert (Hh1 : Permutation (holdings w1)
                    (holdings w ++ [attachSession (tracker w) ev])).
    { rewrite !holdings_eq. apply shuffle_admitted. }
    destruct (_ >=? _); [|split; assumption].
    destruct (flush_holdings w1 Hwf1 Hmax false) as [Hwf2 Hh2].
    split; [exact Hwf2|]. rewrite Hh2. exact Hh1.
  - rewrite (enqueue_rejected ev w Ha). cbn [map]. rewrite app_nil_r.
    split; [exact Hwf | reflexivity].
Qed.

Lemma wellFormed_flight (w : World) (id : nat) (f : Flight) :
  wellFormed w ->
  findFlight id (flights w) = Some f ->
  flightOk (nextFlight w) (maxAttempts (transport (tracker w))) (id, f).
Proof.
  intros [_ Hall] Hfind.
  exact (proj1 (Forall_forall _ _) Hall _ (findFlight_In _ _ _ Hfind)).
Qed.

Lemma fetchSettled_holdings (id : nat) (res : FetchResult) (w : World) :
  wellFormed w ->
  wellFormed (fetchSettled id res w)
  /\ Permutation (holdings (fetchSettled id res w)) (holdings w).
Proof.
  intro Hwf.
  destruct (findFlight id (flights w)) as [f|] eqn:Hfind;
    [|unfold fetchSettled; rewrite Hfind; split; [exact Hwf | reflexivity]].
  destruct (f_state f) as [a d | a d] eqn:Hst;
    [|unfold fetchSettled; rewrite Hfind, Hst; split; [exact Hwf | reflexivity]].
  destruct (wellFormed_flight w id f Hwf Hfind) as (Hid & Hpay & _).
  cbn [fst snd] in Hid, Hpay.
  destruct Hwf as [Hnd Hall].
  pose proof (dropFlight_batches id f (flights w) Hnd Hfind) as Hdrop.
  destruct (resOk res) eqn:Hok.
  - rewrite (fetchSettled_delivered id f a d w Hfind res Hst Hok). split.
    + split; cbn [setFlights emit flights nextFlight tracker transport].
      * apply dropFlight_NoDup, Hnd.
      * apply dropFlight_Forall, Hall.
    + rewrite !holdings_eq. cbn [setFlights emit tracker queue flights trace].
      rewrite deliveredOf_app, flat_map_app. cbn [deliveredOf flat_map].
      rewrite Hok. cbn [flat_map app]. rewrite !app_nil_r, Hpay.
      apply shuffle_settled, Hdrop.
  - destruct (Z_lt_le_dec a (maxAttempts (transport (tracker w)))) as [Hlt | Hge].
    + rewrite (fetchSettled_backoff id f a d w Hfind res Hst Hok Hlt). split.
      * split; cbn [setFlights setRandPos emit flights nextFlight tracker transport].
        -- rewrite (putFlight_ids id _ f _ Hfind). exact Hnd.
        -- apply putFlight_Forall; [|exact Hall].
           unfold flightOk. cbn [fst snd f_payload f_batch f_state].
           split; [exact Hid | split; [exact Hpay | exact Hlt]].
      * rewrite !holdings_eq.
        cbn [setFlights setRandPos emit tracker queue flights trace].
        erewrite putFlight_batches; [| exact Hfind | reflexivity].
        rewrite deliveredOf_app. cbn [deliveredOf flat_map]. rewrite Hok.
        cbn [app]. rewrite app_nil_r. reflexivity.
    + rewrite (fetchSettled_exhausted id f a d w Hfind res Hst Hok Hge). split.
      * split; cbn [setQueue setTracker setFlights emit flights nextFlight tracker
                      transport].
        -- apply dropFlight_NoDup, Hnd.
        -- apply dropFlight_Forall, Hall.
      * rewrite !holdings_eq.
        cbn [setQueue setTracker setFlights emit tracker queue flights trace].
        rewrite deliveredOf_app. cbn [deliveredOf flat_map]. rewrite Hok.
        cbn [app]. rewrite app_nil_r.
        apply shuffle_requeued, Hdrop.
Qed.

Lemma timerFired_holdings (id : nat) (w : World) :
  wellFormed w ->
  wellFormed (timerFired id w)
  /\ Permutation (holdings (timerFired id w)) (holdings w).
Proof.
  intro Hwf.
  destruct (findFlight id (flights w)) as [f|] eqn:Hfind;
    [|unfold timerFired; rewrite Hfind; split; [exact Hwf | reflexivity]].
  destruct (f_state f) as [a d | a d] eqn:Hst;
    [unfold timerFired; rewrite Hfind, Hst; split; [exact Hwf | reflexivity]|].
  destruct (wellFormed_flight w id f Hwf Hfind) as (Hid & Hpay & Hlt).
  cbn [fst snd] in Hid, Hpay, Hlt. rewrite Hst in Hlt.
  destruct Hwf as [Hnd Hall].
  rewrite (timerFired_retry id f a d w Hfind Hst Hlt). split.
  - split; cbn [setFlights emit flights nextFlight tracker transport].
    + rewrite (putFlight_ids id _ f _ Hfind). exact Hnd.
    + apply putFlight_Forall; [|exact Hall].
      unfold flightOk. cbn [fst snd f_payload f_batch f_state].
      split; [exact Hid | split; [exact Hpay | exact I]].
  - rewrite !holdings_eq. cbn [setFlights emit tracker queue flights trace].
    erewrite putFlight_batches; [| exact Hfind | reflexivity].
    rewrite deliveredOf_app. cbn [deliveredOf flat_map app].
    rewrite app_nil_r. reflexivity.
Qed.

Lemma createOrRestoreSession_delivered (w : World) :
  deliveredOf (trace (snd (createOrRestoreSession w))) = deliveredOf (trace w).
Proof.
  unfold createOrRestoreSession.
  destruct (storage w) as [|items writable].
  - draw_uuid. reflexivity.
  - destruct (assocGet sessionKey items) as [[|c rest]|];
      try reflexivity;
      draw_uuid; destruct writable;
      try (cbn [snd emit trace setStorage setRandPos];
           rewrite deliveredOf_app; apply app_nil_r);
      draw_uuid; reflexivity.
Qed.

Lemma grantConsent_delivered (w : World) :
  deliveredOf (trace (grantConsent w)) = deliveredOf (trace w).
Proof.
  unfold grantConsent. destruct (hasConsent (tracker w)); [reflexivity|].
  match goal with
  | |- context [createOrRestoreSession ?w1] =>
      pose proof (createOrRestoreSession_delivered w1) as Hd;
      destruct (createOrRestoreSession w1) as [id w2]
  end.
  cbn [snd] in Hd. cbn [emit trace setTracker].
  rewrite deliveredOf_app, Hd. apply app_nil_r.
Qed.

Lemma step_transport (w : World) (op : Op) :
  transport (tracker (step w op)) = transport (tracker w).
Proof.
  assert (Hkeep : forall w', settings (tracker w') = settings (tracker w) ->
            transport (tracker w') = transport (tracker w)).
  { intros w' H. apply (settings_config _ _ H). }
  destruct op; cbn [step];
    try (apply Hkeep;
         first [apply enqueue_settings | apply flush_settings
               | apply fetchSettled_settings | apply timerFired_settings]);
    try reflexivity.
  - unfold setSiteId. destruct (negb (truthy s)); reflexivity.
  - apply grantConsent_config.
  - unfold setCustomDimension. destruct (negb (truthy name));
      [|destruct (String.eqb name "__proto__")]; reflexivity.
  - destruct (hasConsent (tracker w)); [|reflexivity].
    apply Hkeep, enqueue_settings.
Qed.

(** One operation of the event loop keeps the suspended flushes in order
    and moves events only between the queue, the suspended batches and the
    delivered bodies; a producer adds the one event it gets admitted. *)
Lemma step_holdings (w : World) (op : Op) :
  wellFormed w ->
  1 <= maxAttempts (transport (tracker w)) ->
  wellFormed (step w op)
  /\ Permutation (holdings (step w op))
       (holdings w
          ++ match producedEvent op w with
             | Some ev => admittedOf (tracker w) [ev]
             | None => []
             end).
Proof.
  intros Hwf Hmax.
  destruct op; cbn [step producedEvent];
    try (apply enqueue_holdings; assumption);
    try (rewrite app_nil_r).
  - unfold setSiteId. destruct (negb (truthy s)); split;
      first [exact Hwf | reflexivity].
  - destruct (grantConsent_config w) as (_ & Ht & Hq & Hf & Hn). split.
    + apply (wellFormed_frame w); assumption.
    + rewrite !holdings_eq, Hq, Hf, grantConsent_delivered. reflexivity.
  - unfold setCustomDimension. destruct (negb (truthy name));
      [|destruct (String.eqb name "__proto__")]; split;
      first [exact Hwf | reflexivity].
  - apply flush_holdings; assumption.
  - apply flush_holdings; assumption.
  - apply flush_holdings; assumption.
  - destruct (hasConsent (tracker w)).
    + apply enqueue_holdings; assumption.
    + rewrite app_nil_r. split; [exact Hwf | reflexivity].
  - apply fetchSettled_holdings; assumption.
  - apply timerFired_holdings; assumption.
  - split; [exact Hwf | reflexivity].
Qed.

Lemma construct_wellFormed (env : string) (c : TrackerConfig) (h : Host)
    (s : SessionStorage) :
  1 <= orDefault (tc_retryMaxAttempts c) 4 ->
  wellFormed (construct env c h s).
Proof.
  intro Hmax. unfold construct, trackPage.
  apply enqueue_holdings; [|exact Hmax].
  split; [constructor | constructor].
Qed.

Lemma run_holdings (ops : list Op) (w : World) :
  wellFormed w ->
  1 <= maxAttempts (transport (tracker w)) ->
  wellFormed (run ops w)
  /\ Permutation (holdings (run ops w)) (holdings w ++ producedBy ops w).
Proof.
  revert w. induction ops as [|op ops IH]; intros w Hwf Hmax.
  - simpl. rewrite app_nil_r. split; [exact Hwf | reflexivity].
  - destruct (step_holdings w op Hwf Hmax) as [Hwf1 Hp1].
    assert (Hmax1 : 1 <= maxAttempts (transport (tracker (step w op))))
      by (rewrite step_transport; exact Hmax).
    destruct (IH (step w op) Hwf1 Hmax1) as [Hwf2 Hp2].
    cbn [run fold_left producedBy]. fold (run ops (step w op)).
    split; [exact Hwf2|].
    rewrite Hp2, Hp1, <- app_assoc. reflexivity.
Qed.

Section Stringify.

Variable stringifies : list TrackerEvent -> bool.
Hypothesis Hjson : forall batch, stringifies batch = true.

Lemma flushJson_flush (sync : bool) (w : World) :
  flushJson stringifies sync w = flush sync w.
Proof.
  unfold flushJson.
  destruct (queue (tracker w)) as [|e q] eqn:Hq.
  - symmetry. apply flush_empty_queue. exact Hq.
  - destruct (siteId (config (tracker w))) as [|c0 s0] eqn:Hs.
    + symmetry. apply flush_no_siteId. exact Hs.
    + cbn [truthy negb]. rewrite Hjson. reflexivity.
Qed.

Lemma enqueueJson_enqueue (ev : TrackerEvent) (w : World) :
  enqueueJson stringifies ev w = enqueue ev w.
Proof.
  unfold enqueueJson, enqueue. rewrite flushJson_flush. reflexivity.
Qed.

Lemma stepJson_step (w : World) (op : Op) : stepJson stringifies w op = step w op.
Proof.
  unfold stepJson.
  destruct op; cbn [producedEvent step];
    rewrite ?enqueueJson_enqueue, ?flushJson_flush; try reflexivity.
  destruct (hasConsent (tracker w));
    rewrite ?enqueueJson_enqueue; reflexivity.
Qed.

Lemma runJson_run (ops : list Op) (w : World) : runJson stringifies ops w = run ops w.
Proof.
  revert w. induction ops as [|op ops IH]; intro w; [reflexivity|].
  cbn [runJson run fold_left]. rewrite stepJson_step. apply IH.
Qed.

End Stringify.

(** No event is lost or duplicated as long as [JSON.stringify] accepts
    every batch and at least one attempt is allowed: in every run of the
    event loop from a newly constructed tracker the events in the queue, in
    the batches of the suspended flushes and in the delivered bodies (a
    beacon the host accepted counts as delivered) are, counted with
    multiplicity, exactly those the constructor queued plus those the run's
    producers got admitted; the same holds from any world whose suspended
    flushes are in order. A batch [JSON.stringify] rejects is lost whole:
    [flush] has cleared the queue by then, and it neither sends nor
    re-queues anything. *)
Theorem no_event_lost_or_duplicated (stringifies : list TrackerEvent -> bool)
    (ops : list Op) :
  ((forall batch, stringifies batch = true) ->
   (forall env c h s,
       1 <= orDefault (tc_retryMaxAttempts c) 4 ->
       Permutation (holdings (runJson stringifies ops (construct env c h s)))
         (holdings (construct env c h s) ++ producedBy ops (construct env c h s)))
   /\ (forall w,
          wellFormed w ->
          1 <= maxAttempts (transport (tracker w)) ->
          wellFormed (runJson stringifies ops w)
          /\ Permutation (holdings (runJson stringifies ops w))
               (holdings w ++ producedBy ops w)))
  /\ (forall sync w,
         queue (tracker w) <> [] ->
         siteId (config (tracker w)) <> ""%string ->
         stringifies (queue (tracker w)) = false ->
         flushJson stringifies sync w = setQueue [] w
         /\ holdings (flushJson stringifies sync w)
            = inFlight w ++ deliveredEvents w
         /\ trace (flushJson stringifies sync w) = trace w).
Proof.
  split.
  - intro Hjson. split.
    + intros env c h s Hmax. rewrite (runJson_run stringifies Hjson).
      apply run_holdings; [apply construct_wellFormed; exact Hmax|].
      rewrite (proj2 (settings_config _ _
                        (enqueue_settings _ _
                         : settings (tracker (construct env c h s)) = _))).
      exact Hmax.
    + intros w Hwf Hmax. rewrite (runJson_run stringifies Hjson).
      apply run_holdings; assumption.
  - intros sync w Hq Hs Hno.
    assert (Hflush : flushJson stringifies sync w = setQueue [] w).
    { unfold flushJson.
      destruct (queue (tracker w)) as [|e q]; [contradiction|].
      destruct (siteId (config (tracker w))) as [|c0 s0]; [contradiction|].
      cbn [truthy negb]. rewrite Hno. reflexivity. }
    rewrite Hflush. repeat split.
Qed.

Lemma no_event_lost_or_duplicated_witness :
  Permutation
    (holdings
       (runJson (fun _ => true)
          [TrackPage (Some "/b") None; AutoFlush; TrackPage (Some "/c") None;
           FetchSettled 0 (Response 503); TrackPage (Some "/d") None;
           FetchSettled 1 (Response 200)]%string
          (Sample.fresh 2 1)))
    (holdings (Sample.fresh 2 1)
       ++ producedBy
            [TrackPage (Some "/b") None; AutoFlush; TrackPage (Some "/c") None;
             FetchSettled 0 (Response 503); TrackPage (Some "/d") None;
             FetchSettled 1 (Response 200)]%string
            (Sample.fresh 2 1))
  /\ List.length (holdings (Sample.fresh 2 1)) = 1%nat
  /\ holdings (flushJson (fun _ => false) false (Sample.fresh 2 1)) = [].
Proof.
  split; [|split; [reflexivity|]].
  - destruct (no_event_lost_or_duplicated (fun _ => true)
                [TrackPage (Some "/b") None; AutoFlush; TrackPage (Some "/c") None;
                 FetchSettled 0 (Response 503); TrackPage (Some "/d") None;
                 FetchSettled 1 (Response 200)]%string) as [Hkept _].
    destruct (Hkept (fun _ => eq_refl)) as [Hnew _].
    apply (Hnew ""%string (Sample.cfg 2 1) Sample.page (StorageItems [] true)).
    simpl. lia.
  - destruct (no_event_lost_or_duplicated (fun _ => false) []) as [_ Hlost].
    destruct (Hlost false (Sample.fresh 2 1) ltac:(vm_compute; discriminate)
                ltac:(vm_compute; discriminate) eq_refl) as (_ & Hh & _).
    rewrite Hh. reflexivity.
Defined.

(** ** No session id before consent *)

Lemma send_bodies (t : Transport) (h : Host) (p : Payload) (sync : bool) :
  Forall (eq p) (bodiesOf (fst (send t h p sync))).
Proof.
  unfold send, sendLoop, tryBeacon.
  destruct sync; [destruct (h_beacon h) as [|[|]|]|];
    cbn [fst]; try (destruct (0 <? maxAttempts t)); cbn;
    repeat constructor.
Qed.

Lemma sendFetchSettled_bodies (t : Transport) (h : Host) (pos : nat) (p : Payload)
    (a d : Z) (res : FetchResult) :
  Forall (eq p) (bodiesOf (fst (fst (sendFetchSettled t h pos p a d res)))).
Proof.
  unfold sendFetchSettled.
  destruct (resOk res); [|destruct (a >=? maxAttempts t)]; cbn;
    repeat constructor.
Qed.

Lemma sendTimerFired_bodies (t : Transport) (p : Payload) (sync : bool) (a d : Z) :
  Forall (eq p) (bodiesOf (fst (sendTimerFired t p sync a d))).
Proof.
  unfold sendTimerFired, sendLoop.
  destruct (a <? maxAttempts t); cbn; repeat constructor.
Qed.

Lemma bodiesOf_app (a b : list Effect) : bodiesOf (a ++ b) = bodiesOf a ++ bodiesOf b.
Proof. apply flat_map_app. Qed.

Lemma Forall_eq_impl {A} (P : A -> Prop) (x : A) (l : list A) :
  P x -> Forall (eq x) l -> Forall P l.
Proof.
  intros Hx Hall. eapply Forall_impl; [|exact Hall]. intros y <-. exact Hx.
Qed.

Lemma flush_sessionFree (sync : bool) (w : World) :
  sessionFree w -> sessionFree (flush sync w).
Proof.
  intros (Hid & Hq & Hf & Hb).
  destruct (queue (tracker w)) as [|e0 q0] eqn:Eq.
  { rewrite flush_empty_queue by exact Eq. repeat split; try assumption.
    rewrite Eq. constructor. }
  destruct (siteId (config (tracker w))) as [|c0 s0] eqn:Es.
  { rewrite flush_no_siteId by exact Es. repeat split; try assumption.
    rewrite Eq. exact Hq. }
  rewrite flush_eq by (rewrite ?Eq, ?Es; discriminate). cbv zeta.
  rewrite <- Eq in Hq.
  pose proof (send_bodies (transport (tracker w)) (host w) (bodyOf w) sync) as Hs.
  assert (Hbody : Forall noSession (p_events (bodyOf w))) by exact Hq.
  assert (Htrace : Forall (fun p => Forall noSession (p_events p))
                     (bodiesOf
                        (trace w
                           ++ fst (send (transport (tracker w)) (host w) (bodyOf w)
                                     sync)))).
  { rewrite bodiesOf_app. apply Forall_app. split; [exact Hb|].
    eapply Forall_eq_impl; [exact Hbody | exact Hs]. }
  destruct (send _ _ _ sync) as [effs status]. cbn [fst snd] in *.
  destruct status as [| err | st]; unfold sessionFree;
    cbn [flushTail setFlights setQueue setTracker snapshot tracker sessionId queue
           flights trace].
  - repeat split; try assumption. constructor.
  - repeat split; try assumption. rewrite app_nil_r. exact Hq.
  - repeat split; try assumption; [constructor|].
    apply putFlight_Forall; [|exact Hf]. split; assumption.
Qed.

Lemma enqueue_sessionFree (ev : TrackerEvent) (w : World) :
  noSession ev -> sessionFree w -> sessionFree (enqueue ev w).
Proof.
  intros Hev Hw.
  destruct (admits (tracker w) ev) eqn:Ha;
    [|rewrite enqueue_rejected by exact Ha; exact Hw].
  rewrite (enqueue_admitted ev w Ha). cbv zeta.
  assert (Hw1 : sessionFree
                  (setQueue (queue (tracker w) ++ [attachSession (tracker w) ev]) w)).
  { destruct Hw as (Hid & Hq & Hf & Hb). unfold sessionFree.
    cbn [setQueue setTracker tracker sessionId queue flights trace].
    repeat split; try assumption.
    apply Forall_app. split; [exact Hq|].
    constructor; [|constructor].
    unfold attachSession. rewrite Hid. exact Hev. }
  destruct (_ >=? _); [apply flush_sessionFree|]; exact Hw1.
Qed.

Lemma resume_sessionFree (id : nat) (f : Flight) (status : SendStatus)
    (w : World) :
  Forall noSession (f_batch f) ->
  Forall noSession (p_events (f_payload f)) ->
  sessionFree w -> sessionFree (resume id f status w).
Proof.
  intros Hbatch Hpay (Hid & Hq & Hf & Hb).
  destruct status as [| err | st]; unfold sessionFree;
    cbn [resume flushTail setFlights setQueue setTracker tracker sessionId queue
           flights trace].
  - repeat split; try assumption. apply dropFlight_Forall, Hf.
  - repeat split; try assumption.
    + apply Forall_app. split; assumption.
    + apply dropFlight_Forall, Hf.
  - repeat split; try assumption.
    apply putFlight_Forall; [|exact Hf]. split; assumption.
Qed.

Lemma emit_sessionFree (effs : list Effect) (w : World) :
  Forall (fun p => Forall noSession (p_events p)) (bodiesOf effs) ->
  sessionFree w -> sessionFree (emit effs w).
Proof.
  intros He (Hid & Hq & Hf & Hb). unfold sessionFree.
  cbn [emit tracker flights trace]. repeat split; try assumption.
  rewrite bodiesOf_app. apply Forall_app. split; assumption.
Qed.

Lemma fetchSettled_sessionFree (id : nat) (res : FetchResult) (w : World) :
  sessionFree w -> sessionFree (fetchSettled id res w).
Proof.
  intro Hw. unfold fetchSettled.
  destruct (findFlight id (flights w)) as [f|] eqn:Hfind; [|exact Hw].
  destruct (f_state f) as [a d | a d]; [|exact Hw].
  assert (Hfl : Forall noSession (f_batch f)
                /\ Forall noSession (p_events (f_payload f))).
  { destruct Hw as (_ & _ & Hf & _).
    exact (proj1 (Forall_forall _ _) Hf _ (findFlight_In _ _ _ Hfind)). }
  destruct Hfl as [Hbatch Hpay].
  pose proof (sendFetchSettled_bodies (transport (tracker w)) (host w) (randPos w)
                (f_payload f) a d res) as Hs.
  destruct (sendFetchSettled _ _ _ _ _ _ _) as [[effs status] pos].
  cbn [fst] in Hs.
  apply resume_sessionFree; [exact Hbatch | exact Hpay|].
  assert (He : sessionFree (emit effs w)).
  { apply emit_sessionFree; [|exact Hw].
    eapply Forall_eq_impl; [exact Hpay | exact Hs]. }
  exact He.
Qed.

Lemma timerFired_sessionFree (id : nat) (w : World) :
  sessionFree w -> sessionFree (timerFired id w).
Proof.
  intro Hw. unfold timerFired.
  destruct (findFlight id (flights w)) as [f|] eqn:Hfind; [|exact Hw].
  destruct (f_state f) as [a d | a d]; [exact Hw|].
  assert (Hfl : Forall noSession (f_batch f)
                /\ Forall noSession (p_events (f_payload f))).
  { destruct Hw as (_ & _ & Hf & _).
    exact (proj1 (Forall_forall _ _) Hf _ (findFlight_In _ _ _ Hfind)). }
  destruct Hfl as [Hbatch Hpay].
  pose proof (sendTimerFired_bodies (transport (tracker w)) (f_payload f) (f_sync f)
                a d) as Hs.
  destruct (sendTimerFired _ _ _ _ _) as [effs status]. cbn [fst] in Hs.
  apply resume_sessionFree; [exact Hbatch | exact Hpay|].
  apply emit_sessionFree; [|exact Hw].
  eapply Forall_eq_impl; [exact Hpay | exact Hs].
Qed.

Lemma buildEvent_noSession (type : string) (ov : Overrides) (w : World) :
  sessionId (tracker w) = ""%string -> noSession (buildEvent type ov w).
Proof.
  intro Hid. unfold noSession, buildEvent. cbn [ev_sessionId].
  rewrite Hid. reflexivity.
Qed.

Lemma step_sessionFree (w : World) (op : Op) :
  op <> GrantConsent -> sessionFree w -> sessionFree (step w op).
Proof.
  intros Hop Hw.
  assert (Hid : sessionId (tracker w) = ""%string) by apply Hw.
  destruct op; cbn [step];
    try (apply enqueue_sessionFree; [apply buildEvent_noSession, Hid | exact Hw]);
    try (apply flush_sessionFree, Hw).
  - unfold setSiteId. destruct (negb (truthy s)); exact Hw.
  - contradiction.
  - unfold setCustomDimension. destruct (negb (truthy name));
      [|destruct (String.eqb name "__proto__")]; exact Hw.
  - destruct (hasConsent (tracker w)); [|exact Hw].
    apply enqueue_sessionFree; [apply buildEvent_noSession, Hid | exact Hw].
  - apply fetchSettled_sessionFree, Hw.
  - apply timerFired_sessionFree, Hw.
  - exact Hw.
Qed.

(** Until [grantConsent] is called nothing carries a session id: in every
    world a new tracker reaches without that call, the tracker's session
    id is empty, and no event in the queue, in a suspended flush or in any
    body handed to [sendBeacon] or [fetch] has one. *)
Theorem no_session_id_before_consent (env : string) (c : TrackerConfig)
    (h : Host) (s : SessionStorage) (ops : list Op) :
  ~ In GrantConsent ops ->
  sessionId (tracker (run ops (construct env c h s))) = ""%string
  /\ (forall ev,
        In ev (queue (tracker (run ops (construct env c h s)))
                 ++ inFlight (run ops (construct env c h s))) ->
        ev_sessionId ev = None)
  /\ (forall p ev,
        In p (bodiesOf (trace (run ops (construct env c h s)))) ->
        In ev (p_events p) ->
        ev_sessionId ev = None).
Proof.
  intro Hno.
  assert (Hstart : sessionFree (construct env c h s)).
  { unfold construct, trackPage.
    apply enqueue_sessionFree; [apply buildEvent_noSession; reflexivity|].
    repeat split; constructor. }
  assert (Hrun : sessionFree (run ops (construct env c h s))).
  { revert Hno Hstart. generalize (construct env c h s) as w.
    induction ops as [|op ops IH]; intros w Hno Hw; [exact Hw|].
    apply IH.
    - intro Hin. apply Hno. right. exact Hin.
    - apply step_sessionFree; [|exact Hw].
      intro E. apply Hno. left. exact E. }
  destruct Hrun as (Hid & Hq & Hf & Hb).
  split; [exact Hid|]. split.
  - intros ev Hin. apply in_app_or in Hin. destruct Hin as [Hin | Hin].
    + exact (proj1 (Forall_forall _ _) Hq ev Hin).
    + unfold inFlight in Hin. apply in_flat_map in Hin.
      destruct Hin as (e & He & Hev).
      destruct (proj1 (Forall_forall _ _) Hf e He) as [Hbatch _].
      exact (proj1 (Forall_forall _ _) Hbatch ev Hev).
  - intros p ev Hp Hev.
    exact (proj1 (Forall_forall _ _)
             (proj1 (Forall_forall _ _) Hb p Hp) ev Hev).
Qed.

Lemma no_session_id_before_consent_witness :
  sessionId
    (tracker
       (run [TrackPage (Some "/b") None; FlushNow;
             FetchSettled 0 (Response 500); TimerFired 0;
             TrackEvent "Form" "Submit" None None None]%string
          (Sample.fresh 15 4))) = ""%string.
Proof.
  destruct (no_session_id_before_consent "" (Sample.cfg 15 4) Sample.page
              (StorageItems [] true)
              [TrackPage (Some "/b") None; FlushNow;
               FetchSettled 0 (Response 500); TimerFired 0;
               TrackEvent "Form" "Submit" None None None]%string
              ltac:(simpl; intuition discriminate)) as (Hid & _ & _).
  exact Hid.
Defined.

(** ** The collection endpoint *)

Lemma serve_store (reqs : list HttpRequest) :
  forall stored, snd (serve reqs stored) = stored ++ postedEvents reqs.
Proof.
  induction reqs as [|req reqs IH]; intro stored.
  - simpl. rewrite app_nil_r. reflexivity.
  - cbn [serve postedEvents flat_map].
    fold (postedEvents reqs).
    destruct (handler req stored) as [res stored1] eqn:Hh.
    specialize (IH stored1).
    destruct (serve reqs stored1) as [replies stored2]. cbn [snd] in *.
    rewrite IH. unfold handler in Hh.
    destruct (String.eqb (req_method req) "POST").
    + destruct (req_body req); injection Hh as _ <-;
        rewrite <- ?app_assoc; reflexivity.
    + destruct (String.eqb (req_method req) "GET"); injection Hh as _ <-;
        reflexivity.
Qed.

(** The endpoint's store is append-only. After any run of requests it is
    the store from before followed by the events of the readable [POST]
    bodies in order of arrival; requests with another method or a body that
    cannot be read leave it as it is, and a [GET] that follows returns
    exactly that list with status 200. *)
Theorem endpoint_store_append_only (reqs : list HttpRequest)
    (stored : list TrackerEvent) (body : option Payload) :
  snd (serve reqs stored) = stored ++ postedEvents reqs
  /\ handler (mkRequest "GET" body) (snd (serve reqs stored))
     = (mkResponse 200 (ReplyEvents (stored ++ postedEvents reqs)),
        stored ++ postedEvents reqs)
  /\ (forall req,
        req_method req <> "POST"%string \/ req_body req = None ->
        snd (handler req stored) = stored
        /\ res_status (fst (handler req stored))
           = if String.eqb (req_method req) "POST" then 500
             else if String.eqb (req_method req) "GET" then 200 else 405).
Proof.
  split; [apply serve_store|]. split.
  - rewrite serve_store. reflexivity.
  - intros req Hreq. unfold handler.
    destruct (String.eqb (req_method req) "POST") eqn:Hp.
    + destruct Hreq as [Hm | Hb].
      * apply String.eqb_eq in Hp. contradiction.
      * rewrite Hb. split; reflexivity.
    + destruct (String.eqb (req_method req) "GET"); split; reflexivity.
Qed.

Lemma endpoint_store_append_only_witness :
  snd (handler (mkRequest "DELETE" None) [Sample.click]) = [Sample.click]
  /\ res_status (fst (handler (mkRequest "DELETE" None) [Sample.click])) = 405
  /\ res_status (fst (handler (mkRequest "POST" None) [Sample.click])) = 500.
Proof.
  destruct (endpoint_store_append_only [] [Sample.click] None) as (_ & _ & Herr).
  destruct (Herr (mkRequest "DELETE" None) ltac:(left; discriminate)) as [Hs Hc].
  destruct (Herr (mkRequest "POST" None) ltac:(right; reflexivity)) as [_ Hc'].
  split; [exact Hs|]. split; [exact Hc | exact Hc'].
Defined.

(** ** [throttle] *)

Lemma throttleRun_spaced (limit : Z) (times : list Z) :
  forall last,
    Sorted (fun a b => limit <= b - a) (throttleRun limit last times)
    /\ HdRel (fun a b => limit <= b - a) last (throttleRun limit last times)
    /\ incl (throttleRun limit last times) times.
Proof.
  induction times as [|t times IH]; intro last.
  - simpl. repeat split; [constructor | constructor | intros x []].
  - cbn [throttleRun]. unfold throttleCall.
    destruct (t - last >=? limit) eqn:E.
    + destruct (IH t) as (Hs & Hh & Hi).
      repeat split.
      * constructor; assumption.
      * constructor. apply Z.geb_le in E. exact E.
      * intros x [<- | Hx]; [left; reflexivity | right; apply Hi, Hx].
    + destruct (IH last) as (Hs & Hh & Hi).
      repeat split; try assumption.
      intros x Hx. right. apply Hi, Hx.
Qed.

(** A throttled function runs [fn] only on calls the wrapper received, and
    never twice within [limit] milliseconds: any two consecutive runs are
    at least [limit] apart, whatever the times of the calls. Since the
    closure starts at [last = 0], the first call runs exactly when
    [Date.now()] is at least [limit]. *)
Theorem throttle_spacing (limit : Z) (times : list Z) :
  Sorted (fun a b => limit <= b - a) (throttle limit times)
  /\ incl (throttle limit times) times
  /\ (forall t rest,
        times = t :: rest ->
        (limit <= t -> exists later, throttle limit times = t :: later)
        /\ (t < limit -> throttle limit times = throttle limit rest)).
Proof.
  unfold throttle.
  destruct (throttleRun_spaced limit times 0) as (Hs & _ & Hi).
  split; [exact Hs|]. split; [exact Hi|].
  intros t rest ->. cbn [throttleRun]. unfold throttleCall. split.
  - intro Ht. replace (t - 0 >=? limit) with true
      by (symmetry; apply Z.geb_le; lia).
    eexists. reflexivity.
  - intro Ht. replace (t - 0 >=? limit) with false
      by (symmetry; rewrite Z.geb_leb; apply Z.leb_gt; lia).
    reflexivity.
Qed.

Lemma throttle_spacing_witness :
  Sorted (fun a b => 200 <= b - a)
    (throttle 200 [1000; 1100; 1199; 1200; 1250; 1400; 1401])
  /\ throttle 200 [1000; 1100; 1199; 1200; 1250; 1400; 1401] = [1000; 1200; 1400]
  /\ throttle 200 [150; 1000] = throttle 200 [1000].
Proof.
  destruct (throttle_spacing 200 [1000; 1100; 1199; 1200; 1250; 1400; 1401])
    as (Hsorted & _ & _).
  destruct (throttle_spacing 200 [150; 1000]) as (_ & _ & Hfirst).
  destruct (Hfirst 150 [1000] eq_refl) as [_ Hskip].
  split; [exact Hsorted|]. split; [reflexivity|].
  apply Hskip. lia.
Defined.

(** ** The heatmap buffer *)

Lemma onMouseMove_buffer (x y : Z) (pg : Page) :
  config (tracker (world (onMouseMove x y pg))) = config (tracker (world pg))
  /\ (heatmapBuffer (onMouseMove x y pg) = []
      \/ (heatmapBuffer (onMouseMove x y pg)
          = heatmapBuffer pg ++ [mkPoint x y (h_clock (host (world pg)))]
          /\ Z.of_nat (List.length (heatmapBuffer (onMouseMove x y pg)))
             < maxHeatmapPoints (config (tracker (world pg))))).
Proof.
  unfold onMouseMove.
  destruct (_ >=? _) eqn:E; cbn [world heatmapBuffer].
  - split; [|left; reflexivity].
    apply (settings_config _ _ (enqueue_settings _ _)).
  - split; [reflexivity|]. right. split; [reflexivity|].
    rewrite Z.geb_leb in E. apply Z.leb_gt in E. exact E.
Qed.

(** The heatmap buffer never fills up: with [maxHeatmapPoints >= 1], after
    any run of mouse moves it holds fewer than [maxHeatmapPoints] points.
    The move that brings it to [maxHeatmapPoints] empties it and hands
    [enqueue] one heatmap event with only the first 200 of the buffered
    points; whatever was buffered beyond 200 is dropped. *)
Theorem heatmap_buffer_bounded (pg : Page) :
  1 <= maxHeatmapPoints (config (tracker (world pg))) ->
  Z.of_nat (List.length (heatmapBuffer pg))
    < maxHeatmapPoints (config (tracker (world pg))) ->
  (forall moves,
      Z.of_nat (List.length (heatmapBuffer (mouseMoves moves pg)))
      < maxHeatmapPoints (config (tracker (world pg))))
  /\ (forall x y,
         Z.of_nat (List.length (heatmapBuffer pg)) + 1
         = maxHeatmapPoints (config (tracker (world pg))) ->
         heatmapBuffer (onMouseMove x y pg) = []
         /\ exists points,
              world (onMouseMove x y pg)
              = enqueue
                  (buildEvent EventType.HEATMAP
                     (payloadOnly (JObj [("points"%string, JArr points)]))
                     (world pg))
                  (world pg)
              /\ points
                 = map pointJson
                     (firstn 200
                        (heatmapBuffer pg
                           ++ [mkPoint x y (h_clock (host (world pg)))]))
              /\ List.length points
                 = Nat.min 200 (S (List.length (heatmapBuffer pg)))).
Proof.
  intros Hone Hlen. split.
  - intro moves. revert pg Hone Hlen.
    induction moves as [|[x y] moves IH]; intros pg Hone Hlen; [exact Hlen|].
    cbn [mouseMoves fold_left fst snd].
    fold (mouseMoves moves (onMouseMove x y pg)).
    destruct (onMouseMove_buffer x y pg) as [Hc Hb].
    rewrite <- Hc. apply IH; rewrite Hc; [exact Hone|].
    destruct Hb as [-> | [_ Hlt]]; [simpl; lia | exact Hlt].
  - intros x y Hfull. unfold onMouseMove.
    replace (_ >=? _) with true.
    + cbn [world heatmapBuffer]. split; [reflexivity|].
      eexists. split; [reflexivity|]. split; [reflexivity|].
      rewrite length_map, length_firstn, length_app. simpl List.length.
      rewrite Nat.add_1_r. reflexivity.
    + symmetry. apply Z.geb_le. rewrite length_app. simpl List.length. lia.
Qed.

Lemma heatmap_buffer_bounded_witness :
  Z.of_nat
    (List.length
       (heatmapBuffer
          (mouseMoves [(1, 1); (2, 2); (3, 3)]
             (mkPage (grantConsent (Sample.fresh 15 4)) [] []))))
  < 500.
Proof.
  destruct (heatmap_buffer_bounded
              (mkPage (grantConsent (Sample.fresh 15 4)) [] [])
              ltac:(vm_compute; discriminate) ltac:(vm_compute; reflexivity))
    as [Hbound _].
  apply (Hbound [(1, 1); (2, 2); (3, 3)]).
Defined.

(** ** Scroll depth *)

Lemma reached_app (p : Z) (seen more : list Z) :
  reached p seen = true -> reached p (seen ++ more) = true.
Proof.
  unfold reached. intro H. rewrite existsb_app, H. reflexivity.
Qed.

Lemma reached_last (p : Z) (seen : list Z) : reached p (seen ++ [p]) = true.
Proof.
  unfold reached. rewrite existsb_app. simpl. rewrite Z.eqb_refl.
  apply orb_true_iff. right. reflexivity.
Qed.

Lemma scrollStep_frame (pct : Z) (w : World) (seen : list Z) (p : Z) :
  config (tracker (fst (scrollStep pct (w, seen) p))) = config (tracker w)
  /\ (forall q, reached q seen = true ->
        reached q (snd (scrollStep pct (w, seen) p)) = true)
  /\ (p <= pct -> reached p (snd (scrollStep pct (w, seen) p)) = true).
Proof.
  unfold scrollStep.
  destruct (pct >=? p) eqn:Hge; [destruct (reached p seen) eqn:Hr|];
    cbn [andb negb fst snd].
  - repeat split; auto.
  - split; [|split].
    + unfold trackEvent. apply (settings_config _ _ (enqueue_settings _ _)).
    + intros q Hq. apply reached_app, Hq.
    + intros _. apply reached_last.
  - repeat split; auto.
    intro Hle. rewrite Z.geb_leb in Hge. apply Z.leb_gt in Hge. lia.
Qed.

Lemma scrollLoop_reaches (pct : Z) (ps : list Z) :
  forall (w : World) (seen : list Z),
    config (tracker (fst (fold_left (scrollStep pct) ps (w, seen))))
    = config (tracker w)
    /\ (forall q, reached q seen = true ->
          reached q (snd (fold_left (scrollStep pct) ps (w, seen))) = true)
    /\ (forall p, In p ps -> p <= pct ->
          reached p (snd (fold_left (scrollStep pct) ps (w, seen))) = true).
Proof.
  induction ps as [|p0 ps IH]; intros w seen.
  - simpl. split; [reflexivity|]. split; [auto | intros p []].
  - cbn [fold_left].
    destruct (scrollStep_frame pct w seen p0) as (Hc & Hkeep & Hnew).
    destruct (scrollStep pct (w, seen) p0) as [w1 seen1]. cbn [fst snd] in *.
    destruct (IH w1 seen1) as (Hc1 & Hkeep1 & Hall1).
    split; [rewrite Hc1; exact Hc|]. split.
    + intros q Hq. apply Hkeep1, Hkeep, Hq.
    + intros p [<- | Hin] Hle.
      * apply Hkeep1, Hnew, Hle.
      * apply Hall1; assumption.
Qed.

Lemma scrollLoop_idle (pct : Z) (ps : list Z) (w : World) (seen : list Z) :
  (forall p, In p ps -> p <= pct -> reached p seen = true) ->
  fold_left (scrollStep pct) ps (w, seen) = (w, seen).
Proof.
  induction ps as [|p0 ps IH]; intro Hall; [reflexivity|].
  cbn [fold_left].
  assert (Hstep : scrollStep pct (w, seen) p0 = (w, seen)).
  { unfold scrollStep. destruct (pct >=? p0) eqn:Hge; [|reflexivity].
    apply Z.geb_le in Hge.
    rewrite (Hall p0 (or_introl eq_refl) Hge). reflexivity. }
  rewrite Hstep. apply IH. intros p Hin. apply Hall. right. exact Hin.
Qed.

Lemma scrollLoop_newly (pct : Z) (ps : list Z) :
  forall (w : World) (seen : list Z),
    snd (fold_left (scrollStep pct) ps (w, seen))
    = seen ++ newlyReached pct ps seen.
Proof.
  induction ps as [|p ps IH]; intros w seen.
  - simpl. rewrite app_nil_r. reflexivity.
  - cbn [fold_left newlyReached]. unfold scrollStep at 2.
    destruct ((pct >=? p) && negb (reached p seen)).
    + rewrite IH, <- app_assoc. reflexivity.
    + apply IH.
Qed.

Lemma scrollLoop_dropped (pct : Z) (ps : list Z) (w : World) :
  siteId (config (tracker w)) = ""%string ->
  forall seen, fst (fold_left (scrollStep pct) ps (w, seen)) = w.
Proof.
  intro Hs. induction ps as [|p ps IH]; intro seen; [reflexivity|].
  cbn [fold_left]. unfold scrollStep at 2.
  destruct ((pct >=? p) && negb (reached p seen)); [|apply IH].
  unfold trackEvent. rewrite enqueue_no_siteId by exact Hs. apply IH.
Qed.

(** With consent and a site id, and while the queue stays under
    [batchSize], the loop appends one event per newly reached threshold. *)
Lemma scrollLoop_queue (pct : Z) (w0 : World) :
  hasConsent (tracker w0) = true ->
  siteId (config (tracker w0)) <> ""%string ->
  forall (ps seen : list Z) (q : list TrackerEvent),
    Z.of_nat (List.length q) + Z.of_nat (List.length (newlyReached pct ps seen))
      < batchSize (config (tracker w0)) ->
    fst (fold_left (scrollStep pct) ps (setQueue q w0, seen))
    = setQueue (q ++ map (scrollEvent w0) (newlyReached pct ps seen)) w0.
Proof.
  intros Hc Hs. induction ps as [|p ps IH]; intros seen q Hlen.
  - simpl. rewrite app_nil_r. reflexivity.
  - cbn [fold_left newlyReached] in *. unfold scrollStep at 2.
    destruct ((pct >=? p) && negb (reached p seen)).
    + cbn [List.length] in Hlen.
      assert (Hstep : trackEvent "Scroll" "DepthReached" (Some (percentLabel p))
                        (Some p) None (setQueue q w0)
                      = setQueue (q ++ [scrollEvent w0 p]) w0).
      { unfold trackEvent. rewrite enqueue_below.
        - reflexivity.
        - unfold admits. cbn [tracker setQueue setTracker config hasConsent].
          rewrite Hc.
          destruct (siteId (config (tracker w0))); [contradiction | reflexivity].
        - cbn [tracker setQueue setTracker queue config]. lia. }
      rewrite Hstep, IH.
      * cbn [map]. rewrite <- app_assoc. reflexivity.
      * rewrite length_app. cbn [List.length]. lia.
    + apply IH. exact Hlen.
Qed.

(** Each scroll-depth threshold is reported at most once. A run of the
    handler at depth [pct] marks every configured threshold up to [pct]
    that was not yet reached; with consent and a site id, and the queue
    staying under [batchSize], it appends to the queue one custom event per
    newly reached threshold, in the order of the config, with category
    [Scroll], action [DepthReached], the label [p%] and the value [p]. A
    later run at the same or a smaller depth then does nothing at all. The
    thresholds are marked whether or not the event is admitted: without a
    site id they are marked and never reported. A page that cannot scroll
    ([maxScroll <= 0]) is never reported on. *)
Theorem scroll_depth_reported_once (maxScroll pct pct' : Z) (pg : Page) :
  (maxScroll <= 0 -> onScroll maxScroll pct pg = pg)
  /\ (pct' <= pct ->
      onScroll maxScroll pct' (onScroll maxScroll pct pg)
      = onScroll maxScroll pct pg)
  /\ (0 < maxScroll ->
      scrollDepthReached (onScroll maxScroll pct pg)
      = scrollDepthReached pg
          ++ newlyReached pct
               (scrollDepthPercentages (config (tracker (world pg))))
               (scrollDepthReached pg)
      /\ (forall p,
            In p (scrollDepthPercentages (config (tracker (world pg)))) ->
            p <= pct ->
            reached p (scrollDepthReached (onScroll maxScroll pct pg)) = true)
      /\ (hasConsent (tracker (world pg)) = true ->
          siteId (config (tracker (world pg))) <> ""%string ->
          Z.of_nat (List.length (queue (tracker (world pg))))
            + Z.of_nat
                (List.length
                   (newlyReached pct
                      (scrollDepthPercentages (config (tracker (world pg))))
                      (scrollDepthReached pg)))
            < batchSize (config (tracker (world pg))) ->
          queue (tracker (world (onScroll maxScroll pct pg)))
          = queue (tracker (world pg))
              ++ map (scrollEvent (world pg))
                   (newlyReached pct
                      (scrollDepthPercentages (config (tracker (world pg))))
                      (scrollDepthReached pg))
          /\ trace (world (onScroll maxScroll pct pg)) = trace (world pg))
      /\ (siteId (config (tracker (world pg))) = ""%string ->
          world (onScroll maxScroll pct pg) = world pg))
  /\ (forall w p,
         ev_type (scrollEvent w p) = EventType.CUSTOM
         /\ ev_payload (scrollEvent w p)
            = Some (JObj [("category", JStr "Scroll");
                          ("action", JStr "DepthReached");
                          ("label", JStr (percentLabel p)); ("value", JNum p);
                          ("extra", JUndefined)]%string)).
Proof.
  split; [|split; [|split]].
  - intro Hm. unfold onScroll.
    replace (maxScroll <=? 0) with true by (symmetry; apply Z.leb_le; exact Hm).
    reflexivity.
  - intro Hle. unfold onScroll at 2 3.
    destruct (maxScroll <=? 0) eqn:Hm.
    { unfold onScroll. rewrite Hm. reflexivity. }
    destruct (scrollLoop_reaches pct
                (scrollDepthPercentages (config (tracker (world pg))))
                (world pg) (scrollDepthReached pg)) as (Hc & _ & Hall).
    destruct (fold_left _ _ _) as [w1 seen1]. cbn [fst snd] in *.
    unfold onScroll. rewrite Hm. cbn [world scrollDepthReached heatmapBuffer].
    rewrite Hc, scrollLoop_idle; [reflexivity|].
    intros p Hin Hp. apply Hall; [exact Hin | lia].
  - intro Hm. unfold onScroll.
    replace (maxScroll <=? 0) with false by (symmetry; apply Z.leb_gt; exact Hm).
    pose proof (scrollLoop_newly pct
                  (scrollDepthPercentages (config (tracker (world pg))))
                  (world pg) (scrollDepthReached pg)) as Hnew.
    destruct (scrollLoop_reaches pct
                (scrollDepthPercentages (config (tracker (world pg))))
                (world pg) (scrollDepthReached pg)) as (_ & _ & Hall).
    pose proof (fun Hs =>
                  scrollLoop_dropped pct
                    (scrollDepthPercentages (config (tracker (world pg))))
                    (world pg) Hs (scrollDepthReached pg)) as Hdrop.
    cbv beta in Hdrop.
    pose proof (fun Hc Hs =>
                  scrollLoop_queue pct (world pg) Hc Hs
                    (scrollDepthPercentages (config (tracker (world pg))))
                    (scrollDepthReached pg) (queue (tracker (world pg))))
      as Hqueue.
    rewrite setQueue_same in Hqueue.
    destruct (fold_left _ _ _) as [w1 seen1]. cbn [fst snd] in *.
    cbn [world scrollDepthReached].
    split; [exact Hnew|]. split; [exact Hall|]. split.
    + intros Hc Hs Hlen. rewrite (Hqueue Hc Hs Hlen). split; reflexivity.
    + intro Hs. apply Hdrop. exact Hs.
  - intros w p. unfold scrollEvent, attachSession.
    destruct (truthy (sessionId (tracker w))); split; reflexivity.
Qed.

Lemma scroll_depth_reported_once_witness :
  scrollDepthReached
    (onScroll 900 40
       (onScroll 900 60 (mkPage (grantConsent (Sample.fresh 15 4)) [] [])))
  = [25; 50]
  /\ map ev_payload
       (queue (tracker
                 (world (onScroll 900 60
                           (mkPage (grantConsent (Sample.fresh 15 4)) [] [])))))
     = [None;
        Some (JObj [("category", JStr "Scroll"); ("action", JStr "DepthReached");
                    ("label", JStr "25%"); ("value", JNum 25);
                    ("extra", JUndefined)]%string);
        Some (JObj [("category", JStr "Scroll"); ("action", JStr "DepthReached");
                    ("label", JStr "50%"); ("value", JNum 50);
                    ("extra", JUndefined)]%string)].
Proof.
  destruct (scroll_depth_reported_once 900 60 40
              (mkPage (grantConsent (Sample.fresh 15 4)) [] []))
    as (_ & Honce & Hrun & _).
  split; [rewrite (Honce ltac:(lia)); reflexivity|].
  destruct (Hrun ltac:(lia)) as (_ & _ & Hqueue & _).
  destruct (Hqueue eq_refl ltac:(vm_compute; discriminate)
              ltac:(vm_compute; reflexivity)) as [Hq _].
  rewrite Hq. reflexivity.
Defined.

(** ** After consent *)

(** Once consent is granted from an ungranted state, whatever runs
    afterwards, an event handed to [enqueue] while a site id is set is
    admitted, whatever its kind, and goes to the tail of the queue with
    the one non-empty session id that [grantConsent] produced: it either
    stays queued there or, on reaching [batchSize], is the last event of
    the body handed to [send]. *)
Theorem events_after_consent_carry_session (w : World) (ops : list Op)
    (ev : TrackerEvent) :
  hasConsent (tracker w) = false ->
  siteId (config (tracker (run ops (grantConsent w)))) <> ""%string ->
  sessionId (tracker (grantConsent w)) <> ""%string
  /\ ev_sessionId (withSession (sessionId (tracker (grantConsent w))) ev)
     = Some (sessionId (tracker (grantConsent w)))
  /\ ((queue (tracker (enqueue ev (run ops (grantConsent w))))
       = queue (tracker (run ops (grantConsent w)))
           ++ [withSession (sessionId (tracker (grantConsent w))) ev]
       /\ trace (enqueue ev (run ops (grantConsent w)))
          = trace (run ops (grantConsent w)))
      \/ (queue (tracker (enqueue ev (run ops (grantConsent w)))) = []
          /\ sendsOf (trace (enqueue ev (run ops (grantConsent w))))
             = sendsOf (trace (run ops (grantConsent w)))
                 ++ [(mkPayload
                        (siteId (config (tracker (run ops (grantConsent w)))))
                        (h_clock (host (run ops (grantConsent w))))
                        (queue (tracker (run ops (grantConsent w)))
                           ++ [withSession (sessionId (tracker (grantConsent w)))
                                 ev]),
                      false)])).
Proof.
  intros Hc Hs.
  pose proof (grantConsent_session w Hc) as Hid.
  destruct (run_consent_session ops (grantConsent w) (grantConsent_hasConsent w))
    as [Hc' Hid'].
  set (w' := run ops (grantConsent w)) in *.
  split; [intro E; rewrite E in Hid; discriminate|].
  split; [reflexivity|].
  assert (Ha : admits (tracker w') ev = true).
  { unfold admits. rewrite Hc'.
    destruct (siteId (config (tracker w'))); [contradiction | reflexivity]. }
  assert (Hatt : attachSession (tracker w') ev
                 = withSession (sessionId (tracker (grantConsent w))) ev).
  { unfold attachSession. rewrite Hid', Hid. reflexivity. }
  rewrite (enqueue_admitted ev w' Ha). cbv zeta. rewrite Hatt.
  set (w1 := setQueue
               (queue (tracker w')
                  ++ [withSession (sessionId (tracker (grantConsent w))) ev]) w').
  assert (Hq1 : queue (tracker w1) <> []) by apply app_one_not_nil.
  assert (Hs1 : siteId (config (tracker w1)) <> ""%string) by exact Hs.
  destruct (_ >=? _).
  - right. split.
    + destruct (flush_clears_queue false w1) as [H | [_ H]]; [exact H|].
      contradiction.
    + rewrite (flush_trace false w1 Hq1 Hs1), sendsOf_app, send_sendsOf.
      reflexivity.
  - left. split; reflexivity.
Qed.

Lemma events_after_consent_carry_session_witness :
  sessionId (tracker (grantConsent (Sample.fresh 15 4))) <> ""%string
  /\ map ev_sessionId
       (queue (tracker
                 (enqueue Sample.click
                    (run [TrackPage None None; FlushNow]
                       (grantConsent (Sample.fresh 15 4))))))
     = [Some (sessionId (tracker (grantConsent (Sample.fresh 15 4))))].
Proof.
  destruct (events_after_consent_carry_session (Sample.fresh 15 4)
              [TrackPage None None; FlushNow] Sample.click eq_refl
              ltac:(vm_compute; discriminate)) as (Hid & _ & _).
  split; [exact Hid | reflexivity].
Defined.

(** ** The config after construction *)

Lemma step_config (w : World) (op : Op) :
  clearSiteId (config (tracker (step w op))) = clearSiteId (config (tracker w)).
Proof.
  assert (Hkeep : forall w', settings (tracker w') = settings (tracker w) ->
            clearSiteId (config (tracker w')) = clearSiteId (config (tracker w))).
  { intros w' H. destruct (settings_config _ _ H) as [Hc _]. rewrite Hc.
    reflexivity. }
  destruct op; cbn [step];
    try (apply Hkeep;
         first [apply enqueue_settings | apply flush_settings
               | apply fetchSettled_settings | apply timerFired_settings]);
    try reflexivity.
  - unfold setSiteId. destruct (negb (truthy s)); reflexivity.
  - destruct (grantConsent_config w) as [Hc _]. rewrite Hc. reflexivity.
  - unfold setCustomDimension. destruct (negb (truthy name));
      [|destruct (String.eqb name "__proto__")]; reflexivity.
  - destruct (hasConsent (tracker w)); [|reflexivity].
    apply Hkeep, enqueue_settings.
Qed.

(** Nothing in the event loop changes the config or the transport after
    construction, the site id apart: batch size, flush interval, retry
    settings and endpoint stay what the constructor merged from the
    defaults and the caller's config, and the transport keeps using them. *)
Theorem config_fixed_after_construction (env : string) (c : TrackerConfig)
    (h : Host) (s : SessionStorage) (ops : list Op) :
  clearSiteId (config (tracker (run ops (construct env c h s))))
  = clearSiteId (mergeConfig (DEFAULTS env) c)
  /\ transport (tracker (run ops (construct env c h s)))
     = mkTransport (orDefault (tc_collectionEndpoint c) env)
         (orDefault (tc_debug c) false)
         (orDefault (tc_retryBackoffBaseMs c) 500)
         (orDefault (tc_retryMaxAttempts c) 4)
  /\ wired (tracker (run ops (construct env c h s))).
Proof.
  assert (Hrun : forall w,
            clearSiteId (config (tracker (run ops w)))
            = clearSiteId (config (tracker w))
            /\ transport (tracker (run ops w)) = transport (tracker w)).
  { induction ops as [|op ops IH]; intro w; [split; reflexivity|].
    cbn [run fold_left]. fold (run ops (step w op)).
    destruct (IH (step w op)) as [Hc Ht].
    rewrite Hc, Ht, step_config, step_transport. split; reflexivity. }
  destruct (Hrun (construct env c h s)) as [Hc Ht].
  assert (Hstart : settings (tracker (construct env c h s))
                   = settings
                       (mkTracker (mergeConfig (DEFAULTS env) c)
                          (mkTransport
                             (collectionEndpoint (mergeConfig (DEFAULTS env) c))
                             (debug (mergeConfig (DEFAULTS env) c))
                             (retryBackoffBaseMs (mergeConfig (DEFAULTS env) c))
                             (retryMaxAttempts (mergeConfig (DEFAULTS env) c)))
                          [] [] false "")).
  { unfold construct, trackPage. apply enqueue_settings. }
  destruct (settings_config _ _ Hstart) as [Hc0 Ht0].
  split; [rewrite Hc, Hc0; reflexivity|].
  split; [rewrite Ht, Ht0; reflexivity|].
  apply run_wired, construct_wired.
Qed.
